(** * Freshdesk canvas app: interaction engine, retry helper and transcript helpers

    A shallow embedding of the Express server (the [/api/initialize] and
    [/api/submit] handlers, [fetchWithRetry], [postIntercomNote]) and of
    [conversation-helper.js], followed by the properties stated about them.

    Asynchronous JavaScript is embedded as a small free monad ([prog]): every
    [await] of an upstream call is a suspension point ([Await]), the
    closure variable [responseSent] and [app.locals] are explicit state, and
    [res.json] is an observable event.  Two interpreters give it meaning:
    [exec] runs one async function in isolation (every awaited call settles
    before anything else happens), and [run_schedule] is the single-threaded
    event loop, where the order in which pending calls and timers complete is
    chosen by a schedule. *)

From Stdlib Require Import ZArith QArith Qminmax Lqa String Ascii List Lia Bool.
From stdpp Require Import base gmap strings list pretty.
Import ListNotations.
Open Scope string_scope.

Set Implicit Arguments.
Set Warnings "-register-all".

(** ** JavaScript strings (ASCII fragment) *)

Module Js.

Definition is_space (c : ascii) : bool :=
  let n := nat_of_ascii c in
  (n =? 32)%nat || ((9 <=? n)%nat && (n <=? 13)%nat).

Fixpoint trimStart (s : string) : string :=
  match s with
  | String c s' => if is_space c then trimStart s' else s
  | EmptyString => EmptyString
  end.

Fixpoint rev_string (s acc : string) : string :=
  match s with
  | EmptyString => acc
  | String c s' => rev_string s' (String c acc)
  end.

(** [s.trim()], for the ASCII white space characters. *)
Definition trim (s : string) : string :=
  rev_string (trimStart (rev_string (trimStart s) "")) "".

(** [s.indexOf(pat)]: [None] stands for -1. *)
Fixpoint indexOf (pat s : string) : option nat :=
  if String.prefix pat s then Some 0%nat
  else match s with
       | EmptyString => None
       | String _ s' => option_map S (indexOf pat s')
       end.

Definition includes (pat s : string) : bool :=
  match indexOf pat s with Some _ => true | None => false end.

Definition startsWith (pat s : string) : bool := String.prefix pat s.

Definition endsWith (pat s : string) : bool :=
  String.prefix (rev_string pat "") (rev_string s "").

(** [s.substring(i)] and [s.substring(i, j)] for [0 <= i <= j]. *)
Fixpoint substringFrom (i : nat) (s : string) : string :=
  match i, s with
  | O, _ => s
  | S i', String _ s' => substringFrom i' s'
  | S _, EmptyString => EmptyString
  end.

Fixpoint substringTo (j : nat) (s : string) : string :=
  match j, s with
  | S j', String c s' => String c (substringTo j' s')
  | _, _ => EmptyString
  end.

Definition substring (i j : nat) (s : string) : string :=
  substringTo (j - i) (substringFrom i s).

(** [s.lastIndexOf(c)] for a one-character pattern. *)
Fixpoint lastIndexOfFrom (c : ascii) (s : string) (i : nat) (found : option nat)
  : option nat :=
  match s with
  | EmptyString => found
  | String d s' =>
      lastIndexOfFrom c s' (S i) (if Ascii.eqb c d then Some i else found)
  end.

Definition lastIndexOf (c : ascii) (s : string) : option nat :=
  lastIndexOfFrom c s 0 None.

Definition lower (c : ascii) : ascii :=
  let n := nat_of_ascii c in
  if ((65 <=? n)%nat && (n <=? 90)%nat) then ascii_of_nat (n + 32) else c.

Definition upper (c : ascii) : ascii :=
  let n := nat_of_ascii c in
  if ((97 <=? n)%nat && (n <=? 122)%nat) then ascii_of_nat (n - 32) else c.

Fixpoint map_string (f : ascii -> ascii) (s : string) : string :=
  match s with
  | EmptyString => EmptyString
  | String c s' => String (f c) (map_string f s')
  end.

Definition toLowerCase : string -> string := map_string lower.
Definition toUpperCase : string -> string := map_string upper.

(** [GetSubstitution] for a string pattern (no capture groups): in the
    replacement text [$$] is a dollar sign, [$&] the matched text, [$`] the
    text before the match and [$'] the text after it; any other [$] is
    literal. *)
Fixpoint substitution (matched before after repl : string) : string :=
  match repl with
  | EmptyString => EmptyString
  | String "$" (String "$" r) => String "$" (substitution matched before after r)
  | String "$" (String "&" r) => matched ++ substitution matched before after r
  | String "$" (String "`" r) => before ++ substitution matched before after r
  | String "$" (String "'" r) => after ++ substitution matched before after r
  | String c r => String c (substitution matched before after r)
  end.

(** [s.replace(pat, repl)] with a string pattern: the first occurrence
    only. *)
Definition replace (pat repl s : string) : string :=
  match indexOf pat s with
  | None => s
  | Some i =>
      let before := substringTo i s in
      let after := substringFrom (i + String.length pat) s in
      before ++ substitution pat before after repl ++ after
  end.

(** [s.replace(/pat/g, repl)] for a literal pattern and a replacement
    without [$]. *)
Fixpoint replaceAllAux (pat repl s : string) (fuel : nat) : string :=
  match fuel with
  | O => s
  | S fuel' =>
      if String.prefix pat s then
        repl ++ replaceAllAux pat repl (substringFrom (String.length pat) s) fuel'
      else match s with
           | EmptyString => EmptyString
           | String c s' => String c (replaceAllAux pat repl s' fuel')
           end
  end.

Definition replaceAll (pat repl s : string) : string :=
  replaceAllAux pat repl s (String.length s).

Definition is_digit (c : ascii) : bool :=
  let n := nat_of_ascii c in ((48 <=? n)%nat && (n <=? 57)%nat).

Fixpoint digits (s : string) (acc : option Z) : option Z :=
  match s with
  | String c s' =>
      if is_digit c
      then digits s' (Some (default 0%Z acc * 10 + Z.of_nat (nat_of_ascii c - 48))%Z)
      else acc
  | EmptyString => acc
  end.

(** [parseInt(s, 10)]: [None] is [NaN]. *)
Definition parseInt (s : string) : option Z :=
  match trimStart s with
  | String "-" s' => option_map Z.opp (digits s' None)
  | String "+" s' => digits s' None
  | s' => digits s' None
  end.

(** [s.split(sep)] for a non-empty separator. *)
Fixpoint splitAux (sep s cur : string) (fuel : nat) : list string :=
  match fuel with
  | O => [rev_string cur ""]
  | S fuel' =>
      if String.prefix sep s then
        rev_string cur "" ::
          splitAux sep (substringFrom (String.length sep) s) "" fuel'
      else match s with
           | EmptyString => [rev_string cur ""]
           | String c s' => splitAux sep s' (String c cur) fuel'
           end
  end.

Definition split (sep s : string) : list string :=
  match s with
  | EmptyString => [""]
  | _ => splitAux sep s "" (String.length s)
  end.

(** Template literals print a missing value as [undefined]. *)
Definition show (o : option string) : string := default "undefined" o.

(** Truthiness of an optional string, and [a || b]. *)
Definition truthy (o : option string) : bool :=
  match o with
  | Some s => negb (String.eqb s "")
  | None => false
  end.

Definition or (a b : option string) : option string :=
  if truthy a then a else b.

Definition orStr (a : option string) (b : string) : string :=
  if truthy a then default "" a else b.

(** [xs.slice(i, j)] on arrays, for [0 <= i] and [0 <= j]. *)
Definition slice {A} (i j : nat) (xs : list A) : list A :=
  firstn (j - i) (skipn i xs).

End Js.

(** ** Data exchanged with the upstream systems *)

(** JSON values: the canvas panels sent with [res.json], and the Intercom
    conversation documents. *)
Inductive json : Type :=
| JUndefined
| JNull
| JBool (b : bool)
| JNum (n : Z)
| JStr (s : string)
| JArr (items : list json)
| JObj (fields : list (string * json)).

Definition falsy (v : json) : bool :=
  match v with
  | JUndefined | JNull | JBool false | JNum 0%Z | JStr "" => true
  | _ => false
  end.

Definition jopt (o : option string) : json :=
  match o with Some s => JStr s | None => JUndefined end.

Fixpoint lookup_field (k : string) (fields : list (string * json)) : json :=
  match fields with
  | [] => JUndefined
  | (k', v) :: rest => if String.eqb k k' then v else lookup_field k rest
  end.

(** [o.k] on a JSON value ([undefined] when absent or not an object). *)
Definition jget (k : string) (v : json) : json :=
  match v with JObj fields => lookup_field k fields | _ => JUndefined end.

Record ticket := { t_id : Z; t_subject : string; t_created_at : string }.
Record mailbox := { mb_id : Z; mb_active : bool }.
Record field := { f_id : Z; f_name : string }.
Record choice := { ch_id : Z; ch_value : Z; ch_label : string }.

(** A downloaded file, as kept in [ticketData._attachments]. *)
Record attachmentFile :=
  { af_name : option string; af_content_type : string; af_buffer : string }.

(** An attachment reference produced by the transcript formatter. *)
Record attachment :=
  { at_url : option string; at_name : option string;
    at_content_type : option string }.

(** [parseInt(s, 10)] yields a number or [NaN] ([None]). *)
Record ticket_data :=
  { td_email : string;
    td_subject : string;
    td_description : option string;
    td_source : Z;
    td_status : option (option Z);
    td_priority : option (option Z);
    td_attachments : option (list attachmentFile);
    td_intercom_conversation_id : option string }.

(** What a failed HTTP exchange carries in [error.response]. *)
Record httpFailure :=
  { hf_status : Z; hf_message : option string; hf_errors : string }.

Inductive error : Type :=
| AxiosError (response : option httpFailure) (message : string)
| TypeError (message : string)
| Error (message : string).

Definition error_message (e : error) : string :=
  match e with
  | AxiosError _ m | TypeError m | Error m => m
  end.

(** The upstream calls the server issues, indexed by the shape of
    [response.data]. *)
Inductive request : Type -> Type :=
| GetTickets (email : string) (per_page : nat) : request (list ticket)
| GetMailboxes : request (list mailbox)
| GetTicketFields : request (list field)
| GetTicketField (id : Z) : request (list choice)
| GetConversation (conversationId : string) : request json
| PostReply (conversationId : string) (noteBody : string) : request json
| PostTicketNote (ticketId : string) (noteBody : string)
    (files : list attachmentFile) : request unit
| PostTicket (data : ticket_data) : request Z
| Download (url : string) (browserHeaders : bool) : request string.

Definition result (X : Type) : Type := (error + X)%type.

Inductive event : Type :=
| EvReply (status : Z) (body : json)
| EvHttp {X : Type} (timeout : option Z) (r : request X)
| EvSleep (ms : Q)
| EvDeadline
| EvUnhandled (e : error).


Definition is_http (e : event) : bool :=
  match e with EvHttp _ _ => true | _ => false end.

Definition is_sleep (e : event) : bool :=
  match e with EvSleep _ => true | _ => false end.

(** A call of the Completion Notifier ([postIntercomNote]). *)
Definition is_note (e : event) : bool :=
  match e with EvHttp _ (PostReply _ _) => true | _ => false end.

Definition is_ticket_creation (e : event) : bool :=
  match e with EvHttp _ (PostTicket _) => true | _ => false end.

Definition replies (t : list event) : list (Z * json) :=
  flat_map (fun e => match e with EvReply s b => [(s, b)] | _ => [] end) t.

Definition sleeps (t : list event) : list Q :=
  flat_map (fun e => match e with EvSleep d => [d] | _ => [] end) t.

(** ** Server state *)

(** The pagination cursor kept in [app.locals.homePageState] and
    [app.locals.mergePageState]. *)
Record pageState :=
  { customerEmail : string;
    currentOffset : nat;
    allTickets : list ticket;
    hasMore : bool }.

Record context :=
  { ctx_customerEmail : string;
    ctx_defaultTitle : string;
    ctx_defaultDescription : string }.

(** Entries of [ticketTracker]. *)
Record marker :=
  { inProgress : bool;
    mk_ticketId : option Z;
    mk_error : option string;
    mk_at : string }.

Record state :=
  { intercomContext : option context;
    homePageState : option pageState;
    mergePageState : option pageState;
    selectedTicketId : option string;
    ticketTracker : gmap string marker }.

Definition initial_state : state :=
  {| intercomContext := None; homePageState := None; mergePageState := None;
     selectedTicketId := None; ticketTracker := ∅ |}.

Definition set_intercomContext (c : context) (s : state) : state :=
  {| intercomContext := Some c; homePageState := homePageState s;
     mergePageState := mergePageState s; selectedTicketId := selectedTicketId s;
     ticketTracker := ticketTracker s |}.

Definition set_homePageState (p : pageState) (s : state) : state :=
  {| intercomContext := intercomContext s; homePageState := Some p;
     mergePageState := mergePageState s; selectedTicketId := selectedTicketId s;
     ticketTracker := ticketTracker s |}.

Definition set_mergePageState (p : pageState) (s : state) : state :=
  {| intercomContext := intercomContext s; homePageState := homePageState s;
     mergePageState := Some p; selectedTicketId := selectedTicketId s;
     ticketTracker := ticketTracker s |}.

Definition set_selectedTicketId (t : string) (s : state) : state :=
  {| intercomContext := intercomContext s; homePageState := homePageState s;
     mergePageState := mergePageState s; selectedTicketId := Some t;
     ticketTracker := ticketTracker s |}.

Definition set_ticketTracker (m : gmap string marker) (s : state) : state :=
  {| intercomContext := intercomContext s; homePageState := homePageState s;
     mergePageState := mergePageState s; selectedTicketId := selectedTicketId s;
     ticketTracker := m |}.

(** ** Asynchronous programs *)

Inductive prog (A : Type) : Type :=
| Ret (a : A)
| Throw (e : error)
| Get (k : state -> prog A)
| Modify (f : state -> state) (k : prog A)
| ReadSent (k : bool -> prog A)
| WriteSent (b : bool) (k : prog A)
| ResJson (status : Z) (body : json) (k : prog A)
| ClearDeadline (k : prog A)
| MathRandom (k : Q -> prog A)
| DateNow (k : string -> prog A)
| Await {X : Type} (timeout : option Z) (r : request X) (k : result X -> prog A)
| Sleep (ms : Q) (k : prog A)
| Spawn (p : prog unit) (k : prog A)
| SetTimeout (ms : Z) (p : prog unit) (k : prog A).

Arguments Ret {A} a.
Arguments Throw {A} e.
Arguments Get {A} k.
Arguments Modify {A} f k.
Arguments ReadSent {A} k.
Arguments WriteSent {A} b k.
Arguments ResJson {A} status body k.
Arguments ClearDeadline {A} k.
Arguments MathRandom {A} k.
Arguments DateNow {A} k.
Arguments Await {A X} timeout r k.
Arguments Sleep {A} ms k.
Arguments Spawn {A} p k.
Arguments SetTimeout {A} ms p k.

Fixpoint bind {A B : Type} (p : prog A) (f : A -> prog B) : prog B :=
  match p with
  | Ret a => f a
  | Throw e => Throw e
  | Get k => Get (fun s => bind (k s) f)
  | Modify g k => Modify g (bind k f)
  | ReadSent k => ReadSent (fun b => bind (k b) f)
  | WriteSent b k => WriteSent b (bind k f)
  | ResJson st body k => ResJson st body (bind k f)
  | ClearDeadline k => ClearDeadline (bind k f)
  | MathRandom k => MathRandom (fun x => bind (k x) f)
  | DateNow k => DateNow (fun x => bind (k x) f)
  | Await t r k => Await t r (fun x => bind (k x) f)
  | Sleep ms k => Sleep ms (bind k f)
  | Spawn q k => Spawn q (bind k f)
  | SetTimeout ms q k => SetTimeout ms q (bind k f)
  end.

(** [try { p } catch (error) { h error }]: errors of tasks that [p] merely
    starts are not caught. *)
Fixpoint try_catch {A : Type} (p : prog A) (h : error -> prog A) : prog A :=
  match p with
  | Ret a => Ret a
  | Throw e => h e
  | Get k => Get (fun s => try_catch (k s) h)
  | Modify g k => Modify g (try_catch k h)
  | ReadSent k => ReadSent (fun b => try_catch (k b) h)
  | WriteSent b k => WriteSent b (try_catch k h)
  | ResJson st body k => ResJson st body (try_catch k h)
  | ClearDeadline k => ClearDeadline (try_catch k h)
  | MathRandom k => MathRandom (fun x => try_catch (k x) h)
  | DateNow k => DateNow (fun x => try_catch (k x) h)
  | Await t r k => Await t r (fun x => try_catch (k x) h)
  | Sleep ms k => Sleep ms (try_catch k h)
  | Spawn q k => Spawn q (try_catch k h)
  | SetTimeout ms q k => SetTimeout ms q (try_catch k h)
  end.

Declare Scope prog_scope.
Delimit Scope prog_scope with prog.
Bind Scope prog_scope with prog.

Notation "x <- p ;; q" := (bind p (fun x => q))
  (at level 100, p at next level, right associativity) : prog_scope.
Notation "p ;; q" := (bind p (fun _ => q))
  (at level 100, right associativity) : prog_scope.

Open Scope prog_scope.

Definition get : prog state := Get Ret.
Definition modify (f : state -> state) : prog unit := Modify f (Ret tt).
Definition resJson (status : Z) (body : json) : prog unit :=
  ResJson status body (Ret tt).
Definition mathRandom : prog Q := MathRandom Ret.
Definition dateNow : prog string := DateNow Ret.
Definition sleep (ms : Q) : prog unit := Sleep ms (Ret tt).
Definition spawn (p : prog unit) : prog unit := Spawn p (Ret tt).
Definition setTimeout (ms : Z) (p : prog unit) : prog unit :=
  SetTimeout ms p (Ret tt).

(** [await axios(...)]: resolves with the response data or rejects. *)
Definition axios {X : Type} (timeout : option Z) (r : request X) : prog X :=
  Await timeout r (fun x => match x with inl e => Throw e | inr v => Ret v end).

Definition liftE {A : Type} (x : error + A) : prog A :=
  match x with inl e => Throw e | inr a => Ret a end.

(** [for (const x of xs) { body x }] *)
Fixpoint forEach {A : Type} (xs : list A) (body : A -> prog unit) : prog unit :=
  match xs with
  | [] => Ret tt
  | x :: rest => body x ;; forEach rest body
  end.

(** ** Running one async function in isolation *)

(** The environment answers the i-th upstream call, the i-th
    [Math.random()] and the i-th [new Date()]. *)
Record env :=
  { upstream : nat -> forall X : Type, request X -> result X;
    random : nat -> Q;
    clock : nat -> string }.

Record machine :=
  { m_state : state;
    m_sent : bool;
    m_trace : list event;
    m_calls : nat;
    m_randoms : nat;
    m_ticks : nat;
    m_deadline_cleared : bool;
    m_timers : list (Z * prog unit) }.

Definition machine_of (s : state) : machine :=
  {| m_state := s; m_sent := false; m_trace := []; m_calls := 0;
     m_randoms := 0; m_ticks := 0; m_deadline_cleared := false;
     m_timers := [] |}.

Definition with_state (s : state) (m : machine) : machine :=
  {| m_state := s; m_sent := m_sent m; m_trace := m_trace m;
     m_calls := m_calls m; m_randoms := m_randoms m; m_ticks := m_ticks m;
     m_deadline_cleared := m_deadline_cleared m; m_timers := m_timers m |}.

Definition with_sent (b : bool) (m : machine) : machine :=
  {| m_state := m_state m; m_sent := b; m_trace := m_trace m;
     m_calls := m_calls m; m_randoms := m_randoms m; m_ticks := m_ticks m;
     m_deadline_cleared := m_deadline_cleared m; m_timers := m_timers m |}.

Definition emit (e : event) (m : machine) : machine :=
  {| m_state := m_state m; m_sent := m_sent m; m_trace := m_trace m ++ [e];
     m_calls := m_calls m; m_randoms := m_randoms m; m_ticks := m_ticks m;
     m_deadline_cleared := m_deadline_cleared m; m_timers := m_timers m |}.

Definition next_call (m : machine) : machine :=
  {| m_state := m_state m; m_sent := m_sent m; m_trace := m_trace m;
     m_calls := S (m_calls m); m_randoms := m_randoms m; m_ticks := m_ticks m;
     m_deadline_cleared := m_deadline_cleared m; m_timers := m_timers m |}.

Definition next_random (m : machine) : machine :=
  {| m_state := m_state m; m_sent := m_sent m; m_trace := m_trace m;
     m_calls := m_calls m; m_randoms := S (m_randoms m); m_ticks := m_ticks m;
     m_deadline_cleared := m_deadline_cleared m; m_timers := m_timers m |}.

Definition next_tick (m : machine) : machine :=
  {| m_state := m_state m; m_sent := m_sent m; m_trace := m_trace m;
     m_calls := m_calls m; m_randoms := m_randoms m; m_ticks := S (m_ticks m);
     m_deadline_cleared := m_deadline_cleared m; m_timers := m_timers m |}.

Definition clear_deadline (m : machine) : machine :=
  {| m_state := m_state m; m_sent := m_sent m; m_trace := m_trace m;
     m_calls := m_calls m; m_randoms := m_randoms m; m_ticks := m_ticks m;
     m_deadline_cleared := true; m_timers := m_timers m |}.

Definition add_timer (ms : Z) (p : prog unit) (m : machine) : machine :=
  {| m_state := m_state m; m_sent := m_sent m; m_trace := m_trace m;
     m_calls := m_calls m; m_randoms := m_randoms m; m_ticks := m_ticks m;
     m_deadline_cleared := m_deadline_cleared m;
     m_timers := m_timers m ++ [(ms, p)] |}.

(** [exec E p m] runs [p] to its end: each awaited call is answered at once by
    the environment, an async function started with [Spawn] is run to its end
    before its caller goes on, and callbacks passed to [setTimeout] are only
    collected in [m_timers]. *)
Fixpoint exec {A : Type} (E : env) (p : prog A) (m : machine)
  : result A * machine :=
  match p with
  | Ret a => (inr a, m)
  | Throw e => (inl e, m)
  | Get k => exec E (k (m_state m)) m
  | Modify f k => exec E k (with_state (f (m_state m)) m)
  | ReadSent k => exec E (k (m_sent m)) m
  | WriteSent b k => exec E k (with_sent b m)
  | ResJson st body k => exec E k (emit (EvReply st body) m)
  | ClearDeadline k => exec E k (clear_deadline m)
  | MathRandom k => exec E (k (random E (m_randoms m))) (next_random m)
  | DateNow k => exec E (k (clock E (m_ticks m))) (next_tick m)
  | Await t r k =>
      exec E (k (upstream E (m_calls m) r)) (next_call (emit (EvHttp t r) m))
  | Sleep ms k => exec E k (emit (EvSleep ms) m)
  | Spawn q k =>
      let '(o, m') := exec E q m in
      exec E k (match o with inl e => emit (EvUnhandled e) m' | inr _ => m' end)
  | SetTimeout ms q k => exec E k (add_timer ms q m)
  end.

(** ** The retry helper ([fetchWithRetry]) *)

(** The [while (attempts <= retries)] loop.  [fuel] bounds the number of
    iterations; [None] is the [undefined] the function returns when the loop
    is left without a [return].  The defaults filled into [options] (method,
    headers, basic authentication) travel inside the request [r]; the fixed
    per-call timeout of 10 seconds is the [timeout] of the awaited call. *)
Fixpoint fetchLoop {X : Type} (fuel : nat) (r : request X)
    (retries attempts : nat) (currentDelay : Q) : prog (option X) :=
  match fuel with
  | O => Ret None
  | S fuel' =>
      if (attempts <=? retries)%nat then
        Await (Some 10000%Z) r (fun x =>
          match x with
          | inr response => Ret (Some response)
          | inl error =>
              let attempts := S attempts in
              if (retries <? attempts)%nat then Throw error
              else
                let delayForThisAttempt := currentDelay in
                sleep delayForThisAttempt ;;
                x <- mathRandom ;;
                fetchLoop fuel' r retries attempts
                  (Qmin (currentDelay * 2) 10000 * (0.8 + x * 0.4))
          end)
      else Ret None
  end.

Definition fetchWithRetry {X : Type} (r : request X)
    (retries : nat) (initialDelay : Q) : prog (option X) :=
  fetchLoop (S retries) r retries 0 initialDelay.

(** [fetchWithRetry(url, { method: 'GET' })] followed by [.data]. *)
Definition fetchData {X : Type} (r : request X) : prog X :=
  response <- fetchWithRetry r 3 500 ;;
  match response with
  | Some data => Ret data
  | None => Throw (TypeError "Cannot read properties of undefined (reading 'data')")
  end.

(** The delay the loop holds in [currentDelay] when it is about to wait for
    the i-th time, given the successive values of [Math.random()]. *)
Fixpoint currentDelayAt (initialDelay : Q) (rand : nat -> Q) (i : nat) : Q :=
  match i with
  | O => initialDelay
  | S j => Qmin (currentDelayAt initialDelay rand j * 2) 10000 * (0.8 + rand j * 0.4)
  end.

(** The delay formula of the specification, for comparison. *)
Definition specDelay (baseDelay : Q) (i : nat) (rand : Q) : Q :=
  Qmin (baseDelay * (2 ^ Z.of_nat i)) 10000 * (0.8 + 0.4 * rand).

(** ** Inbound events and the platform *)

Record person := { p_email : option string; p_name : option string }.

Record conversationRef :=
  { cv_id : option string;
    cv_source_body : option string;
    cv_default_description : option string;
    cv_contact_email : option string }.

Record inputValues :=
  { iv_email : option string;
    iv_subject : option string;
    iv_description : option string;
    iv_status : option string;
    iv_priority : option string }.

(** [req.body] of [/api/initialize] and [/api/submit]. *)
Record body :=
  { component_id : option string;
    input_values : option inputValues;
    contact : option person;
    customer : option person;
    conversation : option conversationRef;
    conversation_id : option string }.

Definition contact_email (b : body) : option string :=
  match contact b with Some p => p_email p | None => None end.
Definition contact_name (b : body) : option string :=
  match contact b with Some p => p_name p | None => None end.
Definition customer_email (b : body) : option string :=
  match customer b with Some p => p_email p | None => None end.
Definition customer_name (b : body) : option string :=
  match customer b with Some p => p_name p | None => None end.

(** Configuration read from the process environment, and the library
    functions the code relies on: date formatting ([toLocaleString] with the
    [en-IN] options of the source), the construction of the transcript (a
    computation without upstream calls that yields the HTML and the
    attachment list, or throws), and what [extractInlineImages] takes from the
    regular expression engine, the [he] package and the URL parser. *)
Record platform :=
  { FRESHDESK_DOMAIN : string;
    INTERCOM_INBOX_URL : string;
    INTERCOM_WORKSPACE_ID : option string;
    toLocaleString : string -> string;
    formatTranscript : json -> error + (string * list attachment);
    imgTagRegex : string -> list (string * string);
    he_decode : string -> string;
    url_pathname : string -> option string;
    decodeURIComponent : string -> option string;
    filenameRegex : string -> option string }.

Coercion JStr : string >-> json.
Notation "k =: v" := (@pair string json k v) (at level 70, no associativity).

Definition submitAction : json := JObj ["type" =: "submit"].

Section Server.

Variable P : platform.

(** *** [buildRecentTicketsComponent] *)

Definition ticketComponents (ticket : ticket) : error + list json :=
  let formattedDate := toLocaleString P (t_created_at ticket) in
  match Js.split ", " formattedDate with
  | datePart :: timePart :: _ =>
      match Js.split " " timePart with
      | time :: period :: _ =>
          let formattedTime := time ++ " " ++ Js.toUpperCase period in
          let displaySubject :=
            if (40 <? String.length (t_subject ticket))%nat
            then Js.substring 0 40 (t_subject ticket) ++ "..."
            else t_subject ticket in
          inr [ JObj [ "type" =: "text";
                       "id" =: "ticket_" ++ pretty (t_id ticket);
                       "text" =: "[#" ++ pretty (t_id ticket) ++ " - " ++ displaySubject
                                 ++ "](" ++ FRESHDESK_DOMAIN P ++ "/a/tickets/"
                                 ++ pretty (t_id ticket) ++ ")";
                       "style" =: "muted" ];
                JObj [ "type" =: "text";
                       "id" =: "ticket_date_" ++ pretty (t_id ticket);
                       "text" =: datePart ++ ", " ++ formattedTime;
                       "style" =: "muted";
                       "size" =: "small" ];
                JObj [ "type" =: "spacer"; "size" =: "xs" ] ]
      | _ => inl (TypeError "Cannot read properties of undefined (reading 'toUpperCase')")
      end
  | _ => inl (TypeError "Cannot read properties of undefined (reading 'split')")
  end.

Fixpoint forEachTicket (f : ticket -> error + list json) (tickets : list ticket)
  : error + list json :=
  match tickets with
  | [] => inr []
  | t :: rest =>
      match f t with
      | inl e => inl e
      | inr cs =>
          match forEachTicket f rest with
          | inl e => inl e
          | inr more => inr (cs ++ more)%list
          end
      end
  end.

Definition loadMoreHomeButton : list json :=
  [ JObj [ "type" =: "spacer"; "size" =: "m" ];
    JObj [ "type" =: "button"; "id" =: "load_more_home_tickets";
           "label" =: "Load More Tickets"; "style" =: "secondary";
           "action" =: submitAction ] ].

Definition recentTicketsHeader : list json :=
  [ JObj [ "type" =: "spacer"; "size" =: "l" ];
    JObj [ "type" =: "text"; "text" =: "Recent Tickets"; "style" =: "header";
           "align" =: "left"; "color" =: "white" ];
    JObj [ "type" =: "spacer"; "size" =: "xs" ] ].

Definition buildRecentTicketsComponent (tickets : list ticket) (showLoadMore : bool)
  : error + list json :=
  match tickets with
  | _ :: _ =>
      match forEachTicket ticketComponents tickets with
      | inl e => inl e
      | inr rows =>
          inr (recentTicketsHeader ++ rows
               ++ (if showLoadMore then loadMoreHomeButton else []))%list
      end
  | [] =>
      inr (recentTicketsHeader
           ++ [ JObj [ "type" =: "text";
                       "text" =: "No recent tickets found for this user.";
                       "style" =: "muted" ] ])%list
  end.

Definition canvas (components : list json) : json :=
  JObj [ "canvas" =: JObj [ "content" =: JObj [ "components" =: JArr components ] ] ].

(** [fetchRecentTickets(email)] *)
Definition fetchRecentTickets (email : option string) : prog (list ticket) :=
  if negb (Js.truthy email) then Ret []
  else try_catch (axios None (GetTickets (default "" email) 5))
                 (fun _ => Ret []).

(** *** Pagination cursors *)

Definition updateHome (f : pageState -> pageState) : prog unit :=
  s <- get ;;
  match homePageState s with
  | Some hp => modify (set_homePageState (f hp))
  | None => Throw (TypeError "Cannot set properties of undefined")
  end.

Definition updateMerge (f : pageState -> pageState) : prog unit :=
  s <- get ;;
  match mergePageState s with
  | Some mp => modify (set_mergePageState (f mp))
  | None => Throw (TypeError "Cannot set properties of undefined")
  end.

Definition set_allTickets (l : list ticket) (p : pageState) : pageState :=
  {| customerEmail := customerEmail p; currentOffset := currentOffset p;
     allTickets := l; hasMore := hasMore p |}.

Definition set_currentOffset (n : nat) (p : pageState) : pageState :=
  {| customerEmail := customerEmail p; currentOffset := n;
     allTickets := allTickets p; hasMore := hasMore p |}.

Definition set_hasMore (b : bool) (p : pageState) : pageState :=
  {| customerEmail := customerEmail p; currentOffset := currentOffset p;
     allTickets := allTickets p; hasMore := b |}.


(** The cursor after a load-more event: [currentOffset = endIndex],
    [hasMore = endIndex < allTickets.length].  The handlers hold the cursor
    object of [app.locals] itself, so the two assignments update the
    stored cursor. *)
Definition nextPage (p : pageState) : pageState :=
  let startIndex := currentOffset p in
  let endIndex := Nat.min (startIndex + 5) (length (allTickets p)) in
  set_hasMore (endIndex <? length (allTickets p))%nat (set_currentOffset endIndex p).

(** *** [POST /api/initialize] *)

Definition homeButtons : list json :=
  [ JObj [ "type" =: "spacer"; "size" =: "m" ];
    JObj [ "type" =: "button"; "id" =: "create_ticket";
           "label" =: "Create a Freshdesk Ticket"; "style" =: "primary";
           "action" =: submitAction ];
    JObj [ "type" =: "spacer"; "size" =: "s" ];
    JObj [ "type" =: "button"; "id" =: "add_to_existing_ticket";
           "label" =: "Add to existing Freshdesk Ticket"; "style" =: "secondary";
           "action" =: submitAction ];
    JObj [ "type" =: "spacer"; "size" =: "l" ] ].

(** [customer.email || contact.email || (conversation.contact ?
    conversation.contact.email : '') || ''] *)
Definition initializeEmail (b : body) : string :=
  Js.orStr (Js.or (Js.or (customer_email b) (contact_email b))
              (match conversation b with
               | Some c => cv_contact_email c
               | None => None
               end)) "".

Definition initialize (b : body) : prog unit :=
  try_catch
    (let customerEmail := initializeEmail b in
     s <- get ;;
     (match ticketTracker s !! customerEmail with
      | Some ticketInfo =>
          if negb (String.eqb customerEmail "") && inProgress ticketInfo
          then modify (fun s => set_ticketTracker (delete customerEmail (ticketTracker s)) s)
          else Ret tt
      | None => Ret tt
      end) ;;
     let contactName := Js.orStr (Js.or (contact_name b) (customer_name b)) "" in
     let defaultTitle :=
       if negb (String.eqb contactName "")
       then "Conversation from " ++ contactName else "New Conversation" in
     let defaultDescription :=
       Js.orStr (Js.or (match conversation b with
                        | Some c => cv_default_description c
                        | None => None
                        end)
                       (match conversation b with
                        | Some c => cv_source_body c
                        | None => None
                        end)) "" in
     modify (set_intercomContext
               {| ctx_customerEmail := customerEmail;
                  ctx_defaultTitle := defaultTitle;
                  ctx_defaultDescription := defaultDescription |}) ;;
     modify (set_homePageState
               {| customerEmail := customerEmail; currentOffset := 0;
                  allTickets := []; hasMore := true |}) ;;
     allTickets <- axios None (GetTickets customerEmail 20) ;;
     updateHome (set_allTickets allTickets) ;;
     updateHome (set_currentOffset 5) ;;
     updateHome (set_hasMore (5 <? length allTickets)%nat) ;;
     let recentTickets := Js.slice 0 5 allTickets in
     s <- get ;;
     showLoadMore <- match homePageState s with
                     | Some hp => Ret (hasMore hp)
                     | None => Throw (TypeError "Cannot read properties of undefined")
                     end ;;
     recentTicketsComponent <- liftE (buildRecentTicketsComponent recentTickets showLoadMore) ;;
     resJson 200 (canvas (homeButtons ++ recentTicketsComponent)%list))
    (fun _ =>
       resJson 200 (canvas
         [ JObj [ "type" =: "text"; "id" =: "error";
                  "text" =: "Error loading Freshdesk integration. Please try again.";
                  "align" =: "center"; "style" =: "header" ] ])).

(** *** The Completion Notifier and the conversation helpers *)

Definition postIntercomNote (conversationId noteBody : string) : prog (option json) :=
  try_catch (data <- axios None (PostReply conversationId noteBody) ;; Ret (Some data))
            (fun _ => Ret None).

(** Returns [null] on any failure. *)
Definition fetchIntercomConversation (conversationId : string) : prog json :=
  try_catch (axios None (GetConversation conversationId)) (fun _ => Ret JNull).

Definition downloadFile (url : option string) (filename : option string)
  : prog (option string) :=
  try_catch
    (match url with
     | None => Throw (TypeError "Cannot read properties of undefined (reading 'replace')")
     | Some url =>
         let cleanUrl := Js.replaceAll "&amp;" "&" url in
         try_catch
           (data <- axios (Some 30000%Z) (Download cleanUrl true) ;; Ret (Some data))
           (fun fetchError =>
              let simplifiedUrl := hd "" (Js.split "?" cleanUrl) in
              data <- axios (Some 30000%Z) (Download simplifiedUrl false) ;;
              Ret (Some data))
     end)
    (fun _ => Ret None).

(** [extractInlineImages]: what it returns. *)
Record extraction :=
  { modifiedHtml : json;
    extractedImages : list (string * string);
    nextIndex : Z }.

(** The extension after the last dot of a file name, lower-cased, when the
    dot is not the last character; [extension] otherwise. *)
Definition extensionOf (originalFilename extension : string) : string :=
  match Js.lastIndexOf "." originalFilename with
  | Some dotIndex =>
      if (dotIndex <? String.length originalFilename - 1)%nat
      then Js.toLowerCase (Js.substringFrom (dotIndex + 1) originalFilename)
      else extension
  | None => extension
  end.

(** The [catch] branch: the file name is looked up in the URL text. *)
Definition fallbackExtension (originalUrl : string) : string :=
  match filenameRegex P originalUrl with
  | Some filename =>
      if String.eqb filename "" then "png" else extensionOf filename "png"
  | None => "png"
  end.

(** The extension of an image: from the last segment of the URL's path; the
    default is [png].  [new URL] and [decodeURIComponent] may throw, which
    leads to the [catch] branch. *)
Definition imageExtension (originalUrl : string) : string :=
  match url_pathname P originalUrl with
  | Some pathname =>
      let filenameFromPath :=
        Js.substringFrom
          (match Js.lastIndexOf "/" pathname with Some i => i + 1 | None => 0 end)%nat
          pathname in
      if String.eqb filenameFromPath "" then "png"
      else match decodeURIComponent P filenameFromPath with
           | Some originalFilename => extensionOf originalFilename "png"
           | None => fallbackExtension originalUrl
           end
  | None => fallbackExtension originalUrl
  end.

Definition sequentialFilename (currentIndex : Z) (extension : string) : string :=
  "image " ++ pretty currentIndex ++ "." ++ extension.

Definition placeholderText (filename : string) : string :=
  "[Inline image: " ++ filename ++ "]".

(** One iteration of [for (const imgMatch of matches)]; a match is the pair
    of the whole tag and of the captured [src]. *)
Definition extractImage (acc : string * list (string * string) * Z)
    (imgMatch : string * string) : string * list (string * string) * Z :=
  let modifiedHtml := fst (fst acc) in
  let extractedImages := snd (fst acc) in
  let currentIndex := snd acc in
  let originalUrl := he_decode P (snd imgMatch) in
  let extension := imageExtension originalUrl in
  let filename := sequentialFilename currentIndex extension in
  (Js.replace (fst imgMatch) (placeholderText filename) modifiedHtml,
   (extractedImages ++ [(originalUrl, filename)])%list,
   (currentIndex + 1)%Z).

Definition extractInlineImages (htmlContent : json) (startIndex : Z) : extraction :=
  match htmlContent with
  | JStr html =>
      if String.eqb html "" then
        {| modifiedHtml := JStr ""; extractedImages := []; nextIndex := startIndex |}
      else
        let done := fold_left extractImage (imgTagRegex P html) (html, [], startIndex) in
        {| modifiedHtml := JStr (fst (fst done));
           extractedImages := snd (fst done);
           nextIndex := snd done |}
  | other =>
      {| modifiedHtml := if falsy other then JStr "" else other;
         extractedImages := [];
         nextIndex := startIndex |}
  end.

(** [formatConversationAsHtml]: the guard on a missing conversation, then
    the construction of the transcript. *)
Definition formatConversationAsHtml (conversation : json)
  : prog (string * list attachment) :=
  if falsy conversation
  then Throw (Error "Invalid conversation data provided for transcript generation.")
  else liftE (formatTranscript P conversation).

Definition fileOf (a : attachment) (fileBuffer : string) : attachmentFile :=
  {| af_name := at_name a;
     af_content_type :=
       Js.orStr (at_content_type a) "application/octet-stream";
     af_buffer := fileBuffer |}.

(** The loop over the attachments: each download is guarded by its own
    [try]/[catch], and a file is appended when the download gave a
    buffer. *)
Fixpoint downloadAll (attachments : list attachment) (files : list attachmentFile)
  : prog (list attachmentFile) :=
  match attachments with
  | [] => Ret files
  | a :: rest =>
      files' <- try_catch
                  (fileBuffer <- downloadFile (at_url a) (at_name a) ;;
                   match fileBuffer with
                   | Some buf => Ret (files ++ [fileOf a buf])%list
                   | None => Ret files
                   end)
                  (fun _ => Ret files) ;;
      downloadAll rest files'
  end.

Definition set_attachments (files : option (list attachmentFile)) (t : ticket_data)
  : ticket_data :=
  {| td_email := td_email t; td_subject := td_subject t;
     td_description := td_description t; td_source := td_source t;
     td_status := td_status t; td_priority := td_priority t;
     td_attachments := files;
     td_intercom_conversation_id := td_intercom_conversation_id t |}.

Definition set_description (d : option string) (t : ticket_data) : ticket_data :=
  {| td_email := td_email t; td_subject := td_subject t;
     td_description := d; td_source := td_source t;
     td_status := td_status t; td_priority := td_priority t;
     td_attachments := td_attachments t;
     td_intercom_conversation_id := td_intercom_conversation_id t |}.

Definition newline : string := String (ascii_of_nat 10) EmptyString.
Definition dquote : string := String (ascii_of_nat 34) EmptyString.

(** [addConversationTranscriptToTicket].  The result is the pair of the
    object the function returns and of the caller's [ticketData] as it is
    when the function returns: [{...ticketData}] is a shallow copy, so an
    [_attachments] array that the caller's object already has is shared with
    the copy and receives the downloaded files too. *)
Definition addConversationTranscriptToTicket (ticketData : ticket_data)
    (conversationId : option string) : prog (ticket_data * ticket_data) :=
  if negb (Js.truthy conversationId) then Ret (ticketData, ticketData)
  else
    let conversationId := default "" conversationId in
    transcript <-
      try_catch
        (conversation <- fetchIntercomConversation conversationId ;;
         if falsy conversation then Ret None
         else
           x <- formatConversationAsHtml conversation ;;
           Ret (Some x))
        (fun _ => Ret None) ;;
    match transcript with
    | None => Ret (ticketData, ticketData)
    | Some (transcriptHtml, attachments) =>
        let intercomUrl :=
          INTERCOM_INBOX_URL P ++ "/conversation/" ++ conversationId in
        files <-
          match attachments with
          | [] => Ret (td_attachments ticketData)
          | _ :: _ =>
              fs <- downloadAll attachments (default [] (td_attachments ticketData)) ;;
              Ret (Some fs)
          end ;;
        let original :=
          match td_attachments ticketData with
          | Some _ => set_attachments files ticketData
          | None => ticketData
          end in
        try_catch
          (let updatedTicketData := set_attachments files ticketData in
           let urlSection :=
             newline ++ "      <div>Chat Transcript Added</div>" ++ newline
             ++ "      <div>Intercom Conversation URL: <a href=" ++ dquote ++ intercomUrl
             ++ dquote ++ " rel=" ++ dquote ++ "noreferrer" ++ dquote ++ ">"
             ++ intercomUrl ++ "</a></div>" ++ newline
             ++ "      <div>&nbsp;</div>" ++ newline ++ "    " in
           let newDescription :=
             if Js.truthy (td_description updatedTicketData)
                && Js.includes "Chat Transcript Added"
                     (default "" (td_description updatedTicketData))
             then urlSection ++ transcriptHtml
             else urlSection ++ Js.orStr (td_description updatedTicketData) ""
                  ++ newline ++ newline ++ transcriptHtml in
           Ret (set_description (Some newDescription) updatedTicketData, original))
          (fun _ => Ret (ticketData, original))
    end.

Definition createFreshdeskTicket (ticketData : ticket_data) : prog Z :=
  try_catch
    (let conversationId :=
       if Js.truthy (td_intercom_conversation_id ticketData)
       then td_intercom_conversation_id ticketData else None in
     let ticketData :=
       {| td_email := td_email ticketData; td_subject := td_subject ticketData;
          td_description := td_description ticketData;
          td_source := td_source ticketData; td_status := td_status ticketData;
          td_priority := td_priority ticketData;
          td_attachments := td_attachments ticketData;
          td_intercom_conversation_id :=
            if Js.truthy (td_intercom_conversation_id ticketData)
            then None else td_intercom_conversation_id ticketData |} in
     let ticketData :=
       match conversationId with
       | Some conversationId =>
           let intercomConversationUrl :=
             "https://app.intercom.com/a/inbox/"
             ++ Js.orStr (INTERCOM_WORKSPACE_ID P) "YOUR_WORKSPACE_ID"
             ++ "/inbox/conversation/" ++ conversationId in
           let urlSection :=
             "Chat Transcript Added" ++ newline ++ newline
             ++ "Intercom Conversation URL: " ++ intercomConversationUrl
             ++ newline ++ newline in
           if Js.truthy (td_description ticketData)
              && Js.includes "Chat Transcript Added" (default "" (td_description ticketData))
           then set_description
                  (Some (Js.replace "Chat Transcript Added" (Js.trim urlSection)
                           (default "" (td_description ticketData)))) ticketData
           else set_description
                  (Some (urlSection ++ Js.orStr (td_description ticketData) "")) ticketData
       | None => ticketData
       end in
     axios None (PostTicket ticketData))
    (fun error => Throw error).

(** *** [POST /api/submit] *)

(** The helper [sendResponse]: the latch [responseSent] guards [res.json]. *)
Definition sendResponse (responseData : json) : prog unit :=
  ReadSent (fun responseSent =>
    if negb responseSent
    then ResJson 200 responseData (WriteSent true (ClearDeadline (Ret tt)))
    else Ret tt).

Definition context_email (s : state) : option string :=
  match intercomContext s with
  | Some c => Some (ctx_customerEmail c)
  | None => None
  end.

Definition createTicketButton : json :=
  JObj [ "type" =: "button"; "id" =: "create_ticket";
         "label" =: "Create a Freshdesk Ticket"; "style" =: "primary";
         "action" =: submitAction ].

Definition noTickets : json :=
  JObj [ "type" =: "text"; "id" =: "no_tickets"; "text" =: "No recent tickets";
         "style" =: "muted" ].

(** The plain home view used by the deadline fallback and by the
    [refresh_status], [retry_button] and default branches. *)
Definition plainHome : list json :=
  [ createTicketButton;
    JObj [ "type" =: "divider" ];
    JObj [ "type" =: "text"; "id" =: "recent_tickets_header";
           "text" =: "Recent Tickets"; "style" =: "header" ] ].

Definition deadlineTicket (ticket : ticket) : list json :=
  let formattedTicketDate := toLocaleString P (t_created_at ticket) in
  let dateParts := Js.split ", " formattedTicketDate in
  let datePart := nth_error dateParts 0 in
  let formattedTime := nth_error dateParts 1 in
  let displaySubject :=
    if (40 <? String.length (t_subject ticket))%nat
    then Js.substring 0 40 (t_subject ticket) ++ "..."
    else t_subject ticket in
  [ JObj [ "type" =: "text";
           "id" =: "ticket_" ++ pretty (t_id ticket);
           "text" =: "[#" ++ pretty (t_id ticket) ++ " - " ++ displaySubject
                     ++ "](" ++ FRESHDESK_DOMAIN P ++ "/a/tickets/"
                     ++ pretty (t_id ticket) ++ ")";
           "style" =: "muted" ];
    JObj [ "type" =: "text";
           "id" =: "ticket_date_" ++ pretty (t_id ticket);
           "text" =: Js.show datePart ++ ", " ++ Js.show formattedTime;
           "style" =: "muted"; "size" =: "small" ];
    JObj [ "type" =: "spacer"; "size" =: "xs" ] ].

Definition inProgressMarker (now : string) : marker :=
  {| inProgress := true; mk_ticketId := None; mk_error := None; mk_at := now |}.

Definition trackerSet (email : string) (m : marker) : prog unit :=
  modify (fun s => set_ticketTracker (<[email := m]> (ticketTracker s)) s).

(** [req.body.component_id === id] *)
Definition clicked (b : body) (id : string) : bool :=
  match component_id b with
  | Some c => String.eqb c id
  | None => false
  end.

(** The callback of the 9-second timer. *)
Definition deadline (b : body) : prog unit :=
  ReadSent (fun responseSent =>
    if negb responseSent then
      WriteSent true
        (s <- get ;;
         let email := Js.or (Js.or (contact_email b) (customer_email b)) (context_email s) in
         (if Js.truthy email && clicked b "submit_ticket_button"
          then now <- dateNow ;; trackerSet (default "" email) (inProgressMarker now)
          else Ret tt) ;;
         components <-
           try_catch
             (if Js.truthy email then
                data <- axios None (GetTickets (default "" email) 5) ;;
                match data with
                | _ :: _ => Ret (plainHome ++ flat_map deadlineTicket data)%list
                | [] => Ret (plainHome ++ [noTickets])%list
                end
              else Ret (plainHome ++ [noTickets])%list)
             (fun _ => Ret (plainHome ++ [noTickets])%list) ;;
         ReadSent (fun responseSent =>
           if negb responseSent
           then ResJson 200 (canvas components) (WriteSent true (Ret tt))
           else Ret tt))
    else Ret tt).

(** **** [create_ticket] *)

Definition findChoices (name : string) (fields : list field) : prog (list choice) :=
  match List.find (fun f => String.eqb (f_name f) name) fields with
  | Some f => fetchData (GetTicketField (f_id f))
  | None => Ret []
  end.

Definition emailRules : json :=
  JObj [ "required" =: JObj [ "error" =: "Email is required" ];
         "format" =: JObj [ "type" =: "email_address";
                            "error" =: "Please enter a valid email address" ] ].

Definition defaultChoice (label : string) (choices : list choice) : option choice :=
  match List.find (fun c => String.eqb (Js.toLowerCase (ch_label c)) label) choices with
  | Some c => Some c
  | None => head choices
  end.

Definition statusId (c : choice) : string := "status_" ++ pretty (ch_id c).
Definition priorityId (c : choice) : string := "priority_" ++ pretty (ch_value c).

Definition statusOption (status : choice) : json :=
  JObj [ "type" =: "option"; "id" =: statusId status;
         "text" =: ch_label status; "value" =: pretty (ch_id status) ].

Definition priorityOption (priority : choice) : json :=
  JObj [ "type" =: "option"; "id" =: priorityId priority;
         "text" =: ch_label priority; "value" =: pretty (ch_value priority) ].

Definition formButtons (withDisabled : bool) : list json :=
  [ JObj ([ "type" =: "button"; "id" =: "submit_ticket_button";
            "label" =: "Create Ticket"; "style" =: "primary" ]
          ++ (if withDisabled then [ "disabled" =: JBool false ] else [])
          ++ [ "action" =: submitAction ])%list;
    JObj ([ "type" =: "button"; "id" =: "cancel";
            "label" =: "Cancel"; "style" =: "secondary" ]
          ++ (if withDisabled then [ "disabled" =: JBool false ] else [])
          ++ [ "action" =: submitAction ])%list ].

Definition retryPanel : json :=
  canvas
    [ JObj [ "type" =: "text"; "text" =: "Error"; "style" =: "header" ];
      JObj [ "type" =: "text";
             "text" =: "Failed to load Freshdesk data. Please try again in a moment.";
             "style" =: "error" ];
      JObj [ "type" =: "button"; "id" =: "retry_button"; "label" =: "Retry";
             "style" =: "primary"; "action" =: submitAction ] ].

Definition on_create_ticket (customerEmail defaultTitle : string) : prog unit :=
  fetched <-
    try_catch
      (mailboxes <- fetchData GetMailboxes ;;
       fields <- fetchData GetTicketFields ;;
       statusChoices <- findChoices "status" fields ;;
       priorityChoices <- findChoices "priority" fields ;;
       Ret (Some (mailboxes, statusChoices, priorityChoices)))
      (fun _ => ResJson 500 retryPanel (Ret None)) ;;
  match fetched with
  | None => Ret tt
  | Some (mailboxes, statusChoices, priorityChoices) =>
      let defaultDescription := "Chat Transcript Added" in
      let formComponents :=
        [ JObj [ "type" =: "text"; "text" =: "Create a new Freshdesk ticket";
                 "style" =: "header" ];
          JObj [ "type" =: "input"; "id" =: "email"; "label" =: "Email";
                 "value" =: customerEmail;
                 "placeholder" =: "Enter email address";
                 "validation_rules" =: emailRules ];
          JObj [ "type" =: "input"; "id" =: "subject"; "label" =: "Subject";
                 "value" =: Js.orStr (Some defaultTitle) "New Ticket" ];
          JObj [ "type" =: "textarea"; "id" =: "description";
                 "label" =: "Description"; "value" =: defaultDescription ] ] in
      let statusDropdown :=
        match statusChoices with
        | _ :: _ =>
            [ JObj [ "type" =: "dropdown"; "id" =: "status"; "label" =: "Status";
                     "value" =: match defaultChoice "open" statusChoices with
                                | Some c => statusId c
                                | None => ""
                                end;
                     "options" =: JArr (map statusOption statusChoices) ] ]
        | [] => []
        end in
      let priorityDropdown :=
        match priorityChoices with
        | _ :: _ =>
            [ JObj [ "type" =: "dropdown"; "id" =: "priority"; "label" =: "Priority";
                     "value" =: match defaultChoice "medium" priorityChoices with
                                | Some c => priorityId c
                                | None => ""
                                end;
                     "options" =: JArr (map priorityOption priorityChoices) ] ]
        | [] => []
        end in
      sendResponse
        (JObj [ "canvas" =: JObj [ "content" =: JObj
          [ "components" =: JArr (formComponents ++ statusDropdown ++ priorityDropdown
                                  ++ formButtons true)%list;
            "values" =: JObj
              [ "status" =: match defaultChoice "open" statusChoices with
                            | Some c => statusId c
                            | None => ""
                            end;
                "priority" =: match defaultChoice "medium" priorityChoices with
                              | Some c => priorityId c
                              | None => ""
                              end ];
            "validation_errors" =: JObj
              [ "email" =: if String.eqb customerEmail "" then "Email is required"
                           else "" ] ] ] ])
  end.

(** **** Home views *)

Definition mergeHomeButtons : list json :=
  [ createTicketButton;
    JObj [ "type" =: "spacer"; "size" =: "s" ];
    JObj [ "type" =: "button"; "id" =: "add_to_existing_ticket";
           "label" =: "Add to existing Freshdesk Ticket";
           "action" =: submitAction ] ].

Definition cachedFor (email : string) (s : state) : option pageState :=
  match homePageState s with
  | Some hp => if String.eqb (customerEmail hp) email then Some hp else None
  | None => None
  end.

(** "Use home page state if available, otherwise fetch fresh tickets". *)
Definition recentOrFetched (customerEmail : string) : prog (list json) :=
  s <- get ;;
  match cachedFor customerEmail s with
  | Some hp =>
      let displayedTickets := Js.slice 0 (currentOffset hp) (allTickets hp) in
      liftE (buildRecentTicketsComponent displayedTickets (hasMore hp))
  | None =>
      recentTickets <- fetchRecentTickets (Some customerEmail) ;;
      liftE (buildRecentTicketsComponent recentTickets false)
  end.

(** "If no home page state, create one". *)
Definition recentOrCreated (customerEmail : string) : prog (list json) :=
  s <- get ;;
  match cachedFor customerEmail s with
  | Some hp =>
      let displayedTickets := Js.slice 0 (currentOffset hp) (allTickets hp) in
      liftE (buildRecentTicketsComponent displayedTickets (hasMore hp))
  | None =>
      try_catch
        (allTickets <- axios None (GetTickets customerEmail 20) ;;
         modify (set_homePageState
                   {| customerEmail := customerEmail; currentOffset := 5;
                      allTickets := allTickets;
                      hasMore := (5 <? length allTickets)%nat |}) ;;
         let recentTickets := Js.slice 0 5 allTickets in
         liftE (buildRecentTicketsComponent recentTickets (5 <? length allTickets)%nat))
        (fun _ => liftE (buildRecentTicketsComponent [] false))
  end.

(** **** [add_to_existing_ticket] and the merge flow *)

Definition backToHomeButton : json :=
  JObj [ "type" =: "button"; "id" =: "back_to_home"; "label" =: "Back to Home";
         "style" =: "secondary"; "action" =: submitAction ].

Definition selectButtons (ticket : ticket) : list json :=
  [ JObj [ "type" =: "button";
           "id" =: "select_ticket_" ++ pretty (t_id ticket);
           "label" =: "#" ++ pretty (t_id ticket) ++ " - " ++ t_subject ticket;
           "style" =: "secondary"; "action" =: submitAction ];
    JObj [ "type" =: "spacer"; "size" =: "s" ] ].

Definition loadMoreTicketsButton : list json :=
  [ JObj [ "type" =: "spacer"; "size" =: "m" ];
    JObj [ "type" =: "button"; "id" =: "load_more_tickets";
           "label" =: "Load More Tickets"; "style" =: "secondary";
           "action" =: submitAction ] ].

Definition mergeList (displayed : list ticket) (more : bool) : list json :=
  ([ JObj [ "type" =: "text";
            "text" =: "Select a ticket to merge this conversation into:";
            "style" =: "header" ] ]
   ++ flat_map selectButtons displayed
   ++ (if more then loadMoreTicketsButton else [])
   ++ [ JObj [ "type" =: "spacer"; "size" =: "m" ]; backToHomeButton ])%list.

Definition cancelBackButton : json :=
  JObj [ "type" =: "button"; "id" =: "cancel"; "label" =: "Back to Home";
         "action" =: submitAction ].

Definition on_add_to_existing_ticket (b : body) : prog unit :=
  try_catch
    (s <- get ;;
     let customerEmail := Js.or (context_email s) (customer_email b) in
     if negb (Js.truthy customerEmail) then
       sendResponse (canvas
         [ JObj [ "type" =: "text";
                  "text" =: "Could not find customer email to fetch tickets.";
                  "align" =: "center" ];
           cancelBackButton ])
     else
       let customerEmail := default "" customerEmail in
       modify (set_mergePageState
                 {| customerEmail := customerEmail; currentOffset := 0;
                    allTickets := []; hasMore := true |}) ;;
       allTickets <- axios None (GetTickets customerEmail 20) ;;
       components <-
         match allTickets with
         | _ :: _ =>
             updateMerge (set_allTickets allTickets) ;;
             updateMerge (set_currentOffset 5) ;;
             updateMerge (set_hasMore (5 <? length allTickets)%nat) ;;
             let recentTickets := Js.slice 0 5 allTickets in
             s <- get ;;
             more <- match mergePageState s with
                     | Some mp => Ret (hasMore mp)
                     | None => Throw (TypeError "Cannot read properties of undefined")
                     end ;;
             Ret (mergeList recentTickets more)
         | [] =>
             Ret [ JObj [ "type" =: "text";
                          "text" =: "No existing tickets found for this user.";
                          "align" =: "center" ];
                   JObj [ "type" =: "spacer"; "size" =: "m" ];
                   backToHomeButton ]
         end ;;
       sendResponse (canvas components))
    (fun _ =>
       sendResponse (canvas
         [ JObj [ "type" =: "text";
                  "text" =: "Error fetching recent tickets. Please try again.";
                  "align" =: "center" ];
           cancelBackButton ])).

Definition on_select_ticket (componentId : string) : prog unit :=
  let ticketId := Js.replace "select_ticket_" "" componentId in
  modify (set_selectedTicketId ticketId) ;;
  sendResponse (canvas
    [ JObj [ "type" =: "text";
             "text" =: "Merge conversation with Ticket #" ++ ticketId ++ "?";
             "style" =: "header"; "align" =: "center" ];
      JObj [ "type" =: "button"; "id" =: "merge_ticket"; "label" =: "Merge";
             "style" =: "primary"; "action" =: submitAction ];
      JObj [ "type" =: "spacer"; "size" =: "s" ];
      JObj [ "type" =: "button"; "id" =: "cancel_merge"; "label" =: "Cancel";
             "style" =: "secondary"; "action" =: submitAction ] ]).

(** The first async function started by [merge_ticket]: the reply. *)
Definition mergeUiResponse (b : body) : prog unit :=
  try_catch
    (s <- get ;;
     let customerEmail :=
       Js.or (Js.or (contact_email b) (customer_email b)) (context_email s) in
     recent <- (if Js.truthy customerEmail
                then recentOrFetched (default "" customerEmail)
                else Ret []) ;;
     sendResponse (canvas (mergeHomeButtons ++ recent)%list))
    (fun _ => sendResponse (canvas mergeHomeButtons)).

Definition responseErrors (e : error) : string :=
  match e with
  | AxiosError (Some response) _ => hf_errors response
  | _ => error_message e
  end.

Definition responseMessage (e : error) : string :=
  match e with
  | AxiosError (Some response) m => Js.orStr (hf_message response) m
  | _ => error_message e
  end.

Fixpoint downloadForNote (attachments : list attachment) (files : list attachmentFile)
  : prog (list attachmentFile) :=
  match attachments with
  | [] => Ret files
  | a :: rest =>
      files' <- try_catch
                  (fileBuffer <- downloadFile (at_url a) (at_name a) ;;
                   match fileBuffer with
                   | Some buf => Ret (files ++ [fileOf a buf])%list
                   | None => Ret files
                   end)
                  (fun _ => Ret files) ;;
      downloadForNote rest files'
  end.

(** The second async function started by [merge_ticket]: the note on the
    Freshdesk ticket, then the Completion Notifier. *)
Definition mergeBackground (ticketId conversationId : string) : prog unit :=
  try_catch
    (conversation <- fetchIntercomConversation conversationId ;;
     x <- formatConversationAsHtml conversation ;;
     let conversationHtml := fst x in
     let attachments := snd x in
     let intercomUrl := INTERCOM_INBOX_URL P ++ "/conversation/" ++ conversationId in
     let noteBody :=
       "<div>Chat Transcript Added</div><br><div>Intercom Conversation URL: <a href="
       ++ dquote ++ intercomUrl ++ dquote ++ " target=" ++ dquote ++ "_blank"
       ++ dquote ++ ">" ++ intercomUrl ++ "</a></div><br>" ++ conversationHtml in
     (match attachments with
      | _ :: _ =>
          files <- downloadForNote attachments [] ;;
          axios None (PostTicketNote ticketId noteBody files)
      | [] => axios None (PostTicketNote ticketId noteBody [])
      end) ;;
     postIntercomNote conversationId
       ("Successfully added conversation as a note to Freshdesk ticket #"
        ++ ticketId ++ ".") ;;
     Ret tt)
    (fun error =>
       let errorMessage :=
         "Failed to add note to Freshdesk ticket. Details: " ++ responseErrors error in
       postIntercomNote conversationId errorMessage ;;
       Ret tt).

Definition on_merge_ticket (b : body) : prog unit :=
  s <- get ;;
  let ticketId := selectedTicketId s in
  match conversation b with
  | None => Throw (TypeError "Cannot read properties of undefined (reading 'id')")
  | Some c =>
      let conversationId := cv_id c in
      if negb (Js.truthy ticketId) || negb (Js.truthy conversationId) then
        sendResponse (canvas
          [ JObj [ "type" =: "text";
                   "text" =: "Error: Missing ticket or conversation ID.";
                   "style" =: "header" ];
            JObj [ "type" =: "button"; "id" =: "cancel"; "label" =: "Back to Home";
                   "style" =: "primary" ] ])
      else
        spawn (mergeUiResponse b) ;;
        spawn (mergeBackground (default "" ticketId) (default "" conversationId))
  end.

(** [cancel_merge] and [back_to_home] run the same code. *)
Definition on_back_to_home (b : body) : prog unit :=
  s <- get ;;
  let customerEmail :=
    Js.or (Js.or (context_email s) (contact_email b)) (customer_email b) in
  recent <- (if Js.truthy customerEmail
             then recentOrFetched (default "" customerEmail)
             else Ret []) ;;
  sendResponse (canvas (mergeHomeButtons ++ recent)%list).

(** **** Load more *)

Definition on_load_more_tickets : prog unit :=
  s <- get ;;
  match mergePageState s with
  | None =>
      sendResponse (canvas
        [ JObj [ "type" =: "text";
                 "text" =: "Error: Session expired. Please try again.";
                 "align" =: "center" ];
          JObj [ "type" =: "button"; "id" =: "back_to_home";
                 "label" =: "Back to Home"; "action" =: submitAction ] ])
  | Some mergeState =>
      try_catch
        (let mergeState := nextPage mergeState in
         modify (set_mergePageState mergeState) ;;
         let displayedTickets :=
           Js.slice 0 (currentOffset mergeState) (allTickets mergeState) in
         sendResponse (canvas (mergeList displayedTickets (hasMore mergeState))))
        (fun _ =>
           sendResponse (canvas
             [ JObj [ "type" =: "text";
                      "text" =: "Error fetching more tickets. Please try again.";
                      "align" =: "center" ];
               JObj [ "type" =: "button"; "id" =: "back_to_home";
                      "label" =: "Back to Home"; "action" =: submitAction ] ]))
  end.

Definition on_load_more_home_tickets : prog unit :=
  s <- get ;;
  match homePageState s with
  | None =>
      sendResponse (canvas
        [ JObj [ "type" =: "text";
                 "text" =: "Error: Session expired. Please try again.";
                 "align" =: "center" ];
          createTicketButton ])
  | Some homeState =>
      try_catch
        (let homeState := nextPage homeState in
         modify (set_homePageState homeState) ;;
         let displayedTickets :=
           Js.slice 0 (currentOffset homeState) (allTickets homeState) in
         recentTicketsComponent <-
           liftE (buildRecentTicketsComponent displayedTickets (hasMore homeState)) ;;
         sendResponse (canvas (homeButtons ++ recentTicketsComponent)%list))
        (fun _ =>
           sendResponse (canvas
             [ JObj [ "type" =: "text";
                      "text" =: "Error loading more tickets. Please try again.";
                      "align" =: "center" ];
               createTicketButton ]))
  end.

(** **** [submit_ticket_button] *)

Definition noInputs : inputValues :=
  {| iv_email := None; iv_subject := None; iv_description := None;
     iv_status := None; iv_priority := None |}.

(** [!value || value.trim() === ''] *)
Definition isEmpty (value : option string) : bool :=
  negb (Js.truthy value) || String.eqb (Js.trim (default "" value)) "".

(** The dropdown data fetched again for the error form; a failure keeps
    what was assigned before it. *)
Definition fetchFormChoices : prog (list choice * list choice) :=
  try_catch
    (mailboxes <- fetchData GetMailboxes ;;
     let activeMailboxes := filter (fun m => mb_active m) mailboxes in
     fields <- fetchData GetTicketFields ;;
     statusChoices <- findChoices "status" fields ;;
     try_catch
       (priorityChoices <- findChoices "priority" fields ;;
        Ret (statusChoices, priorityChoices))
       (fun _ => Ret (statusChoices, [])))
    (fun _ => Ret ([], [])).

Definition errorForm (inputValues : inputValues) (defaultTitle : string)
    (isEmailEmpty isSubjectEmpty : bool)
    (statusChoices priorityChoices : list choice) : list json :=
  ([ JObj [ "type" =: "text";
            "text" =: (if isEmailEmpty && isSubjectEmpty
                       then "Email and Subject are required"
                       else if isEmailEmpty then "Email is required"
                            else "Subject is required");
            "style" =: "error" ];
     JObj [ "type" =: "input"; "id" =: "email"; "label" =: "Email";
            "value" =: (if isEmailEmpty then JStr "" else jopt (iv_email inputValues));
            "placeholder" =: "Enter email address";
            "error" =: (if isEmailEmpty then JStr "Email is required" else JUndefined);
            "validation_rules" =: emailRules ];
     JObj [ "type" =: "input"; "id" =: "subject"; "label" =: "Subject";
            "value" =: (if isSubjectEmpty then JStr ""
                        else jopt (Js.or (Js.or (iv_subject inputValues)
                                            (Some defaultTitle))
                                     (Some "New Ticket")));
            "error" =: (if isSubjectEmpty then JStr "Subject is required"
                        else JUndefined);
            "validation_rules" =:
              JObj [ "required" =: JObj [ "error" =: "Subject is required" ] ] ];
     JObj [ "type" =: "textarea"; "id" =: "description"; "label" =: "Description";
            "value" =: Js.orStr (iv_description inputValues) "Chat Transcript Added" ] ]
   ++ match statusChoices with
      | _ :: _ =>
          [ JObj [ "type" =: "dropdown"; "id" =: "status"; "label" =: "Status";
                   "value" =: Js.orStr (iv_status inputValues) "status_2";
                   "options" =: JArr (map statusOption statusChoices) ] ]
      | [] => []
      end
   ++ match priorityChoices with
      | _ :: _ =>
          [ JObj [ "type" =: "dropdown"; "id" =: "priority"; "label" =: "Priority";
                   "value" =: Js.orStr (iv_priority inputValues) "priority_2";
                   "options" =: JArr (map priorityOption priorityChoices) ] ]
      | [] => []
      end
   ++ formButtons false)%list.

Definition validationPanel (inputValues : inputValues) (defaultTitle : string)
    (isEmailEmpty isSubjectEmpty : bool)
    (statusChoices priorityChoices : list choice) : json :=
  JObj [ "canvas" =: JObj [ "content" =: JObj
    [ "components" =: JArr (errorForm inputValues defaultTitle isEmailEmpty
                              isSubjectEmpty statusChoices priorityChoices);
      "validation_errors" =: JObj
        [ "email" =: (if isEmailEmpty then JStr "Email is required" else JUndefined);
          "subject" =: (if isSubjectEmpty then JStr "Subject is required"
                        else JUndefined) ] ] ] ].

(** "Additional validation check (this should never be reached ...)". *)
Definition secondErrorPanel (inputValues : inputValues)
    (subject description defaultTitle defaultDescription : string) : json :=
  JObj [ "canvas" =: JObj [ "content" =: JObj
    [ "components" =: JArr
        ([ JObj [ "type" =: "text"; "text" =: "Create a new Freshdesk ticket";
                  "style" =: "header" ];
           JObj [ "type" =: "input"; "id" =: "email"; "label" =: "Email";
                  "value" =: ""; "placeholder" =: "Enter email address";
                  "validation_rules" =: emailRules;
                  "error" =: "Email is required" ];
           JObj [ "type" =: "input"; "id" =: "subject"; "label" =: "Subject";
                  "value" =: Js.orStr (Js.or (Some subject) (Some defaultTitle))
                               "New Ticket" ];
           JObj [ "type" =: "textarea"; "id" =: "description";
                  "label" =: "Description";
                  "value" =: Js.orStr (Js.or (Some description)
                                         (Some defaultDescription)) "" ] ]
         ++ (if Js.truthy (iv_status inputValues)
             then [ JObj [ "type" =: "dropdown"; "id" =: "status";
                           "label" =: "Status";
                           "value" =: jopt (iv_status inputValues) ] ]
             else [])
         ++ (if Js.truthy (iv_priority inputValues)
             then [ JObj [ "type" =: "dropdown"; "id" =: "priority";
                           "label" =: "Priority";
                           "value" =: jopt (iv_priority inputValues) ] ]
             else [])
         ++ formButtons true)%list;
      "validation_errors" =: JObj [ "email" =: "Email is required" ] ] ] ].

Definition tryAgainButton : json :=
  JObj [ "type" =: "button"; "id" =: "try_again"; "label" =: "Try Again";
         "style" =: "primary"; "action" =: JObj [ "type" =: "reload" ] ].

Definition deferredHomeButtons : list json :=
  [ JObj [ "type" =: "spacer"; "size" =: "m" ];
    createTicketButton;
    JObj [ "type" =: "spacer"; "size" =: "s" ];
    JObj [ "type" =: "button"; "id" =: "add_to_existing_ticket";
           "label" =: "Add to existing Freshdesk Ticket";
           "action" =: submitAction ];
    JObj [ "type" =: "spacer"; "size" =: "l" ] ].

(** The background task of a ticket creation ([setTimeout(..., 0)]). *)
Definition createTicketBackground (email subject description status priority : string)
    (conversationId : option string) : prog unit :=
  try_catch
    (description <-
       (if Js.truthy conversationId then
          try_catch
            (conversation <- fetchIntercomConversation (default "" conversationId) ;;
             x <- formatConversationAsHtml conversation ;;
             let transcriptHtml := fst x in
             if negb (String.eqb transcriptHtml "")
             then Ret (description ++ newline ++ newline ++ transcriptHtml)
             else Ret description)
            (fun _ => Ret description)
        else Ret description) ;;
     let ticketData :=
       {| td_email := email; td_subject := subject;
          td_description := Some description; td_source := 2;
          td_status := if negb (String.eqb status "")
                       then Some (Js.parseInt status) else None;
          td_priority := if negb (String.eqb priority "")
                         then Some (Js.parseInt priority) else None;
          td_attachments := None;
          td_intercom_conversation_id := None |} in
     ticketDataWithTranscript <-
       (if Js.truthy conversationId
        then r <- addConversationTranscriptToTicket ticketData conversationId ;;
             Ret (fst r)
        else Ret ticketData) ;;
     ticketResponse <- createFreshdeskTicket ticketDataWithTranscript ;;
     let ticketUrl :=
       FRESHDESK_DOMAIN P ++ "/a/tickets/" ++ pretty ticketResponse in
     (if Js.truthy conversationId then
        let noteBody :=
          "Freshdesk Ticket creation successful." ++ newline
          ++ "Ticket URL: " ++ ticketUrl in
        postIntercomNote (default "" conversationId) noteBody ;; Ret tt
      else Ret tt) ;;
     if negb (String.eqb email "") then
       now <- dateNow ;;
       trackerSet email {| inProgress := false; mk_ticketId := Some ticketResponse;
                           mk_error := None; mk_at := now |}
     else Ret tt)
    (fun error =>
       (if Js.truthy conversationId then
          let errorMessage := responseMessage error in
          let noteBody :=
            "Freshdesk Ticket creation failed. Contact Admin." ++ newline
            ++ "Error: " ++ errorMessage in
          postIntercomNote (default "" conversationId) noteBody ;; Ret tt
        else Ret tt) ;;
       if negb (String.eqb email "") then
         now <- dateNow ;;
         trackerSet email {| inProgress := false; mk_ticketId := None;
                             mk_error := Some (responseMessage error); mk_at := now |}
       else Ret tt).

Definition on_submit_ticket_button (b : body) (defaultTitle defaultDescription : string)
  : prog unit :=
  let inputValues := default noInputs (input_values b) in
  let isEmailEmpty := isEmpty (iv_email inputValues) in
  let isSubjectEmpty := isEmpty (iv_subject inputValues) in
  if isEmailEmpty || isSubjectEmpty then
    choices <- fetchFormChoices ;;
    sendResponse (validationPanel inputValues defaultTitle isEmailEmpty isSubjectEmpty
                    (fst choices) (snd choices))
  else
    let email := Js.trim (default "" (iv_email inputValues)) in
    let subject := Js.trim (default "" (iv_subject inputValues)) in
    let description :=
      Js.orStr (Js.or (iv_description inputValues) (Some defaultDescription)) "" in
    let status :=
      if Js.truthy (iv_status inputValues)
      then Js.replace "status_" "" (default "" (iv_status inputValues)) else "" in
    let priority :=
      if Js.truthy (iv_priority inputValues)
      then Js.replace "priority_" "" (default "" (iv_priority inputValues)) else "" in
    if String.eqb email "" || String.eqb subject "" then
      sendResponse (secondErrorPanel inputValues subject description defaultTitle
                      defaultDescription)
    else if String.eqb subject "" || String.eqb description "" then
      sendResponse (canvas
        [ JObj [ "type" =: "text"; "text" =: "Please fill in all required fields";
                 "style" =: "error" ];
          tryAgainButton ])
    else
      let conversationId :=
        Js.or (conversation_id b)
              (match conversation b with Some c => cv_id c | None => None end) in
      try_catch (axios None (GetTickets email 5) ;; Ret tt) (fun _ => Ret tt) ;;
      s <- get ;;
      let customerEmail :=
        Js.or (Js.or (contact_email b) (customer_email b)) (context_email s) in
      recent <- (if Js.truthy customerEmail
                 then recentOrCreated (default "" customerEmail)
                 else Ret []) ;;
      (if negb (String.eqb email "")
       then now <- dateNow ;; trackerSet email (inProgressMarker now)
       else Ret tt) ;;
      sendResponse (canvas (deferredHomeButtons ++ recent)%list) ;;
      setTimeout 0 (createTicketBackground email subject description status priority
                      conversationId).

(** **** [cancel], and the branches that reply with [res.json] directly *)

Definition on_cancel (b : body) : prog unit :=
  try_catch
    (s <- get ;;
     let customerEmail :=
       Js.or (Js.or (contact_email b) (customer_email b)) (context_email s) in
     recent <- (if Js.truthy customerEmail
                then recentOrCreated (default "" customerEmail)
                else Ret []) ;;
     sendResponse (canvas (homeButtons ++ recent)%list))
    (fun _ =>
       sendResponse (canvas
         [ JObj [ "type" =: "button"; "id" =: "create_ticket";
                  "label" =: "Create a Ticket"; "style" =: "primary";
                  "action" =: submitAction ];
           JObj [ "type" =: "divider" ];
           JObj [ "type" =: "text"; "id" =: "recent_tickets_header";
                  "text" =: "Recent Tickets"; "style" =: "header" ];
           noTickets ])).

Definition on_default : prog unit :=
  resJson 200 (canvas (plainHome ++ [noTickets])%list).

(** **** The handler *)

(** [req.body.contact?.email || req.body.customer?.email || ''] *)
Definition submitEmail (b : body) : string :=
  Js.orStr (Js.or (contact_email b) (customer_email b)) "".
Definition submitHandler (b : body) : prog unit :=
  try_catch
    (let contactName := Js.orStr (Js.or (contact_name b) (customer_name b)) "Contact" in
     let defaultTitle := "Conversation from " ++ contactName in
     let customerEmail := submitEmail b in
     let defaultDescription :=
       Js.orStr (match conversation b with
                 | Some c => cv_source_body c
                 | None => None
                 end) "" in
     modify (set_intercomContext
               {| ctx_customerEmail := customerEmail;
                  ctx_defaultTitle := defaultTitle;
                  ctx_defaultDescription := defaultDescription |}) ;;
     if clicked b "create_ticket" then on_create_ticket customerEmail defaultTitle
     else if clicked b "add_to_existing_ticket" then on_add_to_existing_ticket b
     else if Js.truthy (component_id b)
             && Js.startsWith "select_ticket_" (default "" (component_id b))
          then on_select_ticket (default "" (component_id b))
     else if clicked b "merge_ticket" then on_merge_ticket b
     else if clicked b "cancel_merge" then on_back_to_home b
     else if clicked b "back_to_home" then on_back_to_home b
     else if clicked b "load_more_tickets" then on_load_more_tickets
     else if clicked b "load_more_home_tickets" then on_load_more_home_tickets
     else if clicked b "submit_ticket_button"
          then on_submit_ticket_button b defaultTitle defaultDescription
     else if clicked b "cancel" then on_cancel b
     else if clicked b "refresh_status" || clicked b "retry_button" then on_default
     else on_default)
    (fun error =>
       sendResponse (canvas
         [ JObj [ "type" =: "text";
                  "text" =: "An error occurred: " ++ error_message error;
                  "style" =: "error" ];
           tryAgainButton;
           JObj [ "type" =: "divider" ];
           JObj [ "type" =: "text"; "id" =: "recent_tickets_header";
                  "text" =: "Recent Tickets"; "style" =: "header" ];
           noTickets ])).

End Server.

(** ** The event loop *)

(** Work that waits for something outside the running code: an upstream
    call, a [sleep], or a callback passed to [setTimeout(..., 0)]. *)
Inductive pending : Type :=
| PAwait {A X : Type} (r : request X) (k : result X -> prog A)
| PSleep {A : Type} (k : prog A)
| PTimer (p : prog unit).

(** One request being served: the machine, the pending work, and the
    callback of the 9-second timer while it has neither fired nor been
    cleared. *)
Record loop :=
  { l_machine : machine;
    l_pending : list pending;
    l_deadline : option (prog unit) }.

Definition on_machine (f : machine -> machine) (L : loop) : loop :=
  {| l_machine := f (l_machine L); l_pending := l_pending L;
     l_deadline := l_deadline L |}.

Definition suspend (w : pending) (L : loop) : loop :=
  {| l_machine := l_machine L; l_pending := l_pending L ++ [w];
     l_deadline := l_deadline L |}.

Definition drop_pending (i : nat) (L : loop) : loop :=
  {| l_machine := l_machine L;
     l_pending := firstn i (l_pending L) ++ skipn (S i) (l_pending L);
     l_deadline := l_deadline L |}.

Definition drop_deadline (L : loop) : loop :=
  {| l_machine := l_machine L; l_pending := l_pending L; l_deadline := None |}.

(** Runs a task until it ends or suspends.  An async function started with
    [Spawn] runs up to its own first suspension before its caller goes on. *)
Fixpoint run_task {A : Type} (E : env) (p : prog A) (L : loop) : loop :=
  match p with
  | Ret _ => L
  | Throw e => on_machine (emit (EvUnhandled e)) L
  | Get k => run_task E (k (m_state (l_machine L))) L
  | Modify f k => run_task E k (on_machine (fun m => with_state (f (m_state m)) m) L)
  | ReadSent k => run_task E (k (m_sent (l_machine L))) L
  | WriteSent b k => run_task E k (on_machine (with_sent b) L)
  | ResJson st body k => run_task E k (on_machine (emit (EvReply st body)) L)
  | ClearDeadline k => run_task E k (on_machine clear_deadline L)
  | MathRandom k =>
      run_task E (k (random E (m_randoms (l_machine L)))) (on_machine next_random L)
  | DateNow k =>
      run_task E (k (clock E (m_ticks (l_machine L)))) (on_machine next_tick L)
  | Await t r k => suspend (PAwait r k) (on_machine (emit (EvHttp t r)) L)
  | Sleep ms k => suspend (PSleep k) (on_machine (emit (EvSleep ms)) L)
  | Spawn q k => run_task E k (run_task E q L)
  | SetTimeout ms q k => run_task E k (suspend (PTimer q) L)
  end.

(** What the outside world does next: the i-th pending piece of work
    completes (an upstream call with the given answer), or the 9-second timer
    fires. *)
Inductive occurrence : Type :=
| Settle (i : nat) (answer : forall X : Type, request X -> result X)
| Deadline.

Definition step (E : env) (c : occurrence) (L : loop) : loop :=
  match c with
  | Deadline =>
      match l_deadline L with
      | Some p =>
          if m_deadline_cleared (l_machine L) then L
          else run_task E p (on_machine (emit EvDeadline) (drop_deadline L))
      | None => L
      end
  | Settle i answer =>
      match nth_error (l_pending L) i with
      | Some (PAwait r k) => run_task E (k (answer _ r)) (drop_pending i L)
      | Some (PSleep k) => run_task E k (drop_pending i L)
      | Some (PTimer p) => run_task E p (drop_pending i L)
      | None => L
      end
  end.

Definition run_schedule (E : env) (schedule : list occurrence) (L : loop) : loop :=
  fold_left (fun L c => step E c L) schedule L.

(** Nothing is left to happen. *)
Definition quiescent (L : loop) : bool :=
  match l_pending L with
  | [] => match l_deadline L with
          | Some _ => m_deadline_cleared (l_machine L)
          | None => true
          end
  | _ :: _ => false
  end.

(** [app.post('/api/submit', ...)]: the latch starts at [false], the
    9-second timer is armed, and the handler runs up to its first
    suspension. *)
Definition startSubmit (P : platform) (E : env) (b : body) (s : state) : loop :=
  run_task E (submitHandler P b)
    {| l_machine := machine_of s; l_pending := [];
       l_deadline := Some (deadline P b) |}.

(** ** Measures and scenarios used in the statements *)

(** Attempts, retries and sleeps of a run, relative to the machine it
    started from. *)
Definition attemptsMade (m m' : machine) : nat := m_calls m' - m_calls m.
Definition delaysWaited (m m' : machine) : list Q :=
  skipn (length (sleeps (m_trace m))) (sleeps (m_trace m')).

Definition httpError (status : Z) : error :=
  AxiosError (Some {| hf_status := status; hf_message := None; hf_errors := "[]" |})
             ("Request failed with status code " ++ pretty status).

Definition oneMailbox : list mailbox := [ {| mb_id := 1; mb_active := true |} ].

(** An upstream whose first calls fail with the given errors and which then
    serves the mailbox list. *)
Definition failingFirst (failures : list error) (i : nat) (X : Type) (r : request X)
  : result X :=
  match nth_error failures i with
  | Some e => inl e
  | None =>
      match r in request T return result T with
      | GetMailboxes => inr oneMailbox
      | _ => inl (httpError 400)
      end
  end.

Definition envFailingFirst (failures : list error) (rand : Q) : env :=
  {| upstream := failingFirst failures; random := fun _ => rand;
     clock := fun _ => "2024-01-01T00:00:00.000Z" |}.


Definition newRequest (m : machine) : machine :=
  {| m_state := m_state m; m_sent := false; m_trace := []; m_calls := m_calls m;
     m_randoms := m_randoms m; m_ticks := m_ticks m; m_deadline_cleared := false;
     m_timers := [] |}.

Definition cursor (email : string) (offset : nat) (tickets : list ticket) (more : bool)
  : pageState :=
  {| customerEmail := email; currentOffset := offset; allTickets := tickets;
     hasMore := more |}.

(** A load-more event without a cursor: the "session expired" panels. *)
Definition sessionExpiredMerge : json :=
  canvas
    [ JObj [ "type" =: "text"; "text" =: "Error: Session expired. Please try again.";
             "align" =: "center" ];
      JObj [ "type" =: "button"; "id" =: "back_to_home"; "label" =: "Back to Home";
             "action" =: submitAction ] ].

Definition sessionExpiredHome : json :=
  canvas
    [ JObj [ "type" =: "text"; "text" =: "Error: Session expired. Please try again.";
             "align" =: "center" ];
      JObj [ "type" =: "button"; "id" =: "create_ticket";
             "label" =: "Create a Freshdesk Ticket"; "style" =: "primary";
             "action" =: submitAction ] ].

Definition serve (P : platform) (E : env) (b : body) (m : machine) : machine :=
  snd (exec E (submitHandler P b) (newRequest m)).

Definition homeCursor (m : machine) : option pageState := homePageState (m_state m).
Definition mergeCursor (m : machine) : option pageState := mergePageState (m_state m).

Definition panelComponents (panel : json) : list json :=
  match jget "components" (jget "content" (jget "canvas" panel)) with
  | JArr cs => cs
  | _ => []
  end.

Definition isButton (c : json) : bool :=
  match jget "type" c with
  | JStr t => String.eqb t "button"
  | _ => false
  end.

Definition buttonIds (panel : json) : list json :=
  map (jget "id") (filter isButton (panelComponents panel)).

Definition textOf (c : json) : string :=
  match jget "text" c with JStr t => t | _ => "" end.

(** Some text element of the panel contains [needle]. *)
Definition mentions (needle : string) (panel : json) : bool :=
  existsb (fun c => Js.includes needle (textOf c)) (panelComponents panel).

Definition demo : platform :=
  {| FRESHDESK_DOMAIN := "https://acme.freshdesk.com";
     INTERCOM_INBOX_URL := "https://app.intercom.com/a/inbox/acme";
     INTERCOM_WORKSPACE_ID := Some "acme";
     toLocaleString := fun _ => "01/02/2024, 03:04 pm";
     formatTranscript := fun _ => inr ("<html><body></body></html>", []);
     imgTagRegex := fun _ => [];
     he_decode := fun s => s;
     url_pathname := fun _ => None;
     decodeURIComponent := fun s => Some s;
     filenameRegex := fun _ => None |}.

Definition sampleTicket (i : nat) : ticket :=
  {| t_id := Z.of_nat i; t_subject := "Printer on fire";
     t_created_at := "2024-02-01T09:34:00Z" |}.

Definition sampleTickets (n : nat) : list ticket := map sampleTicket (seq 1 n).

(** An upstream that has [n] tickets for every customer and fails every other
    call with a 500. *)
Definition ticketsUpstream (n : nat) (i : nat) (X : Type) (r : request X) : result X :=
  match r in request T return result T with
  | GetTickets _ _ => inr (sampleTickets n)
  | _ => inl (httpError 500)
  end.

Definition envTickets (n : nat) : env :=
  {| upstream := ticketsUpstream n; random := fun _ => 0.5%Q;
     clock := fun _ => "2024-02-01T10:00:00.000Z" |}.

Definition customerBody (id : option string) : body :=
  {| component_id := id; input_values := None; contact := None;
     customer := Some {| p_email := Some "ada@example.com"; p_name := Some "Ada" |};
     conversation := Some {| cv_id := Some "c-1"; cv_source_body := None;
                             cv_default_description := None; cv_contact_email := None |};
     conversation_id := None |}.

(** Upstream reads and waiting: what a handler may do without creating or
    changing anything upstream. *)
Definition readOnlyEvent (e : event) : bool :=
  match e with
  | EvHttp _ GetMailboxes => true
  | EvHttp _ GetTicketFields => true
  | EvHttp _ (GetTicketField _) => true
  | EvHttp _ (GetTickets _ _) => true
  | EvSleep _ => true
  | _ => false
  end.

(** [m'] differs from [m] only by upstream reads and waits: same server
    state, same latch, no timer set or cleared, no reply. *)
Definition lookupOnly (m m' : machine) : Prop :=
  m_state m' = m_state m
  /\ m_sent m' = m_sent m
  /\ m_timers m' = m_timers m
  /\ m_deadline_cleared m' = m_deadline_cleared m
  /\ exists t, m_trace m' = (m_trace m ++ t)%list /\ forallb readOnlyEvent t = true.







(** The names [extractInlineImages] gives to the images of successive
    matches, counting from [k]. *)
Fixpoint namesFrom (P : platform) (k : Z) (matches : list (string * string))
  : list string :=
  match matches with
  | [] => []
  | imgMatch :: rest =>
      sequentialFilename k (imageExtension P (he_decode P (snd imgMatch)))
      :: namesFrom P (k + 1) rest
  end.

Definition sampleTicketData : ticket_data :=
  {| td_email := "ada@example.com"; td_subject := "Printer on fire";
     td_description := Some "Chat Transcript Added"; td_source := 2;
     td_status := Some (Some 2%Z); td_priority := Some (Some 1%Z);
     td_attachments := None; td_intercom_conversation_id := None |}.

(** A message with one image whose file name ends in [.$&]. *)
Definition dollarUrl : string := "http://h/a.$&".
Definition dollarTag : string :=
  "<img src=" ++ dquote ++ dollarUrl ++ dquote ++ ">".

(** What the JavaScript engine, the URL parser and [he] give on that message:
    the regular expression matches the whole tag and captures the URL, the
    URL has the path [/a.$&], and there is no HTML entity and no percent
    escape to decode. *)
Definition dollarPlatform : platform :=
  {| FRESHDESK_DOMAIN := "https://acme.freshdesk.com";
     INTERCOM_INBOX_URL := "https://app.intercom.com/a/inbox/acme";
     INTERCOM_WORKSPACE_ID := Some "acme";
     toLocaleString := fun _ => "01/02/2024, 03:04 pm";
     formatTranscript := fun _ => inr ("<html><body></body></html>", []);
     imgTagRegex := fun html =>
       if String.eqb html dollarTag then [(dollarTag, dollarUrl)] else [];
     he_decode := fun s => s;
     url_pathname := fun url =>
       if String.eqb url dollarUrl then Some "/a.$&" else None;
     decodeURIComponent := fun s => Some s;
     filenameRegex := fun _ => None |}.



(** *** Observations on event-loop runs *)

Definition is_deadline (e : event) : bool :=
  match e with EvDeadline => true | _ => false end.





Definition is_note_request {X : Type} (r : request X) : bool :=
  match r with PostReply _ _ => true | _ => false end.

(** [calm notes p]: [p] and the tasks it starts never write the latch
    [responseSent]; when [notes] is [false] they never call the Completion
    Notifier either. *)
Fixpoint calm {A : Type} (notes : bool) (p : prog A) : Prop :=
  match p with
  | Ret _ => True
  | Throw _ => True
  | Get k => forall s, calm notes (k s)
  | Modify _ k => calm notes k
  | ReadSent k => forall b, calm notes (k b)
  | WriteSent _ _ => False
  | ResJson _ _ k => calm notes k
  | ClearDeadline k => calm notes k
  | MathRandom k => forall x, calm notes (k x)
  | DateNow k => forall x, calm notes (k x)
  | Await _ r k => (notes = false -> is_note_request r = false)
                   /\ forall x, calm notes (k x)
  | Sleep _ k => calm notes k
  | Spawn q k => calm notes q /\ calm notes k
  | SetTimeout _ q k => calm notes q /\ calm notes k
  end.






(** The answer of an upstream that has [n] tickets for every customer. *)
Definition answerTickets (n : nat) : forall X : Type, request X -> result X :=
  ticketsUpstream n 0.





Definition fresh (L : loop) : Prop :=
  m_sent (l_machine L) = false /\ m_trace (l_machine L) = [].

(** An upstream where every call succeeds. *)
Definition answerOk (X : Type) (r : request X) : result X :=
  match r in request T return result T with
  | GetTickets _ _ => inr (sampleTickets 3)
  | GetMailboxes => inr []
  | GetTicketFields => inr []
  | GetTicketField _ => inr []
  | GetConversation _ => inr (JObj [ "id" =: "c-1" ])
  | PostReply _ _ => inr JNull
  | PostTicketNote _ _ _ => inr tt
  | PostTicket _ => inr 42%Z
  | Download _ _ => inr ""%string
  end.



(** The trace of a [POST /api/submit] after the given occurrences. *)
Definition submitTrace (P : platform) (E : env) (b : body) (s : state)
    (schedule : list occurrence) : list event :=
  m_trace (l_machine (run_schedule E schedule (startSubmit P E b s))).

(** [always p s l t Q]: started with the server state [s], the latch [l] and
    the trace [t], every isolated run of [p] ends in a result, a state, a
    latch and a trace that satisfy [Q], whatever the upstream calls,
    [Math.random()] and the clock answer. *)
Fixpoint always {A : Type} (p : prog A) (s : state) (l : bool) (t : list event)
    (Q : result A -> state -> bool -> list event -> Prop) : Prop :=
  match p with
  | Ret a => Q (inr a) s l t
  | Throw e => Q (inl e) s l t
  | Get k => always (k s) s l t Q
  | Modify f k => always k (f s) l t Q
  | ReadSent k => always (k l) s l t Q
  | WriteSent b k => always k s b t Q
  | ResJson st body k => always k s l (t ++ [EvReply st body]) Q
  | ClearDeadline k => always k s l t Q
  | MathRandom k => forall x, always (k x) s l t Q
  | DateNow k => forall x, always (k x) s l t Q
  | Await tm r k => forall x, always (k x) s l (t ++ [EvHttp tm r]) Q
  | Sleep ms k => always k s l (t ++ [EvSleep ms]) Q
  | Spawn q k =>
      always q s l t (fun o s' l' t' =>
        always k s' l' (match o with
                        | inl e => t' ++ [EvUnhandled e]
                        | inr _ => t'
                        end) Q)
  | SetTimeout _ _ k => always k s l t Q
  end.

(** Upstream calls that only read: no note on an Intercom conversation, no
    ticket and no note on a ticket. *)
Definition readRequest (X : Type) (r : request X) : bool :=
  match r with
  | PostReply _ _ => false
  | PostTicketNote _ _ _ => false
  | PostTicket _ => false
  | _ => true
  end.

Definition anyRequest (X : Type) (r : request X) : bool := true.

(** Events of a program that neither replies nor touches the latch, and
    makes only the upstream calls that [ok] allows. *)
Definition backstage (ok : forall X : Type, request X -> bool) (e : event) : bool :=
  match e with
  | EvHttp _ r => ok _ r
  | EvSleep _ => true
  | EvUnhandled _ => true
  | EvReply _ _ => false
  | EvDeadline => false
  end.

(** [discreet ok writes p]: [p] and the async functions it starts never
    reply and never touch the latch or the timer; they make only the upstream
    calls that [ok] allows, and change the server state only if [writes]. *)
Fixpoint discreet {A : Type} (ok : forall X : Type, request X -> bool) (writes : bool)
    (p : prog A) : Prop :=
  match p with
  | Ret _ => True
  | Throw _ => True
  | Get k => forall s, discreet ok writes (k s)
  | Modify _ k => writes = true /\ discreet ok writes k
  | ReadSent k => forall b, discreet ok writes (k b)
  | WriteSent _ _ => False
  | ResJson _ _ _ => False
  | ClearDeadline _ => False
  | MathRandom k => forall x, discreet ok writes (k x)
  | DateNow k => forall x, discreet ok writes (k x)
  | Await _ r k => ok _ r = true /\ forall x, discreet ok writes (k x)
  | Sleep _ k => discreet ok writes k
  | Spawn q k => discreet ok writes q /\ discreet ok writes k
  | SetTimeout _ q k => discreet ok writes q /\ discreet ok writes k
  end.

(** One reply so far, with status 200. *)
Definition repliedOnce (t : list event) : Prop :=
  exists body : json, replies t = [(200%Z, body)].

(** What a branch of [/api/submit] leaves behind: one reply; or, when it
    throws, either nothing sent and the latch open, or one reply sent through
    [sendResponse]. *)
Definition branchDone (status : Z) (r : result unit) (l : bool) (t : list event) : Prop :=
  match r with
  | inr _ => exists body : json, replies t = [(status, body)]
  | inl _ => (l = false /\ replies t = []) \/ (l = true /\ repliedOnce t)
  end.





Definition is_ticket_note (e : event) : bool :=
  match e with EvHttp _ (PostTicketNote _ _ _) => true | _ => false end.

(** How often a run has called the Completion Notifier, created a ticket,
    put a note on a ticket. *)
Definition noteCalls (t : list event) : nat := length (List.filter is_note t).
Definition ticketCalls (t : list event) : nat :=
  length (List.filter is_ticket_creation t).
Definition ticketNoteCalls (t : list event) : nat :=
  length (List.filter is_ticket_note t).

(** A finished entry of the ticket tracker: the id of the ticket, or the error
    message. *)
Definition finished (mk : marker) : Prop :=
  inProgress mk = false
  /\ ((exists ticketId, mk_ticketId mk = Some ticketId /\ mk_error mk = None)
      \/ (exists message, mk_error mk = Some message /\ mk_ticketId mk = None)).

(** What the background task of a ticket creation leaves behind. *)
Definition ticketTaskDone (email : string) (conversationId : option string)
    (s : state) (l : bool) (t : list event)
    (r : result unit) (s' : state) (l' : bool) (t' : list event) : Prop :=
  r = inr tt
  /\ l' = l
  /\ replies t' = replies t
  /\ noteCalls t' = (noteCalls t + (if Js.truthy conversationId then 1 else 0))%nat
  /\ (ticketCalls t' <= ticketCalls t + 1)%nat
  /\ (if String.eqb email "" then s' = s
      else exists mk, finished mk
                      /\ s' = set_ticketTracker (<[email := mk]> (ticketTracker s)) s).

(** What the background task of a merge leaves behind. *)
Definition mergeTaskDone (conversationId : string) (s : state) (l : bool)
    (t : list event) (r : result unit) (s' : state) (l' : bool) (t' : list event)
  : Prop :=
  r = inr tt /\ s' = s /\ l' = l
  /\ exists (before : list event) (noteBody : string),
       t' = (t ++ before ++ [EvHttp None (PostReply conversationId noteBody)])%list
       /\ replies before = [] /\ noteCalls before = 0%nat /\ ticketCalls before = 0%nat
       /\ (ticketNoteCalls before <= 1)%nat
       /\ (Js.startsWith "Successfully added conversation as a note" noteBody = true
           -> ticketNoteCalls before = 1%nat).

(** [{ id: ticket.id, subject: ticket.subject, created_at: ticket.created_at }] *)
Definition ticketJson (t : ticket) : json :=
  JObj [ "id" =: JNum (t_id t); "subject" =: t_subject t;
         "created_at" =: t_created_at t ].

(** [GET /api/freshdesk/recent-tickets]; [queryEmail] is [req.query.email]. *)
Definition recentTicketsEndpoint (queryEmail : option string) : prog unit :=
  try_catch
    (s <- get ;;
     let customerEmail := Js.or queryEmail (context_email s) in
     if negb (Js.truthy customerEmail) then
       resJson 400 (JObj [ "error" =: "Customer email is required" ])
     else
       data <- fetchData (GetTickets (default "" customerEmail) 5) ;;
       resJson 200 (JArr (map ticketJson data)))
    (fun error =>
       resJson 500
         (JObj [ "error" =: "Failed to fetch recent tickets from Freshdesk";
                 "details" =: error_message error ])).

(** [{ id: choice.id, label: choice.label }] *)
Definition statusJson (c : choice) : json :=
  JObj [ "id" =: JNum (ch_id c); "label" =: ch_label c ].

(** [GET /api/freshdesk/statuses] *)
Definition statusesEndpoint : prog unit :=
  try_catch
    (fields <- fetchData GetTicketFields ;;
     match List.find (fun f => String.eqb (f_name f) "status") fields with
     | None => Throw (Error "Status field not found")
     | Some statusField =>
         choices <- fetchData (GetTicketField (f_id statusField)) ;;
         resJson 200 (JArr (map statusJson choices))
     end)
    (fun _ =>
       resJson 500 (JObj [ "error" =: "Failed to fetch statuses from Freshdesk" ])).


(** An upstream where every call succeeds, a fair coin and a fixed clock. *)
Definition envOk : env :=
  {| upstream := fun _ => answerOk; random := fun _ => 0.5%Q;
     clock := fun _ => "2024-02-01T10:00:00.000Z" |}.

(** A message with one image, as the JavaScript engine and the URL parser see
    it: the regular expression matches the tag and captures the URL, whose
    path is [/shots/a.PNG]. *)
Definition pngUrl : string := "http://h/shots/a.PNG".
Definition pngTag : string := "<img src=" ++ dquote ++ pngUrl ++ dquote ++ ">".
Definition pngHtml : string := "Look: " ++ pngTag ++ " ok".

Definition pngPlatform : platform :=
  {| FRESHDESK_DOMAIN := "https://acme.freshdesk.com";
     INTERCOM_INBOX_URL := "https://app.intercom.com/a/inbox/acme";
     INTERCOM_WORKSPACE_ID := Some "acme";
     toLocaleString := fun _ => "01/02/2024, 03:04 pm";
     formatTranscript := fun _ => inr ("<html><body></body></html>", []);
     imgTagRegex := fun html =>
       if String.eqb html pngHtml then [(pngTag, pngUrl)] else [];
     he_decode := fun s => s;
     url_pathname := fun url =>
       if String.eqb url pngUrl then Some "/shots/a.PNG" else None;
     decodeURIComponent := fun s => Some s;
     filenameRegex := fun _ => None |}.

(** [guarded p latched free Q]: [p] runs as a task of the event loop, other
    tasks running whenever it waits.  [latched] says that the latch is known
    to be set, [free] that this task holds the right to send the one reply of
    the request.  The task replies only while it holds that right, which the
    reply uses up; it sets the latch but never resets it; an async function
    or a timer callback it starts gets the right only if the task gives it
    away; and [Q] holds of the result, the knowledge and the right at the
    end. *)
Fixpoint guarded {A : Type} (p : prog A) (latched free : bool)
    (Q : result A -> bool -> bool -> Prop) : Prop :=
  match p with
  | Ret a => Q (inr a) latched free
  | Throw e => Q (inl e) latched free
  | Get k => forall s, guarded (k s) latched free Q
  | Modify _ k => guarded k latched free Q
  | ReadSent k => guarded (k true) true free Q
                  /\ (latched = false -> guarded (k false) false free Q)
  | WriteSent b k => b = true /\ guarded k true free Q
  | ResJson _ _ k => free = true /\ guarded k latched false Q
  | ClearDeadline k => guarded k latched free Q
  | MathRandom k => forall x, guarded (k x) latched free Q
  | DateNow k => forall x, guarded (k x) latched free Q
  | Await _ _ k => forall x, guarded (k x) latched free Q
  | Sleep _ k => guarded k latched free Q
  | Spawn q k =>
      exists given : bool,
        (given = true -> free = true)
        /\ guarded q latched given (fun _ _ _ => True)
        /\ guarded k latched (if given then false else free) Q
  | SetTimeout _ q k =>
      exists given : bool,
        (given = true -> free = true)
        /\ guarded q latched given (fun _ _ _ => True)
        /\ guarded k latched (if given then false else free) Q
  end.

(** A pending piece of work, with or without the right to reply. *)
Definition taskOK (m : machine) (w : pending) (free : bool) : Prop :=
  exists latched : bool,
    (latched = true -> m_sent m = true)
    /\ match w with
       | PAwait _ k => forall x, guarded (k x) latched free (fun _ _ _ => True)
       | PSleep k => guarded k latched free (fun _ _ _ => True)
       | PTimer p => guarded p latched free (fun _ _ _ => True)
       end.

Definition rights (flags : list bool) : nat := length (List.filter id flags).

Definition replyCount (L : loop) : nat := length (replies (m_trace (l_machine L))).

(** The invariant: the replies sent and the rights to reply still held count
    at most one, and the timer callback holds no right. *)
Definition frugal (L : loop) : Prop :=
  (exists flags : list bool,
     Forall2 (taskOK (l_machine L)) (l_pending L) flags
     /\ (rights flags + replyCount L <= 1)%nat)
  /\ (forall d, l_deadline L = Some d -> guarded d false false (fun _ _ _ => True)).

(** A throw can be caught by a handler that calls [sendResponse]: the latch
    is set, or the right to reply is still there. *)
Definition mayCatch (r : result unit) (latched free : bool) : Prop :=
  match r with
  | inr _ => True
  | inl _ => latched = true \/ free = true
  end.

(** What running a task does to the invariant: the count of replies and
    rights grows at most by the right the task holds. *)
Definition kept (free : bool) (L L' : loop) (flags : list bool) : Prop :=
  exists flags' : list bool,
    Forall2 (taskOK (l_machine L')) (l_pending L') flags'
    /\ (rights flags' + replyCount L'
        <= rights flags + replyCount L + (if free then 1 else 0))%nat
    /\ (m_sent (l_machine L) = true -> m_sent (l_machine L') = true)
    /\ l_deadline L' = l_deadline L.





(** ** Reasoning about isolated runs *)

Lemma exec_bind {A B : Type} (E : env) (p : prog A) (f : A -> prog B) (m : machine) :
  exec E (bind p f) m =
  match exec E p m with
  | (inl e, m') => (inl e, m')
  | (inr a, m') => exec E (f a) m'
  end.
Proof.
  revert B f m.
  induction p as [A a|A e|A k IH|A g k IH|A k IH|A b k IH|A st body k IH|A k IH
                 |A k IH|A k IH|A X t r k IH|A ms k IH|A q IHq k IH|A ms q IHq k IH];
    intros B f m; cbn [bind exec]; auto.
  destruct (exec E q m) as [o m']. apply IH.
Qed.

Lemma exec_try_catch {A : Type} (E : env) (p : prog A) (h : error -> prog A) (m : machine) :
  exec E (try_catch p h) m =
  match exec E p m with
  | (inl e, m') => exec E (h e) m'
  | (inr a, m') => (inr a, m')
  end.
Proof.
  revert h m.
  induction p as [A a|A e|A k IH|A g k IH|A k IH|A b k IH|A st body k IH|A k IH
                 |A k IH|A k IH|A X t r k IH|A ms k IH|A q IHq k IH|A ms q IHq k IH];
    intros h m; cbn [try_catch exec]; auto.
  destruct (exec E q m) as [o m']. apply IH.
Qed.

(** ** The retry helper *)

Lemma currentDelayAt_shift (d : Q) (rand : nat -> Q) (i : nat) :
  currentDelayAt d rand (S i) =
  currentDelayAt (Qmin (d * 2) 10000 * (0.8 + rand 0%nat * 0.4))%Q
                 (fun j => rand (S j)) i.
Proof.
  induction i as [|i IH]; [reflexivity|].
  change (currentDelayAt d rand (S (S i)))
    with (Qmin (currentDelayAt d rand (S i) * 2) 10000 * (0.8 + rand (S i) * 0.4))%Q.
  rewrite IH. reflexivity.
Qed.

Lemma currentDelayAt_ext (d : Q) (rand rand' : nat -> Q) (i : nat) :
  (forall j, rand j = rand' j) ->
  currentDelayAt d rand i = currentDelayAt d rand' i.
Proof.
  intro H. induction i as [|i IH]; [reflexivity|].
  cbn [currentDelayAt]. rewrite IH, H. reflexivity.
Qed.

Lemma map_currentDelayAt_shift (d : Q) (rand : nat -> Q) (k : nat) :
  map (currentDelayAt d rand) (seq 0 (S k)) =
  d :: map (currentDelayAt (Qmin (d * 2) 10000 * (0.8 + rand 0%nat * 0.4))%Q
                           (fun j => rand (S j))) (seq 0 k).
Proof.
  cbn [seq map currentDelayAt]. f_equal.
  rewrite <- seq_shift, map_map.
  apply map_ext. intro i. apply currentDelayAt_shift.
Qed.

Section Retry.

Context {X : Type} (E : env) (r : request X) (retries : nat).

(** After [k] failed attempts the loop has slept [k] times, drawn [k]
    random numbers and issued [k] calls; what happens next depends on the
    answer to call [k]. *)
Lemma fetchLoop_failures :
  forall (k : nat) (errs : nat -> error) (fuel attempts : nat) (delay : Q) (m : machine),
    (attempts + k <= retries)%nat ->
    (forall i, (i < k)%nat -> upstream E (m_calls m + i) r = inl (errs i)) ->
    exists m1,
      exec E (fetchLoop (k + fuel) r retries attempts delay) m =
      exec E (fetchLoop fuel r retries (attempts + k)
                (currentDelayAt delay (fun j => random E (m_randoms m + j)) k)) m1
      /\ m_calls m1 = (m_calls m + k)%nat
      /\ m_randoms m1 = (m_randoms m + k)%nat
      /\ m_state m1 = m_state m /\ m_sent m1 = m_sent m
      /\ m_timers m1 = m_timers m
      /\ replies (m_trace m1) = replies (m_trace m)
      /\ sleeps (m_trace m1) =
         (sleeps (m_trace m)
          ++ map (currentDelayAt delay (fun j => random E (m_randoms m + j))) (seq 0 k))%list.
Proof.
  induction k as [|k IH]; intros errs fuel attempts delay m Hle Hfail.
  - exists m. rewrite !Nat.add_0_r, app_nil_r. cbn [plus currentDelayAt]. tauto.
  - assert (H0 : upstream E (m_calls m) r = inl (errs 0%nat)).
    { rewrite <- (Hfail 0%nat) by lia. f_equal. lia. }
    cbn [plus fetchLoop].
    destruct (Nat.leb_spec attempts retries) as [_|Hbad]; [|lia].
    cbn [exec]. rewrite H0.
    destruct (Nat.ltb_spec retries (S attempts)) as [Hbad|_]; [lia|].
    cbn [sleep mathRandom bind exec].
    set (m0 := next_random (emit (EvSleep delay) (next_call (emit (EvHttp (Some 10000%Z) r) m)))).
    destruct (IH (fun i => errs (S i)) fuel (S attempts)
                (Qmin (delay * 2) 10000 * (0.8 + random E (m_randoms m) * 0.4))%Q m0)
      as (m1 & Hrun & Hc & Hr & Hs & Hsent & Ht & Hrep & Hsl).
    { lia. }
    { intros i Hi. subst m0. cbn. rewrite <- (Hfail (S i)) by lia. f_equal. lia. }
    exists m1. subst m0. cbn in Hc, Hr, Hs, Hsent, Ht, Hrep, Hsl.
    cbn [m_randoms emit next_call].
    rewrite Hrun.
    assert (Hd : currentDelayAt delay (fun j => random E (m_randoms m + j)%nat) (S k) =
                 currentDelayAt (Qmin (delay * 2) 10000 * (0.8 + random E (m_randoms m) * 0.4))%Q
                   (fun j => random E (S (m_randoms m + j))) k).
    { rewrite currentDelayAt_shift, Nat.add_0_r.
      apply currentDelayAt_ext. intro j. f_equal. lia. }
    split.
    { f_equal. f_equal; [lia|].
      rewrite Hd. reflexivity. }
    split; [lia|]. split; [lia|]. split; [auto|]. split; [auto|]. split; [auto|].
    split.
    { rewrite Hrep. unfold replies. rewrite !flat_map_app. cbn.
      rewrite !app_nil_r. reflexivity. }
    rewrite Hsl.
    rewrite map_currentDelayAt_shift, Nat.add_0_r.
    unfold replies, sleeps in *. rewrite !flat_map_app. cbn.
    rewrite !app_nil_r, <- !app_assoc. cbn. do 2 f_equal.
    apply map_ext. intro i. apply currentDelayAt_ext. intro j. f_equal. lia.
Qed.

End Retry.

Lemma currentDelayAt_bound (d : Q) (rand : nat -> Q) (i : nat) :
  (forall j, 0 <= rand j /\ rand j < 1)%Q ->
  (d <= 12000)%Q ->
  (currentDelayAt d rand i <= 12000)%Q.
Proof.
  intros Hrand Hd. destruct i as [|i]; [exact Hd|].
  cbn [currentDelayAt].
  set (x := currentDelayAt d rand i).
  destruct (Hrand i) as [H0 H1].
  assert (Hmin : (Qmin (x * 2) 10000 <= 10000)%Q) by apply Q.le_min_r.
  set (a := Qmin (x * 2) 10000) in *.
  destruct (Qlt_le_dec a 0) as [Hneg|Hpos].
  - apply Qle_trans with (0 * (0.8 + rand i * 0.4))%Q; [|lra].
    apply Qmult_le_compat_r; lra.
  - apply Qle_trans with (10000 * (0.8 + rand i * 0.4))%Q; [|lra].
    apply Qmult_le_compat_r; lra.
Qed.

Lemma skipn_length_app {A : Type} (l l' : list A) : skipn (length l) (l ++ l') = l'.
Proof. induction l as [|a l IH]; [reflexivity|exact IH]. Qed.

(** C4 (amended).  [fetchWithRetry] retries after every failed attempt,
    whatever the error (transport or timeout error, 5xx or 4xx response): when
    the first [k <= retries] attempts fail and the next one succeeds, it
    returns that response after exactly [k] retries; when all [retries + 1]
    attempts fail, it throws the error of the last attempt. *)
Theorem fetchWithRetry_retries_any_error :
  forall (X : Type) (E : env) (r : request X) (retries : nat) (initialDelay : Q)
         (m : machine) (k : nat) (errs : nat -> error),
    (forall i, (i < k)%nat -> upstream E (m_calls m + i) r = inl (errs i)) ->
    let run := exec E (fetchWithRetry r retries initialDelay) m in
    (forall v, (k <= retries)%nat -> upstream E (m_calls m + k) r = inr v ->
       fst run = inr (Some v)
       /\ attemptsMade m (snd run) = S k
       /\ length (delaysWaited m (snd run)) = k)
    /\ (k = S retries ->
        fst run = inl (errs retries)
        /\ attemptsMade m (snd run) = S retries
        /\ length (delaysWaited m (snd run)) = retries).
Proof.
  intros X E r retries initialDelay m k errs Hfail run. subst run.
  unfold fetchWithRetry, attemptsMade, delaysWaited. split.
  - intros v Hk Hok.
    destruct (@fetchLoop_failures X E r retries k errs (S (retries - k)) 0
                initialDelay m) as (m1 & Hrun & Hc & _ & _ & _ & _ & _ & Hsl);
      [lia|exact Hfail|].
    replace (S retries) with (k + S (retries - k))%nat by lia.
    rewrite Hrun. cbn [fetchLoop plus].
    destruct (Nat.leb_spec k retries) as [_|Hbad]; [|lia].
    cbn [exec]. rewrite Hc, Hok. cbn [exec fst snd m_calls next_call emit m_trace].
    split; [reflexivity|]. split; [lia|].
    unfold sleeps in *. rewrite flat_map_app, Hsl. cbn [flat_map].
    rewrite app_nil_r, skipn_length_app, length_map, length_seq. reflexivity.
  - intros ->.
    destruct (@fetchLoop_failures X E r retries retries errs 1 0
                initialDelay m) as (m1 & Hrun & Hc & _ & _ & _ & _ & _ & Hsl);
      [lia|intros i Hi; apply Hfail; lia|].
    replace (S retries) with (retries + 1)%nat by lia.
    rewrite Hrun. cbn [fetchLoop plus].
    destruct (Nat.leb_spec retries retries) as [_|Hbad]; [|lia].
    cbn [exec]. rewrite Hc, (Hfail retries) by lia.
    destruct (Nat.ltb_spec retries (S retries)) as [_|Hbad]; [|lia].
    cbn [exec fst snd m_calls next_call emit m_trace].
    split; [reflexivity|]. split; [lia|].
    unfold sleeps in *. rewrite flat_map_app, Hsl. cbn [flat_map].
    rewrite app_nil_r, skipn_length_app, length_map, length_seq. reflexivity.
Qed.

(** C7 (amended).  The first retry waits exactly [initialDelay], without
    jitter; every later retry waits [min(2 * previous, 10000) * (0.8 + 0.4 *
    rand())], where [previous] is the delay actually waited before, jitter
    included, so the jitter factors accumulate.  The cap of 10 seconds is
    applied before the jitter factor: a delay never exceeds 12 seconds. *)
Theorem fetchWithRetry_backoff_delays :
  forall (X : Type) (E : env) (r : request X) (retries : nat) (initialDelay : Q)
         (m : machine) (k : nat) (errs : nat -> error),
    (k <= retries)%nat ->
    (forall i, (i < k)%nat -> upstream E (m_calls m + i) r = inl (errs i)) ->
    ((k < retries)%nat -> exists v, upstream E (m_calls m + k) r = inr v) ->
    let run := exec E (fetchWithRetry r retries initialDelay) m in
    let rand := fun j => random E (m_randoms m + j) in
    delaysWaited m (snd run) = map (currentDelayAt initialDelay rand) (seq 0 k)
    /\ ((forall j, 0 <= rand j /\ rand j < 1)%Q -> (initialDelay <= 12000)%Q ->
        Forall (fun d => d <= 12000)%Q (delaysWaited m (snd run))).
Proof.
  intros X E r retries initialDelay m k errs Hk Hfail Hnext run rand.
  assert (Hdelays : delaysWaited m (snd run)
                    = map (currentDelayAt initialDelay rand) (seq 0 k)).
  { subst run. unfold fetchWithRetry, delaysWaited.
    destruct (@fetchLoop_failures X E r retries k errs (S (retries - k)) 0
                initialDelay m) as (m1 & Hrun & Hc & _ & _ & _ & _ & _ & Hsl);
      [lia|exact Hfail|].
    replace (S retries) with (k + S (retries - k))%nat by lia.
    rewrite Hrun. cbn [fetchLoop plus].
    destruct (Nat.leb_spec k retries) as [_|Hbad]; [|lia].
    cbn [exec]. rewrite Hc.
    destruct (upstream E (m_calls m + k) r) as [e|v] eqn:Hup.
    - destruct (Nat.ltb_spec retries (S k)) as [_|Hlt].
      + cbn [exec snd m_trace next_call emit].
        unfold sleeps in *. rewrite flat_map_app, Hsl. cbn [flat_map].
        rewrite app_nil_r, skipn_length_app. reflexivity.
      + destruct Hnext as [v Hv]; [lia|]. congruence.
    - cbn [exec snd m_trace next_call emit].
      unfold sleeps in *. rewrite flat_map_app, Hsl. cbn [flat_map].
      rewrite app_nil_r, skipn_length_app. reflexivity. }
  split; [exact Hdelays|].
  intros Hrand Hd. rewrite Hdelays.
  apply List.Forall_forall. intros d Hin.
  apply in_map_iff in Hin. destruct Hin as (i & <- & _).
  apply currentDelayAt_bound; assumption.
Qed.

Lemma fetchWithRetry_retries_any_error_witness :
  let run := exec (envFailingFirst [httpError 503; httpError 503] 0.5)
                  (fetchWithRetry GetMailboxes 3 500) (machine_of initial_state) in
  fst run = inr (Some oneMailbox)
  /\ attemptsMade (machine_of initial_state) (snd run) = 3%nat
  /\ length (delaysWaited (machine_of initial_state) (snd run)) = 2%nat.
Proof.
  refine (proj1 (@fetchWithRetry_retries_any_error _
                   (envFailingFirst [httpError 503; httpError 503] 0.5)
                   GetMailboxes 3 500 (machine_of initial_state) 2
                   (fun _ => httpError 503) _) oneMailbox _ _).
  - intros i Hi. destruct i as [|[|i]]; [reflexivity|reflexivity|lia].
  - lia.
  - reflexivity.
Defined.

(** C4, as stated, fails: the first attempt is answered with a 404, and the
    helper does not surface it but tries again and returns the later
    success. *)
Lemma fetchWithRetry_retries_after_404 :
  let E := envFailingFirst [httpError 404] 0.5 in
  let run := exec E (fetchWithRetry GetMailboxes 3 500) (machine_of initial_state) in
  upstream E 0 GetMailboxes = inl (httpError 404)
  /\ fst run = inr (Some oneMailbox)
  /\ attemptsMade (machine_of initial_state) (snd run) = 2%nat.
Proof. vm_compute. repeat split. Qed.

Lemma fetchWithRetry_backoff_delays_witness :
  let E := envFailingFirst [httpError 503; httpError 503] 0.5 in
  let run := exec E (fetchWithRetry GetMailboxes 3 500) (machine_of initial_state) in
  delaysWaited (machine_of initial_state) (snd run)
  = map (currentDelayAt 500 (fun j => random E (0 + j))) (seq 0 2)
  /\ ((forall j, 0 <= random E (0 + j) /\ random E (0 + j) < 1)%Q -> (500 <= 12000)%Q ->
      Forall (fun d => d <= 12000)%Q (delaysWaited (machine_of initial_state) (snd run))).
Proof.
  refine (@fetchWithRetry_backoff_delays _
            (envFailingFirst [httpError 503; httpError 503] 0.5)
            GetMailboxes 3 500 (machine_of initial_state) 2
            (fun _ => httpError 503) _ _ _).
  - lia.
  - intros i Hi. destruct i as [|[|i]]; [reflexivity|reflexivity|lia].
  - intros _. exists oneMailbox. reflexivity.
Defined.

(** C7, as stated, fails already at the first retry: with [Math.random()]
    returning 0 the specification's formula gives 400 ms, and the code waits
    500 ms. *)
Lemma fetchWithRetry_first_delay_has_no_jitter :
  let E := envFailingFirst [httpError 503; httpError 503; httpError 503; httpError 503] 0 in
  let run := exec E (fetchWithRetry GetMailboxes 3 500) (machine_of initial_state) in
  nth_error (delaysWaited (machine_of initial_state) (snd run)) 0 = Some 500%Q
  /\ forall j, ~ (500 == specDelay 500 0 (random E j))%Q.
Proof.
  split; [reflexivity|].
  intros j H. vm_compute in H. discriminate H.
Qed.


Lemma load_more_home_run (P : platform) (E : env) (b : body) (m : machine) (p : pageState) :
  component_id b = Some "load_more_home_tickets" ->
  homePageState (m_state m) = Some p ->
  m_sent m = false ->
  exists panel m',
    exec E (submitHandler P b) m = (inr tt, m')
    /\ homePageState (m_state m') = Some (nextPage p)
    /\ mergePageState (m_state m') = mergePageState (m_state m)
    /\ m_calls m' = m_calls m
    /\ m_trace m' = (m_trace m ++ [EvReply 200 panel])%list.
Proof.
  intros Hid Hhome Hsent.
  unfold submitHandler, clicked. rewrite Hid.
  cbn -[on_load_more_home_tickets].
  rewrite exec_try_catch.
  unfold on_load_more_home_tickets.
  cbn [bind get exec m_state with_state homePageState set_intercomContext].
  rewrite Hhome.
  rewrite exec_try_catch.
  cbn [bind modify exec m_state with_state].
  rewrite exec_bind.
  destruct (buildRecentTicketsComponent P _ _) as [e|cs] eqn:Hbuild;
    cbn [liftE exec sendResponse m_sent with_state with_sent emit clear_deadline];
    rewrite Hsent; cbn [negb exec with_sent clear_deadline emit m_state m_calls m_trace
                          homePageState mergePageState set_homePageState set_intercomContext];
    eexists; eexists; (split; [reflexivity|]); cbn; auto.
Qed.


Lemma load_more_tickets_run (P : platform) (E : env) (b : body) (m : machine)
    (p : pageState) :
  component_id b = Some "load_more_tickets" ->
  mergePageState (m_state m) = Some p ->
  m_sent m = false ->
  exists m',
    exec E (submitHandler P b) m = (inr tt, m')
    /\ mergePageState (m_state m') = Some (nextPage p)
    /\ homePageState (m_state m') = homePageState (m_state m)
    /\ m_calls m' = m_calls m
    /\ m_trace m'
       = (m_trace m
          ++ [EvReply 200
                (canvas (mergeList (Js.slice 0 (currentOffset (nextPage p))
                                      (allTickets (nextPage p)))
                           (hasMore (nextPage p))))])%list.
Proof.
  intros Hid Hmerge Hsent.
  unfold submitHandler, clicked. rewrite Hid.
  cbn -[on_load_more_tickets].
  rewrite exec_try_catch.
  unfold on_load_more_tickets.
  cbn [bind get exec m_state with_state mergePageState set_intercomContext].
  rewrite Hmerge.
  rewrite exec_try_catch.
  cbn [bind modify exec m_state with_state sendResponse m_sent].
  rewrite Hsent.
  cbn. eexists. split; [reflexivity|]. cbn. auto.
Qed.

Lemma load_more_without_cursor (P : platform) (E : env) (b : body) (m : machine) :
  m_sent m = false ->
  (component_id b = Some "load_more_tickets" -> mergePageState (m_state m) = None ->
   exists m', exec E (submitHandler P b) m = (inr tt, m')
              /\ m_trace m' = (m_trace m ++ [EvReply 200 sessionExpiredMerge])%list
              /\ m_calls m' = m_calls m)
  /\ (component_id b = Some "load_more_home_tickets" -> homePageState (m_state m) = None ->
      exists m', exec E (submitHandler P b) m = (inr tt, m')
                 /\ m_trace m' = (m_trace m ++ [EvReply 200 sessionExpiredHome])%list
                 /\ m_calls m' = m_calls m).
Proof.
  intros Hsent. split; intros Hid Hnone.
  - unfold submitHandler, clicked. rewrite Hid.
    cbn -[on_load_more_tickets].
    rewrite exec_try_catch. unfold on_load_more_tickets.
    cbn [bind get exec m_state with_state mergePageState set_intercomContext].
    rewrite Hnone. cbn [exec sendResponse m_sent with_state]. rewrite Hsent.
    cbn. eexists. split; [reflexivity|]. cbn. auto.
  - unfold submitHandler, clicked. rewrite Hid.
    cbn -[on_load_more_home_tickets].
    rewrite exec_try_catch. unfold on_load_more_home_tickets.
    cbn [bind get exec m_state with_state homePageState set_intercomContext].
    rewrite Hnone. cbn [exec sendResponse m_sent with_state]. rewrite Hsent.
    cbn. eexists. split; [reflexivity|]. cbn. auto.
Qed.







(** C8.  A load-more event that finds no cursor ([app.locals.mergePageState],
    respectively [app.locals.homePageState], is unset, as after a restart) is
    answered by one reply, a panel with the text "Session expired" and a
    button to leave the view; the handler returns normally and calls no
    upstream system. *)
Theorem load_more_without_cursor_session_expired :
  forall (P : platform) (E : env) (b : body) (m : machine),
    m_sent m = false ->
    (component_id b = Some "load_more_tickets" /\ mergePageState (m_state m) = None)
    \/ (component_id b = Some "load_more_home_tickets" /\ homePageState (m_state m) = None) ->
    exists (panel : json) (m' : machine),
      exec E (submitHandler P b) m = (inr tt, m')
      /\ m_trace m' = (m_trace m ++ [EvReply 200 panel])%list
      /\ m_calls m' = m_calls m
      /\ mentions "Session expired" panel = true
      /\ (buttonIds panel = [JStr "back_to_home"] \/ buttonIds panel = [JStr "create_ticket"]).
Proof.
  intros P E b m Hsent [[Hid Hnone]|[Hid Hnone]].
  - destruct (proj1 (@load_more_without_cursor P E b m Hsent) Hid Hnone)
      as (m' & Hrun & Htr & Hc).
    exists sessionExpiredMerge, m'. repeat split; auto.
  - destruct (proj2 (@load_more_without_cursor P E b m Hsent) Hid Hnone)
      as (m' & Hrun & Htr & Hc).
    exists sessionExpiredHome, m'. repeat split; auto.
Qed.

Lemma nextPage_within_bounds (p : pageState) :
  (currentOffset (nextPage p) <= length (allTickets (nextPage p)))%nat.
Proof.
  unfold nextPage, set_hasMore, set_currentOffset.
  cbn [currentOffset allTickets]. lia.
Qed.

(** *** Scenarios *)


Lemma load_more_without_cursor_session_expired_witness :
  exists (panel : json) (m' : machine),
    exec (envTickets 20) (submitHandler demo (customerBody (Some "load_more_tickets")))
         (machine_of initial_state) = (inr tt, m')
    /\ m_trace m' = (m_trace (machine_of initial_state) ++ [EvReply 200 panel])%list
    /\ m_calls m' = m_calls (machine_of initial_state)
    /\ mentions "Session expired" panel = true
    /\ (buttonIds panel = [JStr "back_to_home"] \/ buttonIds panel = [JStr "create_ticket"]).
Proof.
  apply (@load_more_without_cursor_session_expired demo (envTickets 20)
           (customerBody (Some "load_more_tickets")) (machine_of initial_state)).
  - reflexivity.
  - left. split; reflexivity.
Defined.

(** C5 fails at creation: for a customer with 3 tickets [/api/initialize]
    stores [currentOffset = 5] next to an [allTickets] of length 3. *)
Theorem initialize_offset_exceeds_short_list :
  let m := snd (exec (envTickets 3) (initialize demo (customerBody None))
                  (machine_of initial_state)) in
  option_map (fun c => (currentOffset c, length (allTickets c))) (homeCursor m)
  = Some (5, 3)%nat.
Proof. vm_compute. reflexivity. Qed.


Lemma lookupOnly_refl (m : machine) : lookupOnly m m.
Proof.
  unfold lookupOnly. repeat split; auto. exists []. rewrite app_nil_r. auto.
Qed.

Lemma lookupOnly_trans (m1 m2 m3 : machine) :
  lookupOnly m1 m2 -> lookupOnly m2 m3 -> lookupOnly m1 m3.
Proof.
  intros (Hs & Hb & Ht & Hd & t & Htr & Hq) (Hs' & Hb' & Ht' & Hd' & t' & Htr' & Hq').
  unfold lookupOnly. repeat split; try congruence.
  exists (t ++ t')%list. rewrite Htr', Htr, app_assoc. split; [reflexivity|].
  rewrite forallb_app, Hq, Hq'. reflexivity.
Qed.

Lemma lookupOnly_event (e : event) (m : machine) :
  readOnlyEvent e = true -> lookupOnly m (emit e m).
Proof.
  intro H. unfold lookupOnly. cbn. repeat split; auto.
  exists [e]. cbn. rewrite H. auto.
Qed.

Lemma lookupOnly_next_call (m : machine) : lookupOnly m (next_call m).
Proof.
  unfold lookupOnly. cbn. repeat split; auto. exists []. rewrite app_nil_r. auto.
Qed.

Lemma lookupOnly_next_random (m : machine) : lookupOnly m (next_random m).
Proof.
  unfold lookupOnly. cbn. repeat split; auto. exists []. rewrite app_nil_r. auto.
Qed.

Lemma fetchLoop_lookupOnly {X : Type} (E : env) (r : request X) (retries : nat) :
  readOnlyEvent (EvHttp (Some 10000%Z) r) = true ->
  forall (fuel attempts : nat) (delay : Q) (m : machine),
    lookupOnly m (snd (exec E (fetchLoop fuel r retries attempts delay) m)).
Proof.
  intros Hr. induction fuel as [|fuel IH]; intros attempts delay m.
  - apply lookupOnly_refl.
  - cbn [fetchLoop]. destruct (attempts <=? retries)%nat; [|apply lookupOnly_refl].
    cbn [exec].
    assert (H1 : lookupOnly m (next_call (emit (EvHttp (Some 10000%Z) r) m))).
    { eapply lookupOnly_trans; [apply lookupOnly_event, Hr|apply lookupOnly_next_call]. }
    destruct (upstream E (m_calls m) r) as [e|v]; [|exact H1].
    destruct (retries <? S attempts)%nat; [exact H1|].
    cbn [sleep mathRandom bind exec].
    eapply lookupOnly_trans; [exact H1|].
    eapply lookupOnly_trans; [apply (@lookupOnly_event (EvSleep delay)); reflexivity|].
    eapply lookupOnly_trans; [apply lookupOnly_next_random|].
    apply IH.
Qed.

Lemma fetchData_lookupOnly {X : Type} (E : env) (r : request X) (m : machine) :
  readOnlyEvent (EvHttp (Some 10000%Z) r) = true ->
  lookupOnly m (snd (exec E (fetchData r) m)).
Proof.
  intro Hr. unfold fetchData, fetchWithRetry. rewrite exec_bind.
  pose proof (@fetchLoop_lookupOnly X E r 3 Hr 4 0%nat 500%Q m) as H.
  destruct (exec E (fetchLoop 4 r 3 0 500) m) as [[e|[v|]] m']; exact H.
Qed.










Lemma downloadFile_returns (E : env) (url filename : option string) (m : machine) :
  exists (buf : option string) (m' : machine),
    exec E (downloadFile url filename) m = (inr buf, m').
Proof.
  unfold downloadFile. rewrite exec_try_catch.
  destruct (exec E _ m) as [[e|buf] m']; cbn [exec]; eauto.
Qed.

Lemma downloadAll_returns (E : env) (attachments : list attachment) :
  forall (files : list attachmentFile) (m : machine),
    exists (fs : list attachmentFile) (m' : machine),
      exec E (downloadAll attachments files) m = (inr fs, m').
Proof.
  induction attachments as [|a rest IH]; intros files m.
  - cbn. eauto.
  - cbn [downloadAll]. rewrite exec_bind, exec_try_catch, exec_bind.
    destruct (downloadFile_returns E (at_url a) (at_name a) m) as (buf & m1 & Hd).
    rewrite Hd. destruct buf as [buf|]; cbn [exec]; apply IH.
Qed.

(** C9.  [addConversationTranscriptToTicket] never throws, and it returns the
    caller's [ticketData], which it has not touched, when no conversation id
    is given, when the conversation cannot be fetched (the call fails, or
    yields nothing), and when building the transcript throws. *)
Theorem addConversationTranscript_returns_original_on_failure :
  forall (P : platform) (E : env) (ticketData : ticket_data)
         (conversationId : option string) (m : machine),
    let run := exec E (addConversationTranscriptToTicket P ticketData conversationId) m in
    (exists r, fst run = inr r)
    /\ (Js.truthy conversationId = false -> run = (inr (ticketData, ticketData), m))
    /\ (forall cid : string,
          conversationId = Some cid -> cid <> "" ->
          let m1 := next_call (emit (EvHttp None (GetConversation cid)) m) in
          (forall e, upstream E (m_calls m) (GetConversation cid) = inl e ->
                     run = (inr (ticketData, ticketData), m1))
          /\ (forall c, upstream E (m_calls m) (GetConversation cid) = inr c ->
                        falsy c = true ->
                        run = (inr (ticketData, ticketData), m1))
          /\ (forall c e, upstream E (m_calls m) (GetConversation cid) = inr c ->
                          falsy c = false ->
                          formatTranscript P c = inl e ->
                          fst run = inr (ticketData, ticketData))).
Proof.
  intros P E ticketData conversationId m run. subst run.
  unfold addConversationTranscriptToTicket.
  destruct (Js.truthy conversationId) eqn:Htruthy; cbn [negb].
  2:{ split; [cbn; eauto|]. split; [reflexivity|].
      intros cid -> Hid. exfalso. unfold Js.truthy in Htruthy.
      destruct (String.eqb_spec cid ""); [contradiction|discriminate]. }
  split; [|split; [discriminate|]].
  - rewrite exec_bind, exec_try_catch, exec_bind.
    unfold fetchIntercomConversation. rewrite exec_try_catch.
    cbn [axios exec].
    destruct (upstream E (m_calls m) (GetConversation (default "" conversationId)))
      as [e|c]; cbn [exec].
    { eauto. }
    destruct (falsy c) eqn:Hfalsy; cbn [exec].
    { eauto. }
    rewrite exec_bind. unfold formatConversationAsHtml. rewrite Hfalsy.
    set (m2 := next_call _).
    destruct (formatTranscript P c) as [e|[transcriptHtml attachments]];
      cbn [liftE exec].
    { eauto. }
    rewrite exec_bind.
    destruct attachments as [|a attachments].
    + cbn. eauto.
    + rewrite exec_bind.
      destruct (downloadAll_returns E (a :: attachments)
                  (default [] (td_attachments ticketData)) m2) as (fs & m3 & Hd).
      rewrite Hd. cbn. eauto.
  - intros cid -> Hid. cbn [default from_option id].
    rewrite exec_bind, exec_try_catch, exec_bind.
    unfold fetchIntercomConversation. rewrite exec_try_catch.
    cbn [axios exec].
    set (m1 := next_call (emit (EvHttp None (GetConversation cid)) m)).
    split; [|split].
    + intros e ->. cbn [exec]. reflexivity.
    + intros c -> Hfalsy. cbn [exec]. rewrite Hfalsy. reflexivity.
    + intros c e -> Hfalsy Hthrow. cbn [exec]. rewrite Hfalsy.
      rewrite exec_bind. unfold formatConversationAsHtml. rewrite Hfalsy.
      rewrite Hthrow. reflexivity.
Qed.


Lemma addConversationTranscript_returns_original_on_failure_witness :
  exec (envTickets 20)
       (addConversationTranscriptToTicket demo sampleTicketData (Some "c-1"))
       (machine_of initial_state)
  = (inr (sampleTicketData, sampleTicketData),
     next_call (emit (EvHttp None (GetConversation "c-1")) (machine_of initial_state))).
Proof.
  refine (proj1 (proj2 (proj2 (@addConversationTranscript_returns_original_on_failure
                                 demo (envTickets 20) sampleTicketData (Some "c-1")
                                 (machine_of initial_state)))
                   "c-1" eq_refl _) (httpError 500) eq_refl).
  discriminate.
Defined.

Lemma extractImages_fold (P : platform) (matches : list (string * string)) :
  forall (html : string) (images : list (string * string)) (k : Z),
    let done := fold_left (extractImage P) matches (html, images, k) in
    snd done = (k + Z.of_nat (length matches))%Z
    /\ map snd (snd (fst done)) = (map snd images ++ namesFrom P k matches)%list
    /\ map fst (snd (fst done))
       = (map fst images ++ map (fun m => he_decode P (snd m)) matches)%list.
Proof.
  induction matches as [|m rest IH]; intros html images k.
  - cbn. rewrite Z.add_0_r, !app_nil_r. auto.
  - cbn [fold_left namesFrom length map].
    set (name := sequentialFilename k (imageExtension P (he_decode P (snd m)))).
    change (extractImage P (html, images, k) m)
      with (Js.replace (fst m) (placeholderText name) html,
            (images ++ [(he_decode P (snd m), name)])%list, (k + 1)%Z).
    destruct (IH (Js.replace (fst m) (placeholderText name) html)
                 (images ++ [(he_decode P (snd m), name)])%list (k + 1)%Z)
      as (Hk & Hnames & Hurls).
    split; [rewrite Hk; lia|]. split.
    + rewrite Hnames, map_app, <- app_assoc. reflexivity.
    + rewrite Hurls, map_app, <- app_assoc. reflexivity.
Qed.

(** X25.  What holds of [extractInlineImages] on every input: a value that is not a
    non-empty string comes back as it is (or as the empty string when it is
    falsy), with no image and [nextIndex = startIndex]; on a string,
    [nextIndex] is [startIndex] plus the number of matched tags, and the
    images are the decoded URLs of the matches, named [image k.<ext>] with [k]
    counting up from [startIndex]. *)
Lemma extractInlineImages_names (P : platform) (htmlContent : json) (startIndex : Z) :
  let r := extractInlineImages P htmlContent startIndex in
  match htmlContent with
  | JStr html =>
      nextIndex r = (startIndex + Z.of_nat (length (if String.eqb html "" then []
                                                    else imgTagRegex P html)))%Z
      /\ map snd (extractedImages r)
         = namesFrom P startIndex (if String.eqb html "" then [] else imgTagRegex P html)
      /\ map fst (extractedImages r)
         = map (fun m => he_decode P (snd m))
               (if String.eqb html "" then [] else imgTagRegex P html)
  | other =>
      r = {| modifiedHtml := if falsy other then JStr "" else other;
             extractedImages := []; nextIndex := startIndex |}
  end.
Proof.
  destruct htmlContent as [| |b|n|html|items|fields]; try reflexivity.
  unfold extractInlineImages. destruct (String.eqb html "").
  - cbn. rewrite Z.add_0_r. auto.
  - cbn [nextIndex extractedImages].
    destruct (extractImages_fold P (imgTagRegex P html) html [] startIndex)
      as (Hk & Hnames & Hurls).
    auto.
Qed.

(** C10 fails on [dollarTag]: the extension taken from the URL is [$&], which
    [String.prototype.replace] expands to the matched text, so the returned
    html is not the placeholder [[Inline image: image 1.$&]]: it still
    contains the whole tag. *)
Theorem extractInlineImages_keeps_tag_with_dollar_extension :
  let r := extractInlineImages dollarPlatform (JStr dollarTag) 1 in
  extractedImages r = [(dollarUrl, "image 1.$&")]
  /\ nextIndex r = 2%Z
  /\ modifiedHtml r = JStr ("[Inline image: image 1." ++ dollarTag ++ "]")
  /\ modifiedHtml r <> JStr (placeholderText "image 1.$&")
  /\ Js.includes dollarTag ("[Inline image: image 1." ++ dollarTag ++ "]") = true.
Proof.
  vm_compute. repeat split. discriminate.
Qed.


(** ** The event loop: order of replies and notifier calls *)




Lemma calm_bind {A B : Type} (notes : bool) (p : prog A) (f : A -> prog B) :
  calm notes p -> (forall a, calm notes (f a)) -> calm notes (bind p f).
Proof.
  revert B f.
  induction p as [A a|A e|A k IH|A g k IH|A k IH|A v k IH|A st body k IH|A k IH
                 |A k IH|A k IH|A X t rq k IH|A ms k IH|A q IHq k IH|A ms q IHq k IH];
    intros B f Hp Hf; cbn [bind calm] in *;
    try solve [auto | contradiction | destruct Hp as [H1 H2]; split; auto].
Qed.

Lemma calm_try_catch {A : Type} (notes : bool) (p : prog A) (h : error -> prog A) :
  calm notes p -> (forall e, calm notes (h e)) -> calm notes (try_catch p h).
Proof.
  revert h.
  induction p as [A a|A e|A k IH|A g k IH|A k IH|A v k IH|A st body k IH|A k IH
                 |A k IH|A k IH|A X t rq k IH|A ms k IH|A q IHq k IH|A ms q IHq k IH];
    intros h Hp Hh; cbn [try_catch calm] in *;
    try solve [auto | contradiction | destruct Hp as [H1 H2]; split; auto].
Qed.














Section Orderly.

Variable E : env.




End Orderly.

(** *** The programs of the server are calm *)

Ltac calm_step :=
  match goal with
  | |- True => exact I
  | |- _ /\ _ => split
  | |- forall _, _ => intro
  | |- _ = _ => reflexivity
  | H : calm ?n ?p |- calm ?n ?p => exact H
  | |- calm _ (bind _ _) => apply calm_bind
  | |- calm _ (try_catch _ _) => apply calm_try_catch
  | |- calm _ (liftE ?x) => destruct x; exact I
  | |- calm _ (if ?c then _ else _) => destruct c
  | |- calm _ (match ?x with _ => _ end) => destruct x
  | |- calm _ _ => progress cbn [calm get modify resJson mathRandom dateNow sleep
                                   spawn setTimeout axios]
  end.

Ltac calm_auto := repeat calm_step.





Section CalmServer.

Variable P : platform.

Lemma calm_fetchRecentTickets (email : option string) :
  calm false (fetchRecentTickets email).
Proof. unfold fetchRecentTickets. calm_auto. Qed.

Lemma calm_recentOrFetched (email : string) : calm false (recentOrFetched P email).
Proof.
  unfold recentOrFetched. apply calm_bind; [calm_auto|]. intro s.
  destruct (cachedFor email s).
  - calm_auto.
  - apply calm_bind; [apply calm_fetchRecentTickets|]. calm_auto.
Qed.









Lemma calm_trackerSet (email : string) (mk : marker) : calm false (trackerSet email mk).
Proof. exact I. Qed.



(** *** The create-ticket branch and the deadline callback are safe *)






End CalmServer.

(** *** The trace only grows, and only the timer records [EvDeadline] *)

Section Traces.

Variable E : env.




End Traces.




Section AtOnce.

Variable P : platform.
Variable E : env.






End AtOnce.






(** Claim C1 fails.  The customer clicks [cancel]; the 9-second timer fires
    while the handler waits for the ticket list; the calls of the timer's
    callback and of the handler are then answered.  Nothing is left to
    happen, and no reply has been sent. *)
Theorem deadline_first_sends_no_reply :
  replies (submitTrace demo (envTickets 3) (customerBody (Some "cancel")) initial_state
             [Deadline; Settle 0 answerOk; Settle 0 answerOk]) = []
  /\ existsb is_deadline
       (submitTrace demo (envTickets 3) (customerBody (Some "cancel")) initial_state
          [Deadline; Settle 0 answerOk; Settle 0 answerOk]) = true
  /\ quiescent
       (run_schedule (envTickets 3) [Deadline; Settle 0 answerOk; Settle 0 answerOk]
          (startSubmit demo (envTickets 3) (customerBody (Some "cancel")) initial_state))
     = true.
Proof. split; [|split]; vm_compute; reflexivity. Qed.


(** ** Isolated runs, whatever the upstream systems answer *)

Lemma always_mono {A : Type} (p : prog A) :
  forall (s : state) (l : bool) (t : list event)
         (Q Q' : result A -> state -> bool -> list event -> Prop),
    (forall r s' l' t', Q r s' l' t' -> Q' r s' l' t') ->
    always p s l t Q -> always p s l t Q'.
Proof.
  induction p as [A a|A e|A k IH|A g k IH|A k IH|A v k IH|A st body k IH|A k IH
                 |A k IH|A k IH|A X tm rq k IH|A ms k IH|A q IHq k IH|A ms q IHq k IH];
    intros s l t Q Q' HQ; cbn [always]; eauto.
  intro H. eapply IHq; [|exact H]. cbn beta. intros r s' l' t'. apply IH. exact HQ.
Qed.

Lemma always_bind {A B : Type} (p : prog A) (f : A -> prog B) :
  forall (s : state) (l : bool) (t : list event)
         (Q : result B -> state -> bool -> list event -> Prop),
    always p s l t (fun r s' l' t' =>
      match r with
      | inl e => Q (inl e) s' l' t'
      | inr a => always (f a) s' l' t' Q
      end) ->
    always (bind p f) s l t Q.
Proof.
  revert B f.
  induction p as [A a|A e|A k IH|A g k IH|A k IH|A v k IH|A st body k IH|A k IH
                 |A k IH|A k IH|A X tm rq k IH|A ms k IH|A q IHq k IH|A ms q IHq k IH];
    intros B f s l t Q; cbn [bind always]; eauto.
  intro H. eapply always_mono; [|exact H]. cbn beta. intros r s' l' t'. apply IH.
Qed.

Lemma always_try_catch {A : Type} (p : prog A) (h : error -> prog A) :
  forall (s : state) (l : bool) (t : list event)
         (Q : result A -> state -> bool -> list event -> Prop),
    always p s l t (fun r s' l' t' =>
      match r with
      | inl e => always (h e) s' l' t' Q
      | inr a => Q (inr a) s' l' t'
      end) ->
    always (try_catch p h) s l t Q.
Proof.
  revert h.
  induction p as [A a|A e|A k IH|A g k IH|A k IH|A v k IH|A st body k IH|A k IH
                 |A k IH|A k IH|A X tm rq k IH|A ms k IH|A q IHq k IH|A ms q IHq k IH];
    intros h s l t Q; cbn [try_catch always]; eauto.
  intro H. eapply always_mono; [|exact H]. cbn beta. intros r s' l' t'. apply IH.
Qed.

(** What [always] promises holds of every run. *)
Lemma always_exec {A : Type} (E : env) (p : prog A) :
  forall (m : machine) (Q : result A -> state -> bool -> list event -> Prop),
    always p (m_state m) (m_sent m) (m_trace m) Q ->
    Q (fst (exec E p m)) (m_state (snd (exec E p m))) (m_sent (snd (exec E p m)))
      (m_trace (snd (exec E p m))).
Proof.
  induction p as [A a|A e|A k IH|A g k IH|A k IH|A v k IH|A st body k IH|A k IH
                 |A k IH|A k IH|A X tm rq k IH|A ms k IH|A q IHq k IH|A ms q IHq k IH];
    intros m Q H; cbn [always exec] in *; auto.
  - apply IH. exact H.
  - apply (IH (with_state (g (m_state m)) m)). exact H.
  - apply IH. exact H.
  - apply (IH (with_sent v m)). exact H.
  - apply (IH (emit (EvReply st body) m)). exact H.
  - apply (IH (clear_deadline m)). exact H.
  - apply (IH _ (next_random m)). apply H.
  - apply (IH _ (next_tick m)). apply H.
  - apply (IH _ (next_call (emit (EvHttp tm rq) m))). apply H.
  - apply (IH (emit (EvSleep ms) m)). exact H.
  - specialize (IHq m _ H). cbn beta in IHq.
    destruct (exec E q m) as [[e|u] m']; cbn [fst snd] in IHq.
    + apply (IH (emit (EvUnhandled e) m')). exact IHq.
    + apply (IH m'). exact IHq.
  - apply (IH (add_timer ms q m)). exact H.
Qed.

(** A discreet program leaves the latch alone, adds only backstage events to
    the trace, and keeps the state unless it may write. *)
Lemma always_discreet {A : Type} (ok : forall X : Type, request X -> bool)
    (writes : bool) (p : prog A) :
  discreet ok writes p ->
  forall (s : state) (l : bool) (t : list event)
         (Q : result A -> state -> bool -> list event -> Prop),
    (forall r s' t', (writes = false -> s' = s) ->
                     forallb (backstage ok) t' = true ->
                     Q r s' l (t ++ t')%list) ->
    always p s l t Q.
Proof.
  induction p as [A a|A e|A k IH|A g k IH|A k IH|A v k IH|A st body k IH|A k IH
                 |A k IH|A k IH|A X tm rq k IH|A ms k IH|A q IHq k IH|A ms q IHq k IH];
    intros Hd s l t Q HQ; cbn [discreet always] in *.
  - rewrite <- (app_nil_r t). apply HQ; auto.
  - rewrite <- (app_nil_r t). apply HQ; auto.
  - apply IH; auto.
  - destruct Hd as [-> Hd]. apply IH; [exact Hd|].
    intros r s' t' _ Ht. apply HQ; [discriminate|exact Ht].
  - apply IH; auto.
  - contradiction.
  - contradiction.
  - contradiction.
  - intro x. apply IH; auto.
  - intro x. apply IH; auto.
  - destruct Hd as [Hn Hd]. intro x. apply IH; [apply Hd|].
    intros r s' t' Hs Ht. rewrite <- app_assoc. apply HQ; [exact Hs|].
    cbn [app forallb backstage]. rewrite Ht, Hn. reflexivity.
  - apply IH; [exact Hd|].
    intros r s' t' Hs Ht. rewrite <- app_assoc. apply HQ; [exact Hs|].
    cbn [app forallb backstage]. exact Ht.
  - destruct Hd as [Hq Hk]. apply IHq; [exact Hq|].
    intros o s1 t1 Hs1 Ht1. cbn beta.
    apply IH; [exact Hk|].
    intros r s2 t2 Hs2 Ht2.
    destruct o as [e|u].
    + replace (((t ++ t1) ++ [EvUnhandled e]) ++ t2)%list
        with (t ++ (t1 ++ [EvUnhandled e] ++ t2))%list
        by (rewrite <- !app_assoc; reflexivity).
      apply HQ; [intro Hw; rewrite (Hs2 Hw); apply Hs1, Hw|].
      rewrite !forallb_app, Ht1, Ht2. reflexivity.
    + rewrite <- app_assoc.
      apply HQ; [intro Hw; rewrite (Hs2 Hw); apply Hs1, Hw|].
      rewrite forallb_app, Ht1, Ht2. reflexivity.
  - destruct Hd as [_ Hd]. apply IH; auto.
Qed.

Lemma discreet_bind {A B : Type} (ok : forall X : Type, request X -> bool)
    (writes : bool) (p : prog A) (f : A -> prog B) :
  discreet ok writes p -> (forall a, discreet ok writes (f a)) ->
  discreet ok writes (bind p f).
Proof.
  revert B f.
  induction p as [A a|A e|A k IH|A g k IH|A k IH|A v k IH|A st body k IH|A k IH
                 |A k IH|A k IH|A X tm rq k IH|A ms k IH|A q IHq k IH|A ms q IHq k IH];
    intros B f Hp Hf; cbn [bind discreet] in *; auto; try tauto.
  - destruct Hp. split; auto.
  - destruct Hp. split; auto.
  - destruct Hp. split; auto.
  - destruct Hp. split; auto.
Qed.

Lemma discreet_try_catch {A : Type} (ok : forall X : Type, request X -> bool)
    (writes : bool) (p : prog A) (h : error -> prog A) :
  discreet ok writes p -> (forall e, discreet ok writes (h e)) ->
  discreet ok writes (try_catch p h).
Proof.
  revert h.
  induction p as [A a|A e|A k IH|A g k IH|A k IH|A v k IH|A st body k IH|A k IH
                 |A k IH|A k IH|A X tm rq k IH|A ms k IH|A q IHq k IH|A ms q IHq k IH];
    intros h Hp Hh; cbn [try_catch discreet] in *; auto; try tauto.
  - destruct Hp. split; auto.
  - destruct Hp. split; auto.
  - destruct Hp. split; auto.
  - destruct Hp. split; auto.
Qed.

Lemma discreet_weaken {A : Type} (ok ok' : forall X : Type, request X -> bool)
    (writes writes' : bool) (p : prog A) :
  (forall (X : Type) (r : request X), ok X r = true -> ok' X r = true) ->
  (writes = true -> writes' = true) ->
  discreet ok writes p -> discreet ok' writes' p.
Proof.
  intros Hn Hw.
  induction p as [A a|A e|A k IH|A g k IH|A k IH|A v k IH|A st body k IH|A k IH
                 |A k IH|A k IH|A X tm rq k IH|A ms k IH|A q IHq k IH|A ms q IHq k IH];
    cbn [discreet]; auto.
  - intros [H1 H2]. split; auto.
  - intros [H1 H2]. split; auto.
  - intros [H1 H2]. split; auto.
  - intros [H1 H2]. split; auto.
Qed.

Ltac discreet_step :=
  match goal with
  | |- True => exact I
  | |- _ /\ _ => split
  | |- forall _, _ => intro
  | |- _ = _ => reflexivity
  | H : discreet ?n ?w ?p |- discreet ?n ?w ?p => exact H
  | |- discreet _ _ (bind _ _) => apply discreet_bind
  | |- discreet _ _ (try_catch _ _) => apply discreet_try_catch
  | |- discreet _ _ (liftE ?x) => destruct x; exact I
  | |- discreet _ _ (if ?c then _ else _) => destruct c
  | |- discreet _ _ (match ?x with _ => _ end) => destruct x
  | |- discreet _ _ _ => progress cbn [discreet get modify resJson mathRandom dateNow sleep
                                       spawn setTimeout axios]
  end.

Ltac discreet_auto := repeat discreet_step.

Lemma discreet_fetchLoop {X : Type} (r : request X) (retries : nat) :
  readRequest r = true ->
  forall (fuel attempts : nat) (delay : Q),
    discreet readRequest false (fetchLoop fuel r retries attempts delay).
Proof.
  intro Hr. induction fuel as [|fuel IH]; intros attempts delay; cbn [fetchLoop].
  - exact I.
  - destruct (attempts <=? retries)%nat; [|exact I].
    cbn [discreet]. split; [auto|]. intros [e|v]; [|exact I].
    destruct (retries <? S attempts)%nat; [exact I|].
    cbn [sleep mathRandom bind discreet]. intro x. apply IH.
Qed.

Lemma discreet_fetchData {X : Type} (r : request X) :
  readRequest r = true -> discreet readRequest false (fetchData r).
Proof.
  intro Hr. unfold fetchData, fetchWithRetry. apply discreet_bind.
  - apply discreet_fetchLoop. exact Hr.
  - intros [data|]; exact I.
Qed.

Lemma discreet_findChoices (name : string) (fields : list field) :
  discreet readRequest false (findChoices name fields).
Proof.
  unfold findChoices. destruct (find _ fields); [|exact I].
  apply discreet_fetchData. reflexivity.
Qed.

Lemma discreet_fetchFormChoices : discreet readRequest false fetchFormChoices.
Proof.
  unfold fetchFormChoices.
  apply discreet_try_catch; [|intro; exact I].
  apply discreet_bind; [apply discreet_fetchData; reflexivity|]. intro mailboxes.
  apply discreet_bind; [apply discreet_fetchData; reflexivity|]. intro fields.
  apply discreet_bind; [apply discreet_findChoices|]. intro statusChoices.
  apply discreet_try_catch; [|intro; exact I].
  apply discreet_bind; [apply discreet_findChoices|]. intro priorityChoices. exact I.
Qed.

Section DiscreetServer.

Variable P : platform.

Lemma discreet_fetchRecentTickets (email : option string) :
  discreet readRequest false (fetchRecentTickets email).
Proof. unfold fetchRecentTickets. discreet_auto. Qed.

Lemma discreet_recentOrFetched (email : string) :
  discreet readRequest false (recentOrFetched P email).
Proof.
  unfold recentOrFetched. apply discreet_bind; [discreet_auto|]. intro s.
  destruct (cachedFor email s).
  - discreet_auto.
  - apply discreet_bind; [apply discreet_fetchRecentTickets|]. discreet_auto.
Qed.

Lemma discreet_recentOrCreated (email : string) :
  discreet readRequest true (recentOrCreated P email).
Proof. unfold recentOrCreated. discreet_auto. Qed.

Lemma discreet_postIntercomNote (conversationId noteBody : string) :
  discreet anyRequest false (postIntercomNote conversationId noteBody).
Proof. unfold postIntercomNote. discreet_auto. Qed.

Lemma discreet_fetchIntercomConversation (conversationId : string) :
  discreet readRequest false (fetchIntercomConversation conversationId).
Proof. unfold fetchIntercomConversation. discreet_auto. Qed.

Lemma discreet_formatConversationAsHtml (conversation : json) :
  discreet readRequest false (formatConversationAsHtml P conversation).
Proof. unfold formatConversationAsHtml. discreet_auto. Qed.

Lemma discreet_downloadFile (url filename : option string) :
  discreet readRequest false (downloadFile url filename).
Proof. unfold downloadFile. discreet_auto. Qed.

Lemma discreet_downloadAll (attachments : list attachment) :
  forall files : list attachmentFile, discreet readRequest false (downloadAll attachments files).
Proof.
  induction attachments as [|a rest IH]; intro files; cbn [downloadAll].
  - exact I.
  - apply discreet_bind; [|intro; apply IH].
    apply discreet_try_catch; [|intro; exact I].
    apply discreet_bind; [apply discreet_downloadFile|]. intros [buf|]; exact I.
Qed.

Lemma discreet_downloadForNote (attachments : list attachment) :
  forall files : list attachmentFile,
    discreet readRequest false (downloadForNote attachments files).
Proof.
  induction attachments as [|a rest IH]; intro files; cbn [downloadForNote].
  - exact I.
  - apply discreet_bind; [|intro; apply IH].
    apply discreet_try_catch; [|intro; exact I].
    apply discreet_bind; [apply discreet_downloadFile|]. intros [buf|]; exact I.
Qed.

Lemma discreet_addConversationTranscriptToTicket (ticketData : ticket_data)
    (conversationId : option string) :
  discreet readRequest false (addConversationTranscriptToTicket P ticketData conversationId).
Proof.
  unfold addConversationTranscriptToTicket.
  destruct (negb (Js.truthy conversationId)); [exact I|].
  apply discreet_bind.
  - apply discreet_try_catch; [|intro; exact I].
    apply discreet_bind; [apply discreet_fetchIntercomConversation|]. intro conversation.
    destruct (falsy conversation); [exact I|].
    apply discreet_bind; [apply discreet_formatConversationAsHtml|]. intro; exact I.
  - intros [[transcriptHtml attachments]|]; [|exact I].
    apply discreet_bind.
    + destruct attachments; [exact I|].
      apply discreet_bind; [apply discreet_downloadAll|]. intro; exact I.
    + intro files. apply discreet_try_catch; [|intro; exact I].
      cbv zeta. exact I.
Qed.

Lemma discreet_createFreshdeskTicket (ticketData : ticket_data) :
  discreet anyRequest false (createFreshdeskTicket P ticketData).
Proof.
  unfold createFreshdeskTicket. apply discreet_try_catch; [|intro; exact I].
  cbv zeta. cbn [axios discreet]. split; [reflexivity|]. intros [e|v]; exact I.
Qed.

Lemma discreet_note_then_done (conversationId noteBody : string) :
  discreet anyRequest true (postIntercomNote conversationId noteBody ;; Ret tt).
Proof.
  apply discreet_bind; [|intro; exact I].
  apply (@discreet_weaken _ anyRequest anyRequest false true); auto. apply discreet_postIntercomNote.
Qed.

Lemma discreet_createTicketBackground
    (email subject description status priority : string)
    (conversationId : option string) :
  discreet anyRequest true (createTicketBackground P email subject description status priority
                        conversationId).
Proof.
  assert (W : forall (A : Type) (p : prog A), discreet readRequest false p -> discreet anyRequest true p).
  { intros A p. apply discreet_weaken; auto. }
  unfold createTicketBackground. apply discreet_try_catch.
  - apply discreet_bind.
    { destruct (Js.truthy conversationId); [|exact I].
      apply W. apply discreet_try_catch; [|intro; exact I].
      apply discreet_bind; [apply discreet_fetchIntercomConversation|]. intro conversation.
      apply discreet_bind; [apply discreet_formatConversationAsHtml|]. intro x.
      cbv zeta. destruct (negb _); exact I. }
    intro description'. cbv zeta.
    apply discreet_bind.
    { destruct (Js.truthy conversationId); [|exact I].
      apply W.
      apply discreet_bind; [apply discreet_addConversationTranscriptToTicket|].
      intro; exact I. }
    intro ticketDataWithTranscript.
    apply discreet_bind.
    { apply (@discreet_weaken _ anyRequest anyRequest false true); auto.
      apply discreet_createFreshdeskTicket. }
    intro ticketResponse.
    apply discreet_bind.
    { destruct (Js.truthy conversationId); [|exact I]. apply discreet_note_then_done. }
    intros _. destruct (negb _); [|exact I].
    apply discreet_bind; [cbn; auto|]. intro now. cbn. auto.
  - intro error. apply discreet_bind.
    { destruct (Js.truthy conversationId); [|exact I]. apply discreet_note_then_done. }
    intros _. destruct (negb _); [|exact I].
    apply discreet_bind; [cbn; auto|]. intro now. cbn. auto.
Qed.

Lemma discreet_mergeBackground (ticketId conversationId : string) :
  discreet anyRequest false (mergeBackground P ticketId conversationId).
Proof.
  assert (W : forall (A : Type) (p : prog A), discreet readRequest false p -> discreet anyRequest false p).
  { intros A p. apply discreet_weaken; auto. }
  assert (N : forall body, discreet anyRequest false (postIntercomNote conversationId body ;; Ret tt)).
  { intro body. apply discreet_bind; [apply discreet_postIntercomNote|intro; exact I]. }
  unfold mergeBackground. apply discreet_try_catch.
  - apply discreet_bind; [apply W, discreet_fetchIntercomConversation|]. intro conversation.
    apply discreet_bind; [apply W, discreet_formatConversationAsHtml|]. intro x.
    cbv zeta. apply discreet_bind.
    + destruct (snd x).
      * cbn [axios discreet]. split; [reflexivity|]. intros [e|v]; exact I.
      * apply discreet_bind; [apply W, discreet_downloadForNote|]. intro files.
        cbn [axios discreet]. split; [reflexivity|]. intros [e|v]; exact I.
    + intros _. apply N.
  - intro error. apply N.
Qed.

End DiscreetServer.


Lemma replies_app (t t' : list event) : replies (t ++ t') = (replies t ++ replies t')%list.
Proof. unfold replies. apply flat_map_app. Qed.

Lemma replies_backstage (ok : forall X : Type, request X -> bool) (t : list event) :
  forallb (backstage ok) t = true -> replies t = [].
Proof.
  induction t as [|e t IH]; [reflexivity|].
  cbn [forallb]. intro H. apply andb_prop in H. destruct H as [He Ht].
  destruct e; cbn in He |- *; try discriminate; auto.
Qed.

Ltac tally :=
  repeat match goal with
         | H : forallb (backstage _) ?t = true |- _ =>
             apply replies_backstage in H
         end;
  unfold branchDone, repliedOnce;
  rewrite ?replies_app;
  repeat match goal with
         | H : replies ?t = _ |- _ => rewrite H
         end;
  cbn [replies flat_map app];
  eauto.

Section Once.

Variable P : platform.

Lemma sendResponse_once (responseData : json) (s : state) (t : list event) :
  replies t = [] ->
  always (sendResponse responseData) s false t (fun r _ l t' => branchDone 200 r l t').
Proof. intro H. cbn. tally. Qed.

Lemma on_default_once (s : state) :
  always on_default s false [] (fun r _ l t' => branchDone 200 r l t').
Proof. cbn. eauto. Qed.

Lemma on_select_ticket_once (componentId : string) (s : state) :
  always (on_select_ticket componentId) s false [] (fun r _ l t' => branchDone 200 r l t').
Proof. cbn. eauto. Qed.

Lemma on_load_more_tickets_once (s : state) :
  always on_load_more_tickets s false [] (fun r _ l t' => branchDone 200 r l t').
Proof.
  unfold on_load_more_tickets. cbn [get bind always].
  destruct (mergePageState s); cbn; eauto.
Qed.

Lemma on_load_more_home_tickets_once (s : state) :
  always (on_load_more_home_tickets P) s false []
    (fun r _ l t' => branchDone 200 r l t').
Proof.
  unfold on_load_more_home_tickets. cbn [get bind always].
  destruct (homePageState s) as [hp|]; [|cbn; eauto].
  cbn [try_catch bind modify always].
  destruct (buildRecentTicketsComponent P _ _) as [e|cs]; cbn; eauto.
Qed.

(** After a discreet step the latch is what it was and no reply is added. *)
Ltac discreet_known :=
  first [ apply discreet_fetchData; reflexivity
        | apply discreet_findChoices
        | apply discreet_fetchFormChoices
        | apply discreet_fetchRecentTickets
        | apply discreet_recentOrFetched
        | apply discreet_recentOrCreated
        | apply discreet_postIntercomNote
        | apply discreet_fetchIntercomConversation
        | apply discreet_formatConversationAsHtml
        | apply discreet_addConversationTranscriptToTicket
        | apply discreet_createFreshdeskTicket
        | apply discreet_createTicketBackground
        | apply discreet_mergeBackground ].

Ltac backstage_step :=
  apply always_bind;
  eapply always_discreet; [discreet_known|];
  let r := fresh "r" in
  let s' := fresh "s'" in
  let t' := fresh "t'" in
  let Hs := fresh "Hs" in
  let Ht := fresh "Ht" in
  intros r s' t' Hs Ht; destruct r; cbn beta iota.

Lemma on_create_ticket_once (customerEmail defaultTitle : string) (s : state) :
  always (on_create_ticket customerEmail defaultTitle) s false []
    (fun r _ l t' => branchDone 200 r l t' \/ branchDone 500 r l t').
Proof.
  unfold on_create_ticket. apply always_bind. apply always_try_catch.
  backstage_step; [cbn; right; tally|].
  backstage_step; [cbn; right; tally|].
  backstage_step; [cbn; right; tally|].
  backstage_step; [cbn; right; tally|].
  cbn. left. tally.
Qed.

Lemma recent_then_sendResponse (email : option string)
    (fetch : string -> prog (list json)) (buttons : list json) (s : state) :
  discreet readRequest true (fetch (default "" email)) ->
  always
    (recent <- (if Js.truthy email then fetch (default "" email) else Ret []) ;;
     sendResponse (canvas (buttons ++ recent)%list)) s false []
    (fun r _ l t' => branchDone 200 r l t').
Proof.
  intro D. apply always_bind. destruct (Js.truthy email).
  - eapply always_discreet; [exact D|].
    intros [e|recent] s' t' Hs Ht; cbn beta iota; cbn; tally.
  - cbn. eauto.
Qed.

Lemma on_back_to_home_once (b : body) (s : state) :
  always (on_back_to_home P b) s false [] (fun r _ l t' => branchDone 200 r l t').
Proof.
  unfold on_back_to_home. cbn [get bind always].
  apply recent_then_sendResponse.
  apply (@discreet_weaken _ readRequest readRequest false true); auto. apply discreet_recentOrFetched.
Qed.

Lemma on_cancel_once (b : body) (s : state) :
  always (on_cancel P b) s false [] (fun r _ l t' => branchDone 200 r l t').
Proof.
  unfold on_cancel. apply always_try_catch. cbn [get bind always].
  eapply always_mono; [|apply recent_then_sendResponse, discreet_recentOrCreated].
  cbn beta. intros [e|u] s' l' t' H; [|exact H].
  destruct H as [[-> H]|[-> [body H]]]; cbn; tally.
Qed.

Lemma on_add_to_existing_ticket_once (b : body) (s : state) :
  always (on_add_to_existing_ticket b) s false [] (fun r _ l t' => branchDone 200 r l t').
Proof.
  unfold on_add_to_existing_ticket. apply always_try_catch. cbn [get bind always].
  destruct (negb (Js.truthy _)); [cbn; eauto|].
  cbn [modify bind always axios]. intros [e|allTickets]; cbn [bind always].
  - cbn. eauto.
  - destruct allTickets as [|ticket rest]; cbn; eauto.
Qed.

Lemma mergeUiResponse_once (b : body) (s : state) (t : list event) :
  replies t = [] ->
  always (mergeUiResponse P b) s false t
    (fun r _ l t' => r = inr tt /\ l = true /\ repliedOnce t').
Proof.
  intro Ht0. unfold mergeUiResponse. apply always_try_catch. cbn [get bind always].
  apply always_bind. destruct (Js.truthy _).
  - eapply always_discreet; [apply discreet_recentOrFetched|].
    intros [e|recent] s' t' Hs Ht; cbn beta iota; cbn; repeat split; tally.
  - cbn. repeat split; tally.
Qed.

Lemma on_merge_ticket_once (b : body) (s : state) :
  always (on_merge_ticket P b) s false [] (fun r _ l t' => branchDone 200 r l t').
Proof.
  unfold on_merge_ticket. cbn [get bind always].
  destruct (conversation b) as [c|]; [|cbn; auto].
  destruct (negb (Js.truthy (selectedTicketId s)) || negb (Js.truthy (cv_id c)));
    [cbn; eauto|].
  cbn [spawn bind always].
  eapply always_mono; [|apply mergeUiResponse_once; reflexivity].
  cbn beta. intros r s' l' t' (-> & -> & body & Hrep).
  eapply always_discreet; [apply discreet_mergeBackground|].
  intros o s2 t2 _ Ht2. cbn beta.
  destruct o as [e|u]; cbn; tally.
Qed.

Lemma submit_tail_once (email : string) (customerEmail : option string)
    (background : prog unit) (s : state) (t : list event) :
  replies t = [] ->
  always
    (recent <- (if Js.truthy customerEmail
                then recentOrCreated P (default "" customerEmail)
                else Ret []) ;;
     (if negb (String.eqb email "")
      then now <- dateNow ;; trackerSet email (inProgressMarker now)
      else Ret tt) ;;
     sendResponse (canvas (deferredHomeButtons ++ recent)%list) ;;
     setTimeout 0 background)
    s false t (fun r _ l t' => branchDone 200 r l t').
Proof.
  intro Ht0.
  assert (Kont : forall (recent : list json) (s' : state) (t' : list event),
             replies t' = [] ->
             always
               ((if negb (String.eqb email "")
                 then now <- dateNow ;; trackerSet email (inProgressMarker now)
                 else Ret tt) ;;
                sendResponse (canvas (deferredHomeButtons ++ recent)%list) ;;
                setTimeout 0 background)
               s' false t' (fun r _ l t'' => branchDone 200 r l t'')).
  { intros recent s' t' Ht'. destruct (negb _); cbn; intros; tally. }
  apply always_bind. destruct (Js.truthy customerEmail).
  - eapply always_discreet; [apply discreet_recentOrCreated|].
    intros [e|recent] s' t' Hs Ht; cbn beta iota.
    + left. split; [reflexivity|]. tally.
    + apply Kont. tally.
  - cbn [always]. apply Kont. exact Ht0.
Qed.

Lemma on_submit_ticket_button_once (b : body) (defaultTitle defaultDescription : string)
    (s : state) :
  always (on_submit_ticket_button P b defaultTitle defaultDescription) s false []
    (fun r _ l t' => branchDone 200 r l t').
Proof.
  unfold on_submit_ticket_button. cbv zeta.
  match goal with |- always (if ?c then _ else _) _ _ _ _ => destruct c end.
  { backstage_step; cbn; tally. }
  match goal with |- always (if ?c then _ else _) _ _ _ _ => destruct c end;
    [cbn; eauto|].
  match goal with |- always (if ?c then _ else _) _ _ _ _ => destruct c end;
    [cbn; eauto|].
  apply always_bind. apply always_try_catch.
  cbn [axios bind always]. intros [e|tickets]; cbn [bind always];
    apply submit_tail_once; reflexivity.
Qed.

(** X1.  Every [/api/submit] event is answered exactly once when the handler runs
    to its end before the 9-second timer fires: whatever the event, the
    server state and the answers of the upstream systems, the handler does not
    throw and sends one reply.  The status is 200, except for the retry panel
    of [create_ticket], sent with status 500. *)
Theorem submit_replies_exactly_once (E : env) (b : body) (s : state) :
  fst (exec E (submitHandler P b) (machine_of s)) = inr tt
  /\ exists (status : Z) (panel : json),
       replies (m_trace (snd (exec E (submitHandler P b) (machine_of s))))
       = [(status, panel)]
       /\ (status = 200%Z \/ (status = 500%Z /\ clicked b "create_ticket" = true)).
Proof.
  set (Q := fun (r : result unit) (_ : state) (_ : bool) (t : list event) =>
              r = inr tt
              /\ exists (status : Z) (panel : json),
                   replies t = [(status, panel)]
                   /\ (status = 200%Z
                       \/ (status = 500%Z /\ clicked b "create_ticket" = true))).
  apply (@always_exec _ E (submitHandler P b) (machine_of s) Q).
  cbn [m_state m_sent m_trace machine_of].
  unfold submitHandler. apply always_try_catch. cbv zeta.
  cbn [modify bind always].
  set (handler := fun e : error =>
         sendResponse (canvas
           [ JObj [ "type" =: "text";
                    "text" =: "An error occurred: " ++ error_message e;
                    "style" =: "error" ];
             tryAgainButton;
             JObj [ "type" =: "divider" ];
             JObj [ "type" =: "text"; "id" =: "recent_tickets_header";
                    "text" =: "Recent Tickets"; "style" =: "header" ];
             noTickets ])).
  assert (Thrown : forall (e : error) (s' : state) (l' : bool) (t' : list event),
             branchDone 200 (inl e) l' t' -> always (handler e) s' l' t' Q).
  { intros e s' l' t' H. subst handler Q.
    destruct H as [[-> H]|[-> [body H]]]; cbn; (split; [reflexivity|]);
      rewrite ?replies_app, H; cbn; eauto. }
  assert (Done : forall (r : result unit) (s' : state) (l' : bool) (t' : list event),
             branchDone 200 r l' t' ->
             match r with
             | inl e => always (handler e) s' l' t' Q
             | inr a => Q (inr a) s' l' t'
             end).
  { intros [e|[]] s' l' t' H; [apply Thrown; exact H|].
    destruct H as [body H]. subst Q. cbn beta. split; [reflexivity|]. eauto. }
  destruct (clicked b "create_ticket") eqn:Hcreate.
  { eapply always_mono; [|apply on_create_ticket_once].
    cbn beta. intros r s' l' t' [H|H]; [apply Done; exact H|].
    destruct r as [e|[]]; [apply Thrown; exact H|].
    destruct H as [body H]. subst Q. cbn beta. split; [reflexivity|]. eauto 6. }
  repeat match goal with
         | |- always (if ?c then _ else _) _ _ _ _ => destruct c
         end;
    (eapply always_mono; [exact Done|]);
    first [ apply on_add_to_existing_ticket_once
          | apply on_select_ticket_once
          | apply on_merge_ticket_once
          | apply on_back_to_home_once
          | apply on_load_more_tickets_once
          | apply on_load_more_home_tickets_once
          | apply on_submit_ticket_button_once
          | apply on_cancel_once
          | apply on_default_once ].
Qed.

End Once.


(** ** Helpers in isolation *)

Lemma fetchLoop_result {X : Type} (E : env) (r : request X) (retries : nat) :
  forall (fuel attempts : nat) (delay : Q) (m : machine),
    (attempts <= retries)%nat -> (retries < attempts + fuel)%nat ->
    exists i : nat,
      (m_calls m <= i <= m_calls m + (retries - attempts))%nat
      /\ fst (exec E (fetchLoop fuel r retries attempts delay) m)
         = match upstream E i r with
           | inl e => inl e
           | inr v => inr (Some v)
           end.
Proof.
  induction fuel as [|fuel IH]; intros attempts delay m Hle Hfuel; [lia|].
  cbn [fetchLoop].
  destruct (Nat.leb_spec attempts retries) as [_|Hbad]; [|lia].
  cbn [exec].
  destruct (upstream E (m_calls m) r) as [e|v] eqn:Hup.
  - destruct (Nat.ltb_spec retries (S attempts)) as [Hlast|Hmore].
    + exists (m_calls m). split; [lia|]. rewrite Hup. reflexivity.
    + cbn [sleep mathRandom bind exec].
      match goal with
      | |- context [exec E (fetchLoop fuel r retries (S attempts) ?d) ?m1] =>
          destruct (IH (S attempts) d m1) as (i & Hi & Hres); [lia|lia|]
      end.
      exists i. split; [cbn in Hi; lia|exact Hres].
  - exists (m_calls m). split; [lia|]. rewrite Hup. reflexivity.
Qed.

(** X2.  What [fetchWithRetry] returns is what the upstream answered to one of
    its [retries + 1] calls: the response of the attempt that succeeded, or
    the error of a failed attempt, thrown.  In particular the [while] loop is
    never left without a [return] or a [throw]: the result is never
    [undefined]. *)
Theorem fetchWithRetry_result_from_upstream (X : Type) (E : env) (r : request X)
    (retries : nat) (initialDelay : Q) (m : machine) :
  exists i : nat,
    (m_calls m <= i <= m_calls m + retries)%nat
    /\ fst (exec E (fetchWithRetry r retries initialDelay) m)
       = match upstream E i r with
         | inl e => inl e
         | inr response => inr (Some response)
         end.
Proof.
  unfold fetchWithRetry.
  destruct (@fetchLoop_result X E r retries (S retries) 0 initialDelay m) as (i & Hi & H);
    [lia|lia|].
  exists i. split; [lia|exact H].
Qed.

(** X3.  [fetchRecentTickets] never throws.  Without an email it returns the empty
    list without calling Freshdesk; otherwise it asks once for the 5 most
    recent tickets and returns them, or the empty list when the call fails.
    It leaves the server state alone. *)
Theorem fetchRecentTickets_never_throws (E : env) (email : option string) (m : machine) :
  let run := exec E (fetchRecentTickets email) m in
  m_state (snd run) = m_state m
  /\ (Js.truthy email = false -> run = (inr [], m))
  /\ (Js.truthy email = true ->
      m_trace (snd run) = (m_trace m ++ [EvHttp None (GetTickets (default "" email) 5)])%list
      /\ fst run = match upstream E (m_calls m) (GetTickets (default "" email) 5) with
                   | inl _ => inr []
                   | inr tickets => inr tickets
                   end).
Proof.
  unfold fetchRecentTickets. destruct (Js.truthy email); cbn [negb].
  - cbn [try_catch axios exec].
    destruct (upstream E (m_calls m) (GetTickets (default "" email) 5)) as [e|tickets];
      cbn; repeat split; auto; discriminate.
  - cbn. repeat split; auto; discriminate.
Qed.

(** X4.  [postIntercomNote] and [fetchIntercomConversation] never throw: each makes
    exactly one call and returns the response data, or [null] when the call
    fails. *)
Theorem notifier_and_conversation_fetch_return_null_on_failure (E : env)
    (conversationId noteBody : string) (m : machine) :
  (let run := exec E (postIntercomNote conversationId noteBody) m in
   m_trace (snd run) = (m_trace m ++ [EvHttp None (PostReply conversationId noteBody)])%list
   /\ m_state (snd run) = m_state m
   /\ fst run = match upstream E (m_calls m) (PostReply conversationId noteBody) with
                | inl _ => inr None
                | inr data => inr (Some data)
                end)
  /\ (let run := exec E (fetchIntercomConversation conversationId) m in
      m_trace (snd run) = (m_trace m ++ [EvHttp None (GetConversation conversationId)])%list
      /\ m_state (snd run) = m_state m
      /\ fst run = match upstream E (m_calls m) (GetConversation conversationId) with
                   | inl _ => inr JNull
                   | inr data => inr data
                   end).
Proof.
  split.
  - unfold postIntercomNote. cbn [try_catch axios bind exec].
    destruct (upstream E (m_calls m) (PostReply conversationId noteBody)); cbn; auto.
  - unfold fetchIntercomConversation. cbn [try_catch axios bind exec].
    destruct (upstream E (m_calls m) (GetConversation conversationId)); cbn; auto.
Qed.

(** X5.  [downloadFile] never throws.  Without a URL it returns [null] without any
    call.  Otherwise it asks for the URL ([&amp;] decoded) with browser
    headers; if that fails it asks once more, for the URL cut at the first
    [?] and without those headers; it returns the data of the first call
    that succeeded, and [null] when both fail. *)
Theorem downloadFile_falls_back_once (E : env) (url filename : option string)
    (m : machine) :
  let run := exec E (downloadFile url filename) m in
  match url with
  | None => run = (inr None, m)
  | Some u =>
      let cleanUrl := Js.replaceAll "&amp;" "&" u in
      let simplifiedUrl := hd "" (Js.split "?" cleanUrl) in
      let first := EvHttp (Some 30000%Z) (Download cleanUrl true) in
      let second := EvHttp (Some 30000%Z) (Download simplifiedUrl false) in
      match upstream E (m_calls m) (Download cleanUrl true) with
      | inr data =>
          fst run = inr (Some data) /\ m_trace (snd run) = (m_trace m ++ [first])%list
      | inl _ =>
          m_trace (snd run) = (m_trace m ++ [first; second])%list
          /\ fst run = match upstream E (S (m_calls m)) (Download simplifiedUrl false) with
                       | inr data => inr (Some data)
                       | inl _ => inr None
                       end
      end
  end.
Proof.
  unfold downloadFile. destruct url as [u|]; [|reflexivity].
  cbv zeta. cbn [try_catch axios bind exec].
  destruct (upstream E (m_calls m) (Download (Js.replaceAll "&amp;" "&" u) true))
    as [e|data]; cbn [try_catch axios bind exec fst snd m_trace emit next_call m_calls].
  - destruct (upstream E (S (m_calls m)) _) as [e'|data];
      cbn [try_catch bind exec fst snd m_trace emit next_call];
      rewrite <- ?app_assoc; auto.
  - auto.
Qed.



(** X7.  [createFreshdeskTicket] makes exactly one call, the creation of the
    ticket, and returns what Freshdesk answers or throws the error of that
    call unchanged.  The temporary field [_intercom_conversation_id] is never
    sent; the email, subject, source, status, priority and attachments are
    sent as given; and without a conversation id the payload is the ticket
    data as given. *)
Theorem createFreshdeskTicket_sends_one_request (P : platform) (E : env)
    (ticketData : ticket_data) (m : machine) :
  exists payload : ticket_data,
    exec E (createFreshdeskTicket P ticketData) m
    = (upstream E (m_calls m) (PostTicket payload),
       next_call (emit (EvHttp None (PostTicket payload)) m))
    /\ Js.truthy (td_intercom_conversation_id payload) = false
    /\ td_email payload = td_email ticketData
    /\ td_subject payload = td_subject ticketData
    /\ td_source payload = td_source ticketData
    /\ td_status payload = td_status ticketData
    /\ td_priority payload = td_priority ticketData
    /\ td_attachments payload = td_attachments ticketData
    /\ (Js.truthy (td_intercom_conversation_id ticketData) = false ->
        payload = ticketData).
Proof.
  unfold createFreshdeskTicket. cbv zeta.
  match goal with
  | |- context [axios None (PostTicket ?d)] => exists d
  end.
  split.
  { rewrite exec_try_catch. cbn [axios exec].
    destruct (upstream E (m_calls m) _) as [e|v]; reflexivity. }
  destruct ticketData as [email subject description source status priority atts cid].
  cbn [td_intercom_conversation_id td_email td_subject td_description td_source
       td_status td_priority td_attachments].
  destruct (Js.truthy cid) eqn:Hcid.
  - destruct cid as [c|]; [|discriminate].
    destruct (_ && _); cbn; repeat split; auto; discriminate.
  - repeat split; auto.
Qed.



(** ** Inline images: the placeholder *)

Lemma includes_dollar_cons (c : ascii) (s : string) :
  Js.includes "$" (String c s) = Ascii.eqb "$" c || Js.includes "$" s.
Proof.
  unfold Js.includes. cbn [Js.indexOf String.prefix].
  destruct (Ascii.ascii_dec "$" c) as [<-|Hne].
  - destruct s; reflexivity.
  - assert (H : Ascii.eqb "$" c = false) by (apply Ascii.eqb_neq; exact Hne).
    rewrite H. cbn [orb]. destruct (Js.indexOf "$" s); reflexivity.
Qed.

Lemma includes_dollar_app (s s' : string) :
  Js.includes "$" (s ++ s') = Js.includes "$" s || Js.includes "$" s'.
Proof.
  induction s as [|c s IH].
  - change ("" ++ s') with s'. destruct (Js.includes "$" s'); reflexivity.
  - change (String c s ++ s') with (String c (s ++ s')).
    rewrite !includes_dollar_cons, IH, orb_assoc. reflexivity.
Qed.

Lemma substitution_plain (matched before after repl : string) :
  Js.includes "$" repl = false -> Js.substitution matched before after repl = repl.
Proof.
  induction repl as [|c r IH]; [reflexivity|].
  rewrite includes_dollar_cons. intro H. apply orb_false_elim in H. destruct H as [Hc Hr].
  assert (Hne : c <> "$"%char).
  { intros ->. discriminate. }
  cbn [Js.substitution]. 
  destruct c as [[] [] [] [] [] [] [] []]; try (rewrite (IH Hr); reflexivity).
  exfalso. apply Hne. reflexivity.
Qed.

(** X9.  A message with one image whose sequential file name has no dollar sign:
    the first occurrence of the tag is replaced by the placeholder
    [[Inline image: image k.ext]], and the text around it is kept. *)
Theorem extractInlineImages_replaces_tag (P : platform) (html tag url : string)
    (startIndex : Z) (i : nat) :
  html <> "" ->
  imgTagRegex P html = [(tag, url)] ->
  Js.indexOf tag html = Some i ->
  let filename := sequentialFilename startIndex (imageExtension P (he_decode P url)) in
  Js.includes "$" filename = false ->
  extractInlineImages P (JStr html) startIndex
  = {| modifiedHtml := JStr (Js.substringTo i html ++ placeholderText filename
                             ++ Js.substringFrom (i + String.length tag) html);
       extractedImages := [(he_decode P url, filename)];
       nextIndex := (startIndex + 1)%Z |}.
Proof.
  intros Hne Hmatch Hidx filename Hplain.
  unfold extractInlineImages.
  destruct (String.eqb_spec html ""); [contradiction|].
  rewrite Hmatch. cbn [fold_left extractImage fst snd app].
  fold filename. unfold Js.replace. rewrite Hidx.
  rewrite substitution_plain; [reflexivity|].
  unfold placeholderText. rewrite !includes_dollar_app, Hplain. reflexivity.
Qed.

(** ** The recent tickets list *)





(** ** Pagination *)

Lemma min_step (o n : nat) : Nat.min (Nat.min o n + 5) n = Nat.min (o + 5) n.
Proof. lia. Qed.


Lemma load_more_clicks (p : pageState) (k : nat) :
  let q := Nat.iter (S k) nextPage p in
  currentOffset q = Nat.min (currentOffset p + 5 * S k) (length (allTickets p))
  /\ hasMore q = (currentOffset q <? length (allTickets p))%nat
  /\ allTickets q = allTickets p
  /\ customerEmail q = customerEmail p.
Proof.
  induction k as [|k IH].
  - cbn [Nat.iter nat_rect]. unfold nextPage, set_hasMore, set_currentOffset.
    cbn [currentOffset allTickets customerEmail hasMore].
    replace (5 * 1)%nat with 5%nat by lia. repeat split.
  - destruct IH as (Ho & Hm & Ha & He).
    change (Nat.iter (S (S k)) nextPage p) with (nextPage (Nat.iter (S k) nextPage p)).
    set (q := Nat.iter (S k) nextPage p) in *.
    cbv zeta. unfold nextPage, set_hasMore, set_currentOffset.
    cbn [currentOffset allTickets customerEmail hasMore].
    rewrite Ha, Ho, min_step.
    replace (currentOffset p + 5 * S k + 5)%nat with (currentOffset p + 5 * S (S k))%nat
      by lia.
    repeat split. exact He.
Qed.

Lemma load_more_home_events (P : platform) (E : env) (more : body) (p : pageState) :
  component_id more = Some "load_more_home_tickets" ->
  forall (k : nat) (m : machine),
    homeCursor m = Some p ->
    homeCursor (Nat.iter k (serve P E more) m) = Some (Nat.iter k nextPage p)
    /\ mergeCursor (Nat.iter k (serve P E more) m) = mergeCursor m
    /\ m_calls (Nat.iter k (serve P E more) m) = m_calls m.
Proof.
  intro Hid. induction k as [|k IH]; intros m Hp; [auto|].
  destruct (IH m Hp) as (Hh & Hm & Hc).
  change (Nat.iter (S k) (serve P E more) m)
    with (serve P E more (Nat.iter k (serve P E more) m)).
  change (Nat.iter (S k) nextPage p) with (nextPage (Nat.iter k nextPage p)).
  set (mk := Nat.iter k (serve P E more) m) in *.
  destruct (@load_more_home_run P E more (newRequest mk) (Nat.iter k nextPage p) Hid)
    as (panel & m' & Hrun & Hh' & Hm' & Hc' & _); [exact Hh|reflexivity|].
  unfold serve. rewrite Hrun. cbn [snd].
  unfold homeCursor, mergeCursor in *. rewrite Hh', Hm', Hc'. cbn. auto.
Qed.

Lemma load_more_merge_events (P : platform) (E : env) (more : body) (p : pageState) :
  component_id more = Some "load_more_tickets" ->
  forall (k : nat) (m : machine),
    mergeCursor m = Some p ->
    mergeCursor (Nat.iter k (serve P E more) m) = Some (Nat.iter k nextPage p)
    /\ homeCursor (Nat.iter k (serve P E more) m) = homeCursor m
    /\ m_calls (Nat.iter k (serve P E more) m) = m_calls m.
Proof.
  intro Hid. induction k as [|k IH]; intros m Hp; [auto|].
  destruct (IH m Hp) as (Hh & Hm & Hc).
  change (Nat.iter (S k) (serve P E more) m)
    with (serve P E more (Nat.iter k (serve P E more) m)).
  change (Nat.iter (S k) nextPage p) with (nextPage (Nat.iter k nextPage p)).
  set (mk := Nat.iter k (serve P E more) m) in *.
  destruct (@load_more_tickets_run P E more (newRequest mk) (Nat.iter k nextPage p) Hid)
    as (m' & Hrun & Hh' & Hm' & Hc' & _); [exact Hh|reflexivity|].
  unfold serve. rewrite Hrun. cbn [snd].
  unfold homeCursor, mergeCursor in *. rewrite Hh', Hm', Hc'. cbn. auto.
Qed.

(** X12.  Load-more events never call Freshdesk: after [k >= 1] of them on the home
    list (or on the merge list) the stored cursor still holds the same
    tickets for the same customer, its offset is the starting offset plus
    [5 k] capped at the length of the list, and [hasMore] is true exactly
    while the offset is short of that length; the cursor of the other list is
    untouched. *)
Theorem load_more_events_walk_the_stored_list (P : platform) (E : env) (more : body)
    (m : machine) (p : pageState) (k : nat) :
  (component_id more = Some "load_more_home_tickets" /\ homeCursor m = Some p)
  \/ (component_id more = Some "load_more_tickets" /\ mergeCursor m = Some p) ->
  let m' := Nat.iter (S k) (serve P E more) m in
  exists q : pageState,
    (if clicked more "load_more_home_tickets"
     then homeCursor m' = Some q /\ mergeCursor m' = mergeCursor m
     else mergeCursor m' = Some q /\ homeCursor m' = homeCursor m)
    /\ currentOffset q = Nat.min (currentOffset p + 5 * S k) (length (allTickets p))
    /\ hasMore q = (currentOffset q <? length (allTickets p))%nat
    /\ allTickets q = allTickets p
    /\ customerEmail q = customerEmail p
    /\ m_calls m' = m_calls m.
Proof.
  intros H m'. subst m'. exists (Nat.iter (S k) nextPage p).
  destruct (load_more_clicks p k) as (Ho & Hm & Ha & He).
  destruct H as [[Hid Hp]|[Hid Hp]].
  - destruct (@load_more_home_events P E more p Hid (S k) m Hp) as (H1 & H2 & H3).
    unfold clicked. rewrite Hid. cbn [String.eqb Ascii.eqb Bool.eqb].
    repeat split; assumption.
  - destruct (@load_more_merge_events P E more p Hid (S k) m Hp) as (H1 & H2 & H3).
    unfold clicked. rewrite Hid. cbn [String.eqb Ascii.eqb Bool.eqb].
    repeat split; assumption.
Qed.

(** ** Choosing the ticket of a merge *)

Lemma string_prefix_app (p t : string) : String.prefix p (p ++ t) = true.
Proof.
  induction p as [|c p IH].
  - destruct t; reflexivity.
  - change (String c p ++ t) with (String c (p ++ t)). cbn [String.prefix].
    destruct (ascii_dec c c); [exact IH|contradiction].
Qed.

Lemma indexOf_prefix (pat s : string) :
  String.prefix pat s = true -> Js.indexOf pat s = Some 0%nat.
Proof. intro H. destruct s; cbn [Js.indexOf]; rewrite H; reflexivity. Qed.

Lemma replace_prefix_select (ticketId : string) :
  Js.replace "select_ticket_" "" ("select_ticket_" ++ ticketId) = ticketId.
Proof.
  unfold Js.replace. rewrite (indexOf_prefix _ _ (string_prefix_app "select_ticket_" ticketId)).
  reflexivity.
Qed.

(** X13.  The merge list offers for each ticket a button [select_ticket_<id>]; a
    click on it stores [<id>] as the selected ticket, calls no upstream
    system, and is answered once with the question whether to merge with
    ticket [#<id>], with the buttons [merge_ticket] and [cancel_merge]. *)
Theorem select_ticket_stores_the_ticket (P : platform) (E : env) (b : body)
    (ticketId : string) (m : machine) :
  component_id b = Some ("select_ticket_" ++ ticketId) ->
  m_sent m = false ->
  exists (panel : json) (m' : machine),
    exec E (submitHandler P b) m = (inr tt, m')
    /\ selectedTicketId (m_state m') = Some ticketId
    /\ m_trace m' = (m_trace m ++ [EvReply 200 panel])%list
    /\ m_calls m' = m_calls m
    /\ map textOf (panelComponents panel)
       = ["Merge conversation with Ticket #" ++ ticketId ++ "?"; ""; ""; ""]
    /\ buttonIds panel = [JStr "merge_ticket"; JStr "cancel_merge"].
Proof.
  intros Hid Hsent.
  change ("select_ticket_" ++ ticketId)
    with (String "s" (String "e" (String "l" (String "e" (String "c" (String "t"
         (String "_" (String "t" (String "i" (String "c" (String "k" (String "e"
         (String "t" (String "_" ticketId)))))))))))))) in Hid.
  unfold submitHandler, clicked. rewrite Hid.
  cbn [String.eqb Ascii.eqb Bool.eqb Js.truthy negb andb default from_option id].
  change (String "s" (String "e" (String "l" (String "e" (String "c" (String "t"
         (String "_" (String "t" (String "i" (String "c" (String "k" (String "e"
         (String "t" (String "_" ticketId))))))))))))))
    with ("select_ticket_" ++ ticketId).
  unfold Js.startsWith. rewrite string_prefix_app.
  rewrite exec_try_catch. cbv zeta. cbn [modify bind exec].
  unfold on_select_ticket. cbv zeta.
  rewrite replace_prefix_select.
  cbn [modify bind exec sendResponse m_sent with_state]. rewrite Hsent.
  cbn [negb exec]. eexists _, _. split; [reflexivity|].
  cbn. repeat split.
Qed.


(** ** [POST /api/initialize] *)

(** X14.  [/api/initialize] never throws and answers exactly once, with status 200,
    after exactly one call to Freshdesk (the 20 most recent tickets of the
    customer), whether that call succeeds or not.  It stores the customer's
    email in the Intercom context, and removes the customer's entry from the
    ticket tracker when that entry is in progress and the email is not empty;
    finished entries and the entries of other customers are kept. *)
Theorem initialize_answers_once (P : platform) (E : env) (b : body) (m : machine) :
  let run := exec E (initialize P b) m in
  let email := initializeEmail b in
  let tracker := ticketTracker (m_state m) in
  let tracker' := ticketTracker (m_state (snd run)) in
  fst run = inr tt
  /\ (exists panel : json,
        m_trace (snd run)
        = (m_trace m ++ [EvHttp None (GetTickets email 20); EvReply 200 panel])%list)
  /\ context_email (m_state (snd run)) = Some email
  /\ (forall k : string, k <> email -> tracker' !! k = tracker !! k)
  /\ tracker' !! email
     = match tracker !! email with
       | Some info => if negb (String.eqb email "") && inProgress info
                      then None else Some info
       | None => None
       end.
Proof.
  cbv zeta.
  set (email := initializeEmail b).
  set (cleaned := fun tr : gmap string marker =>
         match tr !! email with
         | Some info => if negb (String.eqb email "") && inProgress info
                        then delete email tr else tr
         | None => tr
         end).
  assert (H : always (initialize P b) (m_state m) (m_sent m) (m_trace m)
                (fun r s' _ t' =>
                   r = inr tt
                   /\ (exists panel : json,
                         t' = (m_trace m
                               ++ [EvHttp None (GetTickets email 20); EvReply 200 panel])%list)
                   /\ context_email s' = Some email
                   /\ ticketTracker s' = cleaned (ticketTracker (m_state m)))).
  { unfold initialize. apply always_try_catch. cbv zeta. fold email.
    cbn [get bind always].
    assert (K : forall s0 : state,
               ticketTracker s0 = cleaned (ticketTracker (m_state m)) ->
               always
                 (modify (set_intercomContext
                            {| ctx_customerEmail := email;
                               ctx_defaultTitle :=
                                 if negb (String.eqb (Js.orStr (Js.or (contact_name b)
                                                                  (customer_name b)) "") "")
                                 then "Conversation from "
                                      ++ Js.orStr (Js.or (contact_name b) (customer_name b)) ""
                                 else "New Conversation";
                               ctx_defaultDescription :=
                                 Js.orStr (Js.or (match conversation b with
                                                  | Some c => cv_default_description c
                                                  | None => None
                                                  end)
                                                 (match conversation b with
                                                  | Some c => cv_source_body c
                                                  | None => None
                                                  end)) "" |}) ;;
                  modify (set_homePageState
                            {| customerEmail := email; currentOffset := 0;
                               allTickets := []; hasMore := true |}) ;;
                  allTickets <- axios None (GetTickets email 20) ;;
                  updateHome (set_allTickets allTickets) ;;
                  updateHome (set_currentOffset 5) ;;
                  updateHome (set_hasMore (5 <? length allTickets)%nat) ;;
                  s <- get ;;
                  showLoadMore <- match homePageState s with
                                  | Some hp => Ret (hasMore hp)
                                  | None =>
                                      Throw (TypeError "Cannot read properties of undefined")
                                  end ;;
                  recentTicketsComponent <-
                    liftE (buildRecentTicketsComponent P (Js.slice 0 5 allTickets)
                             showLoadMore) ;;
                  resJson 200 (canvas (homeButtons ++ recentTicketsComponent)%list))
                 s0 (m_sent m) (m_trace m)
                 (fun r s' l' t' =>
                    match r with
                    | inl _ =>
                        always
                          (resJson 200 (canvas
                             [ JObj [ "type" =: "text"; "id" =: "error";
                                      "text" =: "Error loading Freshdesk integration. Please try again.";
                                      "align" =: "center"; "style" =: "header" ] ]))
                          s' l' t'
                          (fun r s' _ t' =>
                             r = inr tt
                             /\ (exists panel : json,
                                   t' = (m_trace m
                                         ++ [EvHttp None (GetTickets email 20);
                                             EvReply 200 panel])%list)
                             /\ context_email s' = Some email
                             /\ ticketTracker s' = cleaned (ticketTracker (m_state m)))
                    | inr a =>
                        a = tt
                        /\ (exists panel : json,
                              t' = (m_trace m
                                    ++ [EvHttp None (GetTickets email 20);
                                        EvReply 200 panel])%list)
                        /\ context_email s' = Some email
                        /\ ticketTracker s' = cleaned (ticketTracker (m_state m))
                    end)).
    { intros s0 Hs0. cbn [modify bind always axios].
      intros [e|allTickets]; cbn [bind always].
      - cbn. rewrite <- app_assoc. repeat split; eauto.
      - unfold updateHome. cbn [get modify bind always homePageState set_homePageState].
        destruct (buildRecentTicketsComponent P _ _) as [e|cs]; cbn [liftE bind always].
        + cbn. rewrite <- app_assoc. repeat split; eauto.
        + cbn. rewrite <- app_assoc. repeat split; eauto. }
    destruct (ticketTracker (m_state m) !! email) as [info|] eqn:Hlook.
    - destruct (negb (String.eqb email "") && inProgress info) eqn:Hc.
      + cbn [modify bind always].
        eapply always_mono; [|apply K].
        * cbn beta. intros [e|[]] s' l' t' H; [exact H|].
          destruct H as (_ & H). split; [reflexivity|exact H].
        * cbn. subst cleaned. cbn beta. rewrite Hlook, Hc. reflexivity.
      + cbn [bind always].
        eapply always_mono; [|apply K].
        * cbn beta. intros [e|[]] s' l' t' H; [exact H|].
          destruct H as (_ & H). split; [reflexivity|exact H].
        * subst cleaned. cbn beta. rewrite Hlook, Hc. reflexivity.
    - cbn [bind always].
      eapply always_mono; [|apply K].
      + cbn beta. intros [e|[]] s' l' t' H; [exact H|].
        destruct H as (_ & H). split; [reflexivity|exact H].
      + subst cleaned. cbn beta. rewrite Hlook. reflexivity. }
  apply (@always_exec _ E) in H. cbn beta in H.
  destruct H as (Hr & Ht & Hc & Htr).
  split; [exact Hr|]. split; [exact Ht|]. split; [exact Hc|].
  rewrite Htr. subst cleaned. cbn beta.
  destruct (ticketTracker (m_state m) !! email) as [info|] eqn:Hlook.
  - destruct (negb (String.eqb email "") && inProgress info).
    + split.
      * intros k Hk. apply lookup_delete_ne. congruence.
      * apply lookup_delete_eq.
    + split; [reflexivity|exact Hlook].
  - split; [reflexivity|exact Hlook].
Qed.


(** ** Background tasks *)

Lemma noteCalls_app (t t' : list event) : noteCalls (t ++ t') = (noteCalls t + noteCalls t')%nat.
Proof. unfold noteCalls. rewrite List.filter_app, length_app. reflexivity. Qed.

Lemma ticketCalls_app (t t' : list event) :
  ticketCalls (t ++ t') = (ticketCalls t + ticketCalls t')%nat.
Proof. unfold ticketCalls. rewrite List.filter_app, length_app. reflexivity. Qed.

Lemma ticketNoteCalls_app (t t' : list event) :
  ticketNoteCalls (t ++ t') = (ticketNoteCalls t + ticketNoteCalls t')%nat.
Proof. unfold ticketNoteCalls. rewrite List.filter_app, length_app. reflexivity. Qed.

Lemma reads_count_nothing (t : list event) :
  forallb (backstage readRequest) t = true ->
  noteCalls t = 0%nat /\ ticketCalls t = 0%nat /\ ticketNoteCalls t = 0%nat
  /\ replies t = [].
Proof.
  induction t as [|e t IH]; [repeat split|].
  cbn [forallb]. intro H. apply andb_prop in H. destruct H as [He Ht].
  destruct (IH Ht) as (H1 & H2 & H3 & H4).
  unfold noteCalls, ticketCalls, ticketNoteCalls in *.
  destruct e as [st body|X tm r| | |]; cbn in He; try discriminate;
    try (destruct r; try discriminate); cbn; auto.
Qed.

Ltac count :=
  repeat match goal with
         | H : forallb (backstage readRequest) ?t = true |- _ =>
             apply reads_count_nothing in H;
             let H1 := fresh in let H2 := fresh in let H3 := fresh in let H4 := fresh in
             destruct H as (H1 & H2 & H3 & H4)
         end;
  rewrite ?noteCalls_app, ?ticketCalls_app, ?ticketNoteCalls_app, ?replies_app;
  repeat match goal with
         | H : noteCalls ?t = _ |- _ => rewrite H
         | H : ticketCalls ?t = _ |- _ => rewrite H
         | H : ticketNoteCalls ?t = _ |- _ => rewrite H
         | H : replies ?t = _ |- _ => rewrite H
         end;
  cbn [noteCalls ticketCalls ticketNoteCalls replies flat_map List.filter length app
       is_note is_ticket_creation is_ticket_note];
  rewrite ?app_nil_r;
  try lia; auto.

Section Background.

Variable P : platform.

Lemma always_postIntercomNote (conversationId noteBody : string) (s : state) (l : bool)
    (t : list event) (Q : result (option json) -> state -> bool -> list event -> Prop) :
  (forall r, Q (inr r) s l (t ++ [EvHttp None (PostReply conversationId noteBody)])%list) ->
  always (postIntercomNote conversationId noteBody) s l t Q.
Proof. intro H. cbn. intros [e|v]; apply H. Qed.

Lemma always_createFreshdeskTicket (ticketData : ticket_data) (s : state) (l : bool)
    (t : list event) (Q : result Z -> state -> bool -> list event -> Prop) :
  (forall r payload, Q r s l (t ++ [EvHttp None (PostTicket payload)])%list) ->
  always (createFreshdeskTicket P ticketData) s l t Q.
Proof.
  intro H. unfold createFreshdeskTicket. apply always_try_catch. cbv zeta.
  cbn [axios always]. intros [e|v]; cbn; apply H.
Qed.

Lemma createTicketBackground_always
    (email subject description status priority : string)
    (conversationId : option string) (s : state) (l : bool) (t : list event) :
  always (createTicketBackground P email subject description status priority
            conversationId) s l t (ticketTaskDone email conversationId s l t).
Proof.
  assert (Failing : forall (error : error) (t1 : list event),
             replies t1 = [] -> noteCalls t1 = 0%nat -> (ticketCalls t1 <= 1)%nat ->
             always
               ((if Js.truthy conversationId then
                   postIntercomNote (default "" conversationId)
                     ("Freshdesk Ticket creation failed. Contact Admin." ++ newline
                      ++ "Error: " ++ responseMessage error) ;; Ret tt
                 else Ret tt) ;;
                if negb (String.eqb email "") then
                  now <- dateNow ;;
                  trackerSet email {| inProgress := false; mk_ticketId := None;
                                      mk_error := Some (responseMessage error);
                                      mk_at := now |}
                else Ret tt)
               s l (t ++ t1) (ticketTaskDone email conversationId s l t)).
  { intros error t1 Hr Hn Hc. apply always_bind.
    assert (Tail : forall t2 : list event,
               replies t2 = [] ->
               noteCalls t2 = (if Js.truthy conversationId then 1 else 0)%nat ->
               (ticketCalls t2 <= 1)%nat ->
               always
                 (if negb (String.eqb email "") then
                    now <- dateNow ;;
                    trackerSet email {| inProgress := false; mk_ticketId := None;
                                        mk_error := Some (responseMessage error);
                                        mk_at := now |}
                  else Ret tt)
                 s l (t ++ t2) (ticketTaskDone email conversationId s l t)).
    { intros t2 Hr2 Hn2 Hc2. unfold ticketTaskDone.
      destruct (String.eqb email ""); cbn; intros; repeat split; count.
      eexists. split; [|reflexivity]. split; [reflexivity|]. right. eauto. }
    destruct (Js.truthy conversationId) eqn:Hcid.
    - apply always_bind. apply always_postIntercomNote. intro r. cbn [always].
      rewrite <- app_assoc. apply Tail; count.
    - cbn [always]. apply Tail; count. }
  unfold createTicketBackground. apply always_try_catch.
  apply always_bind.
  eapply always_discreet with (ok := readRequest) (writes := false).
  { destruct (Js.truthy conversationId); [|exact I].
    apply discreet_try_catch; [|intro; exact I].
    apply discreet_bind; [apply discreet_fetchIntercomConversation|]. intro conversation.
    apply discreet_bind; [apply discreet_formatConversationAsHtml|]. intro x.
    cbv zeta. destruct (negb (String.eqb (fst x) "")); exact I. }
  intros r1 s1 t1 Hs1 Ht1. rewrite (Hs1 eq_refl).
  destruct r1 as [e|description']; cbn beta iota.
  { apply Failing; count. }
  cbv zeta. apply always_bind.
  eapply always_discreet with (ok := readRequest) (writes := false).
  { destruct (Js.truthy conversationId); [|exact I].
    apply discreet_bind; [apply discreet_addConversationTranscriptToTicket|].
    intro; exact I. }
  intros r2 s2 t2 Hs2 Ht2. rewrite (Hs2 eq_refl).
  destruct r2 as [e|ticketData]; cbn beta iota.
  { rewrite <- app_assoc. apply Failing; count. }
  apply always_bind. apply always_createFreshdeskTicket.
  intros r3 payload. rewrite <- !app_assoc.
  destruct r3 as [e|ticketResponse].
  { apply Failing; count. }
  apply always_bind.
  assert (Tail : forall t3 : list event,
             replies t3 = [] ->
             noteCalls t3 = (if Js.truthy conversationId then 1 else 0)%nat ->
             (ticketCalls t3 <= 1)%nat ->
             always
               (if negb (String.eqb email "") then
                  now <- dateNow ;;
                  trackerSet email {| inProgress := false;
                                      mk_ticketId := Some ticketResponse;
                                      mk_error := None; mk_at := now |}
                else Ret tt)
               s l (t ++ t3)
               (fun r s' l' t' =>
                  match r with
                  | inl e =>
                      always
                        ((if Js.truthy conversationId then
                            postIntercomNote (default "" conversationId)
                              ("Freshdesk Ticket creation failed. Contact Admin."
                               ++ newline ++ "Error: " ++ responseMessage e) ;; Ret tt
                          else Ret tt) ;;
                         if negb (String.eqb email "") then
                           now <- dateNow ;;
                           trackerSet email {| inProgress := false; mk_ticketId := None;
                                               mk_error := Some (responseMessage e);
                                               mk_at := now |}
                         else Ret tt)
                        s' l' t' (ticketTaskDone email conversationId s l t)
                  | inr a => ticketTaskDone email conversationId s l t (inr a) s' l' t'
                  end)).
  { intros t3 Hr3 Hn3 Hc3. unfold ticketTaskDone.
    destruct (String.eqb email ""); cbn; intros; repeat split; count.
    eexists. split; [|reflexivity]. split; [reflexivity|]. left. eauto. }
  destruct (Js.truthy conversationId) eqn:Hcid.
  - apply always_bind. apply always_postIntercomNote. intro r. cbn [always].
    rewrite <- !app_assoc. apply Tail; count.
  - cbn [always]. apply Tail; count.
Qed.

(** X15.  The background task of a ticket creation never throws and never replies.
    It calls the Completion Notifier exactly once when there is a
    conversation id, and never otherwise; it creates at most one ticket; and
    when the email is not empty it ends by storing a finished entry for that
    email in the ticket tracker (the ticket id, or the error message),
    changing nothing else in the server state. *)
Theorem createTicketBackground_finishes (E : env)
    (email subject description status priority : string)
    (conversationId : option string) (m : machine) :
  let run := exec E (createTicketBackground P email subject description status priority
                       conversationId) m in
  let s := m_state m in
  let s' := m_state (snd run) in
  fst run = inr tt
  /\ m_sent (snd run) = m_sent m
  /\ replies (m_trace (snd run)) = replies (m_trace m)
  /\ noteCalls (m_trace (snd run))
     = (noteCalls (m_trace m) + (if Js.truthy conversationId then 1 else 0))%nat
  /\ (ticketCalls (m_trace (snd run)) <= ticketCalls (m_trace m) + 1)%nat
  /\ (email = "" -> s' = s)
  /\ (email <> "" ->
      (exists mk, ticketTracker s' !! email = Some mk /\ finished mk)
      /\ (forall k, k <> email -> ticketTracker s' !! k = ticketTracker s !! k)
      /\ intercomContext s' = intercomContext s
      /\ homePageState s' = homePageState s
      /\ mergePageState s' = mergePageState s
      /\ selectedTicketId s' = selectedTicketId s).
Proof.
  cbv zeta.
  pose proof (@always_exec _ E _ m _
                (createTicketBackground_always email subject description status priority
                   conversationId (m_state m) (m_sent m) (m_trace m))) as H.
  unfold ticketTaskDone in H.
  destruct H as (Hr & Hl & Hrep & Hn & Hc & Hs).
  do 5 (split; [assumption|]).
  destruct (String.eqb_spec email "") as [->|Hne].
  - split; [intros _; exact Hs|]. intro Hbad. contradiction.
  - split; [intro Hbad; contradiction|]. intros _.
    destruct Hs as (mk & Hmk & ->). cbn [set_ticketTracker ticketTracker intercomContext
                                         homePageState mergePageState selectedTicketId].
    split; [exists mk; split; [apply lookup_insert_eq|exact Hmk]|].
    split; [intros k Hk; apply lookup_insert_ne; congruence|].
    repeat split.
Qed.

Lemma mergeBackground_always (ticketId conversationId : string) (s : state) (l : bool)
    (t : list event) :
  always (mergeBackground P ticketId conversationId) s l t
    (mergeTaskDone conversationId s l t).
Proof.
  assert (Failing : forall (error : error) (t1 : list event),
             replies t1 = [] -> noteCalls t1 = 0%nat -> ticketCalls t1 = 0%nat ->
             (ticketNoteCalls t1 <= 1)%nat ->
             always
               (postIntercomNote conversationId
                  ("Failed to add note to Freshdesk ticket. Details: "
                   ++ responseErrors error) ;; Ret tt)
               s l (t ++ t1) (mergeTaskDone conversationId s l t)).
  { intros error t1 Hr Hn Hc Htn. apply always_bind. apply always_postIntercomNote.
    intro r. cbn [always]. unfold mergeTaskDone. do 3 (split; [reflexivity|]).
    exists t1. eexists. split; [rewrite <- app_assoc; reflexivity|].
    do 4 (split; [assumption|]). intro Hbad. discriminate. }
  assert (Noted : forall t1 : list event,
             replies t1 = [] -> noteCalls t1 = 0%nat -> ticketCalls t1 = 0%nat ->
             ticketNoteCalls t1 = 1%nat ->
             always
               (postIntercomNote conversationId
                  ("Successfully added conversation as a note to Freshdesk ticket #"
                   ++ ticketId ++ ".") ;; Ret tt)
               s l (t ++ t1)
               (fun r s' l' t' =>
                  match r with
                  | inl e =>
                      always
                        (postIntercomNote conversationId
                           ("Failed to add note to Freshdesk ticket. Details: "
                            ++ responseErrors e) ;; Ret tt)
                        s' l' t' (mergeTaskDone conversationId s l t)
                  | inr a => mergeTaskDone conversationId s l t (inr a) s' l' t'
                  end)).
  { intros t1 Hr Hn Hc Htn. apply always_bind. apply always_postIntercomNote.
    intro r. cbn [always]. unfold mergeTaskDone. do 3 (split; [reflexivity|]).
    exists t1. eexists. split; [rewrite <- app_assoc; reflexivity|].
    do 3 (split; [assumption|]). split; [lia|]. intros _. exact Htn. }
  unfold mergeBackground. apply always_try_catch.
  apply always_bind.
  eapply always_discreet with (ok := readRequest) (writes := false);
    [apply discreet_fetchIntercomConversation|].
  intros r1 s1 t1 Hs1 Ht1. rewrite (Hs1 eq_refl).
  destruct r1 as [e|conversation]; cbn beta iota.
  { apply Failing; count. }
  apply always_bind.
  eapply always_discreet with (ok := readRequest) (writes := false);
    [apply discreet_formatConversationAsHtml|].
  intros r2 s2 t2 Hs2 Ht2. rewrite (Hs2 eq_refl).
  destruct r2 as [e|x]; cbn beta iota.
  { rewrite <- app_assoc. apply Failing; count. }
  cbv zeta. apply always_bind.
  destruct (snd x) as [|a rest].
  - cbn [axios always]. intros [e|u]; cbn [always]; rewrite <- !app_assoc.
    + apply Failing; count.
    + apply Noted; count.
  - apply always_bind.
    eapply always_discreet with (ok := readRequest) (writes := false);
      [apply discreet_downloadForNote|].
    intros r3 s3 t3 Hs3 Ht3. rewrite (Hs3 eq_refl).
    destruct r3 as [e|files]; cbn beta iota.
    { rewrite <- !app_assoc. apply Failing; count. }
    cbn [axios always]. intros [e|u]; cbn [always]; rewrite <- !app_assoc.
    + apply Failing; count.
    + apply Noted; count.
Qed.

(** X16.  The background task of a merge never throws, never replies, never creates
    a ticket and leaves the server state alone.  Whatever the upstream systems
    answer, the last thing it does is one call of the Completion Notifier;
    before it, it puts at most one note on the Freshdesk ticket, and the
    Completion Notifier is told of a success only after that note was
    posted. *)
Theorem mergeBackground_notifies_once (E : env) (ticketId conversationId : string)
    (m : machine) :
  let run := exec E (mergeBackground P ticketId conversationId) m in
  fst run = inr tt
  /\ m_state (snd run) = m_state m
  /\ m_sent (snd run) = m_sent m
  /\ exists (before : list event) (noteBody : string),
       m_trace (snd run)
       = (m_trace m ++ before ++ [EvHttp None (PostReply conversationId noteBody)])%list
       /\ replies before = [] /\ noteCalls before = 0%nat /\ ticketCalls before = 0%nat
       /\ (ticketNoteCalls before <= 1)%nat
       /\ (Js.startsWith "Successfully added conversation as a note" noteBody = true
           -> ticketNoteCalls before = 1%nat).
Proof.
  exact (@always_exec _ E _ m _
           (mergeBackground_always ticketId conversationId (m_state m) (m_sent m)
              (m_trace m))).
Qed.

(** X17.  The callback of the 9-second timer never throws and never replies: it
    sets the latch [responseSent] before its own check of the latch, so the
    [res.json] behind that check is never reached.  When the latch was already
    set it does nothing at all. *)
Theorem deadline_callback_never_replies (E : env) (b : body) (m : machine) :
  let run := exec E (deadline P b) m in
  fst run = inr tt
  /\ m_sent (snd run) = true
  /\ replies (m_trace (snd run)) = replies (m_trace m)
  /\ (m_sent m = true -> snd run = m).
Proof.
  cbv zeta.
  assert (H : always (deadline P b) (m_state m) (m_sent m) (m_trace m)
                (fun r _ l' t' => r = inr tt /\ l' = true
                                  /\ replies t' = replies (m_trace m))).
  { unfold deadline. cbn [always].
    destruct (m_sent m); cbn [negb always]; [auto|].
    cbn [get bind always]. apply always_bind.
    assert (Rest : forall (s' : state) (t' : list event),
               replies t' = replies (m_trace m) ->
               always
                 (components <-
                    try_catch
                      (if Js.truthy (Js.or (Js.or (contact_email b) (customer_email b))
                                       (context_email (m_state m)))
                       then
                         data <- axios None
                                   (GetTickets
                                      (default ""
                                         (Js.or (Js.or (contact_email b) (customer_email b))
                                            (context_email (m_state m)))) 5) ;;
                         match data with
                         | _ :: _ => Ret (plainHome ++ flat_map (deadlineTicket P) data)%list
                         | [] => Ret (plainHome ++ [noTickets])%list
                         end
                       else Ret (plainHome ++ [noTickets])%list)
                      (fun _ => Ret (plainHome ++ [noTickets])%list) ;;
                  ReadSent (fun responseSent =>
                    if negb responseSent
                    then ResJson 200 (canvas components) (WriteSent true (Ret tt))
                    else Ret tt))
                 s' true t'
                 (fun r _ l' t'' => r = inr tt /\ l' = true
                                    /\ replies t'' = replies (m_trace m))).
    { intros s' t' Ht'. apply always_bind. apply always_try_catch.
      destruct (Js.truthy _).
      - cbn [axios bind always]. intros [e|[|ticket rest]]; cbn; rewrite replies_app, Ht';
          cbn; rewrite app_nil_r; auto.
      - cbn. auto. }
    destruct (_ && _).
    - cbn [dateNow trackerSet modify bind always]. intro now. apply Rest. reflexivity.
    - cbn [always]. apply Rest. reflexivity. }
  apply (@always_exec _ E) in H. cbn beta in H. destruct H as (Hr & Hl & Hrep).
  do 3 (split; [assumption|]).
  intro Hsent. unfold deadline. cbn [exec]. rewrite Hsent. reflexivity.
Qed.

End Background.


(** ** The REST endpoints of the front end *)

Lemma readOnly_no_replies (t : list event) :
  forallb readOnlyEvent t = true -> replies t = [].
Proof.
  induction t as [|e t IH]; [reflexivity|].
  cbn [forallb]. intro H. apply andb_prop in H. destruct H as [He Ht].
  destruct e; cbn in He |- *; try discriminate; auto.
Qed.

Lemma fetchData_result {X : Type} (E : env) (r : request X) (m : machine) :
  exists i : nat,
    (m_calls m <= i <= m_calls m + 3)%nat
    /\ fst (exec E (fetchData r) m) = upstream E i r.
Proof.
  unfold fetchData, fetchWithRetry. rewrite exec_bind.
  destruct (@fetchLoop_result X E r 3 4 0 500%Q m) as (i & Hi & H); [lia|lia|].
  exists i. split; [lia|].
  destruct (exec E (fetchLoop 4 r 3 0 500) m) as [res m1]. cbn [fst] in H. subst res.
  destruct (upstream E i r) as [e|v]; reflexivity.
Qed.

(** X18.  [GET /api/freshdesk/recent-tickets] never throws and replies exactly
    once.  Without an email in the query and in the stored Intercom context it
    replies 400 without calling Freshdesk.  Otherwise it asks Freshdesk for
    the customer's 5 most recent tickets, at most 4 times, and replies with
    what one of these attempts answered: 200 and one [{id, subject,
    created_at}] object per ticket, or 500 with the message of the error. *)
Theorem recentTicketsEndpoint_replies (E : env) (queryEmail : option string)
    (m : machine) :
  let run := exec E (recentTicketsEndpoint queryEmail) m in
  let email := Js.or queryEmail (context_email (m_state m)) in
  fst run = inr tt
  /\ if Js.truthy email
     then exists i : nat,
            (m_calls m <= i <= m_calls m + 3)%nat
            /\ replies (m_trace (snd run))
               = (replies (m_trace m)
                  ++ [match upstream E i (GetTickets (default "" email) 5) with
                      | inr tickets => (200%Z, JArr (map ticketJson tickets))
                      | inl e =>
                          (500%Z,
                           JObj [ "error" =: "Failed to fetch recent tickets from Freshdesk";
                                  "details" =: error_message e ])
                      end])%list
     else snd run = emit (EvReply 400 (JObj [ "error" =: "Customer email is required" ])) m.
Proof.
  cbv zeta. unfold recentTicketsEndpoint. rewrite exec_try_catch.
  cbv zeta. cbn [get bind exec].
  destruct (Js.truthy (Js.or queryEmail (context_email (m_state m)))) eqn:Hemail;
    cbn [negb]; [|cbn; auto].
  rewrite exec_bind.
  set (r := GetTickets (default "" (Js.or queryEmail (context_email (m_state m)))) 5).
  destruct (fetchData_result E r m) as (i & Hi & Hres).
  pose proof (@fetchData_lookupOnly _ E r m eq_refl) as Hlook.
  destruct (exec E (fetchData r) m) as [res m1]. cbn [fst snd] in Hres, Hlook.
  destruct Hlook as (_ & _ & _ & _ & t & Ht & Hquiet).
  apply readOnly_no_replies in Hquiet.
  subst res. destruct (upstream E i r) as [e|tickets] eqn:Hup.
  - cbn [exec resJson fst snd m_trace emit]. split; [reflexivity|].
    exists i. split; [exact Hi|].
    rewrite Hup, Ht, !replies_app, Hquiet, app_nil_r. reflexivity.
  - cbn [exec resJson fst snd m_trace emit]. split; [reflexivity|].
    exists i. split; [exact Hi|].
    rewrite Hup, Ht, !replies_app, Hquiet, app_nil_r. reflexivity.
Qed.

(** X19.  [GET /api/freshdesk/statuses] never throws, only reads from Freshdesk and
    replies exactly once, with status 200 or 500.  When the ticket fields it
    is given hold no field named [status], it replies 500 without asking for
    any choices. *)
Theorem statusesEndpoint_replies (E : env) (m : machine) :
  let run := exec E statusesEndpoint m in
  fst run = inr tt
  /\ (exists (status : Z) (body : json) (calls : list event),
        m_trace (snd run) = (m_trace m ++ calls ++ [EvReply status body])%list
        /\ forallb readOnlyEvent calls = true
        /\ (status = 200%Z \/ status = 500%Z))
  /\ (forall fields : list field,
        upstream E (m_calls m) GetTicketFields = inr fields ->
        List.find (fun f => String.eqb (f_name f) "status") fields = None ->
        m_trace (snd run)
        = (m_trace m
           ++ [EvHttp (Some 10000%Z) GetTicketFields;
               EvReply 500 (JObj [ "error" =: "Failed to fetch statuses from Freshdesk" ])])%list).
Proof.
  cbv zeta. unfold statusesEndpoint. rewrite exec_try_catch, exec_bind.
  split; [|split].
  - destruct (exec E (fetchData GetTicketFields) m) as [[e|fields] m1]; [reflexivity|].
    destruct (find _ fields) as [f|]; [|reflexivity].
    rewrite exec_bind.
    destruct (exec E (fetchData (GetTicketField (f_id f))) m1) as [[e|choices] m2];
      reflexivity.
  - pose proof (@fetchData_lookupOnly _ E GetTicketFields m eq_refl) as H1.
    destruct (exec E (fetchData GetTicketFields) m) as [[e|fields] m1]; cbn [snd] in H1.
    { destruct H1 as (_ & _ & _ & _ & t & Ht & Hq).
      cbn [exec resJson snd m_trace emit]. rewrite Ht, <- app_assoc. eauto 8. }
    destruct (find _ fields) as [f|].
    2:{ destruct H1 as (_ & _ & _ & _ & t & Ht & Hq).
        cbn [exec resJson snd m_trace emit]. rewrite Ht, <- app_assoc. eauto 8. }
    rewrite exec_bind.
    pose proof (@fetchData_lookupOnly _ E (GetTicketField (f_id f)) m1 eq_refl) as H2.
    pose proof (@lookupOnly_trans _ _ _ H1 H2) as H12.
    destruct (exec E (fetchData (GetTicketField (f_id f))) m1) as [[e|choices] m2];
      cbn [snd] in H12; destruct H12 as (_ & _ & _ & _ & t & Ht & Hq);
      cbn [exec resJson snd m_trace emit]; rewrite Ht, <- app_assoc; eauto 8.
  - intros fields Hup Hfind. unfold fetchData at 1, fetchWithRetry.
    rewrite exec_bind. cbn [fetchLoop Nat.leb exec]. rewrite Hup.
    cbn [exec]. rewrite Hfind. cbn [exec resJson snd m_trace emit next_call].
    rewrite <- app_assoc. reflexivity.
Qed.

(** ** Form validation and the merge list: edge cases *)


(** X21.  [add_to_existing_ticket] without a customer email is answered at once,
    without any call to Freshdesk and without touching the merge cursor; when
    the call for the tickets fails, or when the customer has no tickets, it is
    answered with the matching message, and the merge cursor it has reset
    stays empty. *)
Theorem add_to_existing_ticket_edge_cases (P : platform) (E : env) (b : body)
    (m : machine) :
  m_sent m = false ->
  component_id b = Some "add_to_existing_ticket" ->
  let run := exec E (submitHandler P b) m in
  let email := submitEmail b in
  (email = "" ->
   exists panel,
     m_trace (snd run) = (m_trace m ++ [EvReply 200 panel])%list
     /\ mentions "Could not find customer email" panel = true
     /\ buttonIds panel = [JStr "cancel"]
     /\ mergePageState (m_state (snd run)) = mergePageState (m_state m))
  /\ (email <> "" ->
      match upstream E (m_calls m) (GetTickets email 20) with
      | inl _ =>
          exists panel,
            m_trace (snd run)
            = (m_trace m ++ [EvHttp None (GetTickets email 20); EvReply 200 panel])%list
            /\ mentions "Error fetching recent tickets" panel = true
            /\ buttonIds panel = [JStr "cancel"]
            /\ mergePageState (m_state (snd run)) = Some (cursor email 0 [] true)
      | inr [] =>
          exists panel,
            m_trace (snd run)
            = (m_trace m ++ [EvHttp None (GetTickets email 20); EvReply 200 panel])%list
            /\ mentions "No existing tickets found" panel = true
            /\ buttonIds panel = [JStr "back_to_home"]
            /\ mergePageState (m_state (snd run)) = Some (cursor email 0 [] true)
      | inr (_ :: _) => True
      end).
Proof.
  intros Hsent Hid. cbv zeta.
  unfold submitHandler, clicked. rewrite Hid.
  cbn -[on_add_to_existing_ticket submitEmail].
  rewrite exec_try_catch. unfold on_add_to_existing_ticket.
  rewrite exec_try_catch. cbn [get bind exec m_state with_state context_email
                               set_intercomContext intercomContext ctx_customerEmail].
  destruct (String.eqb_spec (submitEmail b) "") as [Hnone|Hsome].
  - split; [|intro Hbad; contradiction]. intros _.
    assert (Hc : Js.truthy (Js.or (Some (submitEmail b)) (customer_email b)) = false).
    { rewrite Hnone. unfold Js.or. cbn [Js.truthy String.eqb negb].
      unfold submitEmail, Js.orStr in Hnone.
      unfold Js.or in Hnone.
      destruct (Js.truthy (contact_email b)) eqn:H1.
      - rewrite H1 in Hnone. unfold Js.truthy in H1.
        destruct (contact_email b) as [c|]; [|discriminate].
        cbn in Hnone. rewrite Hnone in H1. discriminate.
      - destruct (Js.truthy (customer_email b)) eqn:H2; [|reflexivity].
        unfold Js.truthy in H2. destruct (customer_email b) as [c|]; [|discriminate].
        cbn in Hnone. rewrite Hnone in H2. discriminate. }
    rewrite Hc. cbn [negb exec sendResponse m_sent with_state]. rewrite Hsent.
    cbn [negb exec snd m_trace emit with_sent clear_deadline m_state with_state
         set_intercomContext mergePageState].
    eexists. split; [reflexivity|]. repeat split.
  - split; [intro Hbad; contradiction|]. intros _.
    assert (Hc : Js.or (Some (submitEmail b)) (customer_email b) = Some (submitEmail b)).
    { unfold Js.or, Js.truthy. destruct (String.eqb_spec (submitEmail b) "");
        [contradiction|reflexivity]. }
    rewrite Hc.
    assert (Ht : Js.truthy (Some (submitEmail b)) = true).
    { unfold Js.truthy. destruct (String.eqb_spec (submitEmail b) "");
        [contradiction|reflexivity]. }
    rewrite Ht.
    cbn [negb default from_option id modify bind exec axios m_calls with_state].
    destruct (upstream E (m_calls m) (GetTickets (submitEmail b) 20)) as [e|[|ticket rest]].
    + cbn [exec bind try_catch sendResponse m_sent with_state with_sent emit next_call].
      rewrite Hsent. cbn. eexists. split; [rewrite <- app_assoc; reflexivity|].
      repeat split.
    + cbn [exec bind try_catch sendResponse m_sent with_state with_sent emit next_call].
      rewrite Hsent. cbn. eexists. split; [rewrite <- app_assoc; reflexivity|].
      repeat split.
    + exact I.
Qed.


(** ** Scenarios *)


Lemma extractInlineImages_replaces_tag_witness :
  extractInlineImages pngPlatform (JStr pngHtml) 3
  = {| modifiedHtml := JStr "Look: [Inline image: image 3.png] ok";
       extractedImages := [(pngUrl, "image 3.png")];
       nextIndex := 4%Z |}.
Proof.
  refine (@extractInlineImages_replaces_tag pngPlatform pngHtml pngTag pngUrl 3 6 _ _ _ _).
  - discriminate.
  - reflexivity.
  - reflexivity.
  - reflexivity.
Defined.


Lemma load_more_events_walk_the_stored_list_witness :
  let more := customerBody (Some "load_more_home_tickets") in
  let m := snd (exec (envTickets 12) (initialize demo (customerBody None))
                  (machine_of initial_state)) in
  let m' := Nat.iter 2 (serve demo (envTickets 12) more) m in
  exists q : pageState,
    (homeCursor m' = Some q /\ mergeCursor m' = mergeCursor m)
    /\ currentOffset q = 12%nat
    /\ hasMore q = false
    /\ allTickets q = sampleTickets 12
    /\ customerEmail q = "ada@example.com"
    /\ m_calls m' = m_calls m.
Proof.
  cbv zeta.
  destruct (@load_more_events_walk_the_stored_list demo (envTickets 12)
              (customerBody (Some "load_more_home_tickets"))
              (snd (exec (envTickets 12) (initialize demo (customerBody None))
                      (machine_of initial_state)))
              (cursor "ada@example.com" 5 (sampleTickets 12) true) 1)
    as (q & Hcursor & Hoffset & Hmore & Hall & Hemail & Hcalls).
  { left. split; [reflexivity|vm_compute; reflexivity]. }
  exists q. split; [exact Hcursor|]. split; [exact Hoffset|].
  split; [rewrite Hmore, Hoffset; reflexivity|].
  split; [exact Hall|]. split; [exact Hemail|exact Hcalls].
Defined.

Lemma select_ticket_stores_the_ticket_witness :
  exists (panel : json) (m' : machine),
    exec envOk (submitHandler demo (customerBody (Some ("select_ticket_" ++ "42"))))
         (machine_of initial_state)
    = (inr tt, m')
    /\ selectedTicketId (m_state m') = Some "42"
    /\ m_trace m' = ([] ++ [EvReply 200 panel])%list
    /\ m_calls m' = 0%nat
    /\ map textOf (panelComponents panel)
       = ["Merge conversation with Ticket #" ++ "42" ++ "?"; ""; ""; ""]
    /\ buttonIds panel = [JStr "merge_ticket"; JStr "cancel_merge"].
Proof.
  apply (@select_ticket_stores_the_ticket demo envOk
           (customerBody (Some ("select_ticket_" ++ "42"))) "42" (machine_of initial_state)).
  - reflexivity.
  - reflexivity.
Defined.


Lemma add_to_existing_ticket_edge_cases_witness :
  let b := customerBody (Some "add_to_existing_ticket") in
  let run := exec (envTickets 0) (submitHandler demo b) (machine_of initial_state) in
  exists panel,
    m_trace (snd run)
    = [EvHttp None (GetTickets "ada@example.com" 20); EvReply 200 panel]
    /\ mentions "No existing tickets found" panel = true
    /\ buttonIds panel = [JStr "back_to_home"]
    /\ mergePageState (m_state (snd run)) = Some (cursor "ada@example.com" 0 [] true).
Proof.
  refine (proj2 (@add_to_existing_ticket_edge_cases demo (envTickets 0)
                   (customerBody (Some "add_to_existing_ticket"))
                   (machine_of initial_state) _ _) _).
  - reflexivity.
  - reflexivity.
  - discriminate.
Defined.


(** ** The event loop: never two replies *)

Lemma guarded_mono {A : Type} (p : prog A) :
  forall (l l' f : bool) (Q Q' : result A -> bool -> bool -> Prop),
    (l = true -> l' = true) ->
    (forall r a b g, (a = true -> b = true) -> Q r a g -> Q' r b g) ->
    guarded p l f Q -> guarded p l' f Q'.
Proof.
  induction p as [A a|A e|A k IH|A g k IH|A k IH|A v k IH|A st body k IH|A k IH
                 |A k IH|A k IH|A X tm rq k IH|A ms k IH|A q IHq k IH|A ms q IHq k IH];
    intros l l' f Q Q' Hl HQ; cbn [guarded].
  - apply HQ. exact Hl.
  - apply HQ. exact Hl.
  - intros H s. eapply IH; eauto.
  - eapply IH; eauto.
  - intros [H1 H2]. split.
    + eapply IH; [| |exact H1]; auto.
    + intros ->. destruct l; [specialize (Hl eq_refl); discriminate|].
      eapply IH; [| |exact (H2 eq_refl)]; auto.
  - intros [-> H]. split; [reflexivity|]. eapply IH; [| |exact H]; auto.
  - intros [-> H]. split; [reflexivity|]. eapply IH; eauto.
  - eapply IH; eauto.
  - intros H x. eapply IH; eauto.
  - intros H x. eapply IH; eauto.
  - intros H x. eapply IH; eauto.
  - eapply IH; eauto.
  - intros (given & Hg & Hq & Hk). exists given. split; [exact Hg|]. split.
    + eapply IHq; [exact Hl| |exact Hq]. auto.
    + eapply IH; eauto.
  - intros (given & Hg & Hq & Hk). exists given. split; [exact Hg|]. split.
    + eapply IHq; [exact Hl| |exact Hq]. auto.
    + eapply IH; eauto.
Qed.

Lemma guarded_bind {A B : Type} (p : prog A) (f : A -> prog B) :
  forall (l g : bool) (Q : result B -> bool -> bool -> Prop),
    guarded p l g (fun r l' g' =>
      match r with
      | inl e => Q (inl e) l' g'
      | inr a => guarded (f a) l' g' Q
      end) ->
    guarded (bind p f) l g Q.
Proof.
  revert B f.
  induction p as [A a|A e|A k IH|A h k IH|A k IH|A v k IH|A st body k IH|A k IH
                 |A k IH|A k IH|A X tm rq k IH|A ms k IH|A q IHq k IH|A ms q IHq k IH];
    intros B f l g Q; cbn [bind guarded]; eauto.
  - intros [H1 H2]. split; auto.
  - intros [H1 H2]. split; auto.
  - intros [H1 H2]. split; auto.
  - intros (given & Hg & Hq & Hk). exists given. auto.
  - intros (given & Hg & Hq & Hk). exists given. auto.
Qed.

Lemma guarded_try_catch {A : Type} (p : prog A) (h : error -> prog A) :
  forall (l g : bool) (Q : result A -> bool -> bool -> Prop),
    guarded p l g (fun r l' g' =>
      match r with
      | inl e => guarded (h e) l' g' Q
      | inr a => Q (inr a) l' g'
      end) ->
    guarded (try_catch p h) l g Q.
Proof.
  revert h.
  induction p as [A a|A e|A k IH|A f k IH|A k IH|A v k IH|A st body k IH|A k IH
                 |A k IH|A k IH|A X tm rq k IH|A ms k IH|A q IHq k IH|A ms q IHq k IH];
    intros h l g Q; cbn [try_catch guarded]; eauto.
  - intros [H1 H2]. split; auto.
  - intros [H1 H2]. split; auto.
  - intros [H1 H2]. split; auto.
  - intros (given & Hg & Hq & Hk). exists given. auto.
  - intros (given & Hg & Hq & Hk). exists given. auto.
Qed.

(** A discreet program needs no right and keeps what is known. *)
Lemma guarded_discreet {A : Type} (ok : forall X : Type, request X -> bool)
    (writes : bool) (p : prog A) :
  discreet ok writes p ->
  forall (l g : bool) (Q : result A -> bool -> bool -> Prop),
    (forall r l', (l = true -> l' = true) -> Q r l' g) ->
    guarded p l g Q.
Proof.
  induction p as [A a|A e|A k IH|A f k IH|A k IH|A v k IH|A st body k IH|A k IH
                 |A k IH|A k IH|A X tm rq k IH|A ms k IH|A q IHq k IH|A ms q IHq k IH];
    intros Hd l g Q HQ; cbn [discreet guarded] in *; try contradiction.
  - apply HQ. auto.
  - apply HQ. auto.
  - intro s. apply IH; auto.
  - destruct Hd as [_ Hd]. apply IH; auto.
  - split.
    + apply IH; [apply Hd|]. intros r l' Hl'. apply HQ. auto.
    + intros ->. apply IH; [apply Hd|]. exact HQ.
  - intro x. apply IH; auto.
  - intro x. apply IH; auto.
  - destruct Hd as [_ Hd]. intro x. apply IH; auto.
  - apply IH; auto.
  - destruct Hd as [Hq Hk]. exists false. split; [discriminate|]. split.
    + apply IHq; auto.
    + apply IH; auto.
  - destruct Hd as [Hq Hk]. exists false. split; [discriminate|]. split.
    + apply IHq; auto.
    + apply IH; auto.
Qed.

Lemma rights_app (f1 f2 : list bool) : rights (f1 ++ f2) = (rights f1 + rights f2)%nat.
Proof. unfold rights. rewrite List.filter_app, length_app. reflexivity. Qed.

Lemma taskOK_grows (m m' : machine) (w : pending) (free : bool) :
  (m_sent m = true -> m_sent m' = true) -> taskOK m w free -> taskOK m' w free.
Proof.
  intros Hs (latched & Hl & Hw). exists latched. split; [|exact Hw]. auto.
Qed.

Lemma Forall2_taskOK_grows (m m' : machine) (ws : list pending) (flags : list bool) :
  (m_sent m = true -> m_sent m' = true) ->
  Forall2 (taskOK m) ws flags -> Forall2 (taskOK m') ws flags.
Proof.
  intros Hs H. induction H; constructor; [eapply taskOK_grows; eauto|assumption].
Qed.

Lemma Forall2_remove {A : Type} (R : A -> bool -> Prop) (ws : list A) (flags : list bool) :
  Forall2 R ws flags ->
  forall (i : nat) (w : A),
    nth_error ws i = Some w ->
    exists f : bool,
      R w f
      /\ Forall2 R (firstn i ws ++ skipn (S i) ws) (firstn i flags ++ skipn (S i) flags)
      /\ rights flags
         = (rights (firstn i flags ++ skipn (S i) flags) + (if f then 1 else 0))%nat.
Proof.
  induction 1 as [|w0 f0 ws flags Hw HF IH]; intros i w Hi.
  - destruct i; discriminate.
  - destruct i as [|i]; cbn [nth_error] in Hi.
    + inversion Hi; subst. exists f0. split; [exact Hw|]. split; [exact HF|].
      change (firstn 0 (f0 :: flags) ++ skipn 1 (f0 :: flags))%list with flags.
      unfold rights. destruct f0; simpl; lia.
    + destruct (IH i w Hi) as (f & Hf & HF' & Hr).
      exists f. split; [exact Hf|]. split.
      * change (firstn (S i) (w0 :: ws) ++ skipn (S (S i)) (w0 :: ws))%list
          with (w0 :: (firstn i ws ++ skipn (S i) ws))%list.
        change (firstn (S i) (f0 :: flags) ++ skipn (S (S i)) (f0 :: flags))%list
          with (f0 :: (firstn i flags ++ skipn (S i) flags))%list.
        constructor; assumption.
      * change (firstn (S i) (f0 :: flags) ++ skipn (S (S i)) (f0 :: flags))%list
          with (f0 :: (firstn i flags ++ skipn (S i) flags))%list.
        unfold rights in *. destruct f0; simpl; lia.
Qed.

Section Frugal.

Variable E : env.

Lemma kept_silent (free : bool) (L : loop) (flags : list bool) (f : machine -> machine)
    (L' : loop) :
  m_sent (f (l_machine L)) = m_sent (l_machine L) ->
  m_trace (f (l_machine L)) = m_trace (l_machine L) ->
  kept free (on_machine f L) L' flags -> kept free L L' flags.
Proof.
  intros Hs Ht (flags' & HF & Hn & Hg & Hd). exists flags'.
  split; [exact HF|]. split.
  - unfold replyCount in *. cbn [on_machine l_machine] in Hn. rewrite Ht in Hn. exact Hn.
  - split; [|exact Hd]. cbn [on_machine l_machine] in Hg. rewrite Hs in Hg. exact Hg.
Qed.

Lemma run_task_frugal {A : Type} (p : prog A) :
  forall (latched free : bool) (L : loop) (flags : list bool),
    guarded p latched free (fun _ _ _ => True) ->
    (latched = true -> m_sent (l_machine L) = true) ->
    Forall2 (taskOK (l_machine L)) (l_pending L) flags ->
    kept free L (run_task E p L) flags.
Proof.
  induction p as [A a|A e|A k IH|A f k IH|A k IH|A v k IH|A st body k IH|A k IH
                 |A k IH|A k IH|A X tm rq k IH|A ms k IH|A q IHq k IH|A ms q IHq k IH];
    intros latched free L flags Hp Hl HF; cbn [run_task guarded] in *.
  - exists flags. split; [exact HF|]. split; [lia|]. auto.
  - exists flags. split; [exact HF|]. split; [|auto].
    unfold replyCount. cbn [on_machine l_machine emit m_trace].
    rewrite replies_app. cbn. rewrite app_nil_r. lia.
  - eapply IH; eauto.
  - eapply kept_silent; [| |eapply IH; eauto]; reflexivity.
  - destruct (m_sent (l_machine L)) eqn:Hsent.
    + eapply IH; [apply Hp| |exact HF]. auto.
    + destruct latched; [specialize (Hl eq_refl); discriminate|].
      eapply IH; [apply Hp; reflexivity| |exact HF]. discriminate.
  - destruct Hp as [-> Hp].
    destruct (IH true free (on_machine (with_sent true) L) flags Hp) as
      (flags' & HF' & Hn & Hg & Hd).
    + reflexivity.
    + eapply Forall2_taskOK_grows; [|exact HF]. reflexivity.
    + exists flags'. split; [exact HF'|]. split; [exact Hn|]. split; [|exact Hd].
      intros _. apply Hg. reflexivity.
  - destruct Hp as [-> Hp].
    destruct (IH latched false (on_machine (emit (EvReply st body)) L) flags Hp) as
      (flags' & HF' & Hn & Hg & Hd).
    + exact Hl.
    + exact HF.
    + exists flags'. split; [exact HF'|]. split; [|split; [exact Hg|exact Hd]].
      unfold replyCount in *. cbn [on_machine l_machine emit m_trace] in Hn.
      rewrite replies_app in Hn. cbn in Hn. rewrite length_app in Hn. cbn in Hn. lia.
  - eapply kept_silent; [| |eapply IH; eauto]; reflexivity.
  - eapply kept_silent; [| |eapply IH; eauto]; reflexivity.
  - eapply kept_silent; [| |eapply IH; eauto]; reflexivity.
  - exists (flags ++ [free])%list. split; [|split; [|auto]].
    + cbn [suspend on_machine l_pending l_machine].
      apply Forall2_app; [exact HF|]. constructor; [|constructor].
      exists latched. split; [exact Hl|exact Hp].
    + rewrite rights_app. unfold replyCount.
      cbn [suspend on_machine l_machine emit m_trace]. rewrite replies_app.
      cbn. rewrite app_nil_r. unfold rights. destruct free; cbn; lia.
  - exists (flags ++ [free])%list. split; [|split; [|auto]].
    + cbn [suspend on_machine l_pending l_machine].
      apply Forall2_app; [exact HF|]. constructor; [|constructor].
      exists latched. split; [exact Hl|exact Hp].
    + rewrite rights_app. unfold replyCount.
      cbn [suspend on_machine l_machine emit m_trace]. rewrite replies_app.
      cbn. rewrite app_nil_r. unfold rights. destruct free; cbn; lia.
  - destruct Hp as (given & Hgiven & Hq & Hk).
    destruct (IHq latched given L flags Hq Hl HF) as (flags1 & HF1 & Hn1 & Hg1 & Hd1).
    destruct (IH latched (if given then false else free) (run_task E q L) flags1 Hk)
      as (flags2 & HF2 & Hn2 & Hg2 & Hd2).
    + intro H. apply Hg1, Hl, H.
    + exact HF1.
    + exists flags2. split; [exact HF2|]. split; [|split; [auto|congruence]].
      destruct given, free; cbn [id] in *;
        try (specialize (Hgiven eq_refl); discriminate); lia.
  - destruct Hp as (given & Hgiven & Hq & Hk).
    destruct (IH latched (if given then false else free) (suspend (PTimer q) L)
                (flags ++ [given])%list Hk) as (flags2 & HF2 & Hn2 & Hg2 & Hd2).
    + exact Hl.
    + cbn [suspend l_pending l_machine].
      apply Forall2_app; [exact HF|]. constructor; [|constructor].
      exists latched. split; [exact Hl|exact Hq].
    + exists flags2. split; [exact HF2|]. split; [|split; [exact Hg2|exact Hd2]].
      rewrite rights_app in Hn2. unfold replyCount in *.
      cbn [suspend l_machine] in Hn2.
      assert (Hone : rights [given] = if given then 1%nat else 0%nat)
        by (destruct given; reflexivity).
      rewrite Hone in Hn2.
      destruct given, free;
        try (specialize (Hgiven eq_refl); discriminate); lia.
Qed.

Lemma step_frugal (c : occurrence) (L : loop) : frugal L -> frugal (step E c L).
Proof.
  intros [(flags & HF & Hn) Hdl]. destruct c as [i answer|]; cbn [step].
  - destruct (nth_error (l_pending L) i) as [w|] eqn:Hw;
      [|split; [exists flags; auto|exact Hdl]].
    destruct (Forall2_remove HF i Hw) as (f & (latched & Hl & Hcont) & HF' & Hr).
    assert (K : forall (A : Type) (p : prog A),
               guarded p latched f (fun _ _ _ => True) ->
               frugal (run_task E p (drop_pending i L))).
    { intros A p Hp.
      destruct (@run_task_frugal A p latched f (drop_pending i L)
                  (firstn i flags ++ skipn (S i) flags)%list Hp Hl HF')
        as (flags' & HF2 & Hn2 & _ & Hd2).
      split.
      - exists flags'. split; [exact HF2|].
        unfold replyCount in *. cbn [drop_pending l_machine] in Hn2. lia.
      - intros d Hd. apply Hdl. rewrite Hd2 in Hd. exact Hd. }
    destruct w as [A X rq k|A k|p]; apply K; auto.
  - destruct (l_deadline L) as [p|] eqn:Hd;
      [|split; [exists flags; auto|intros d Hd'; congruence]].
    destruct (m_deadline_cleared (l_machine L));
      [split; [exists flags; auto|intros d Hd'; apply Hdl; congruence]|].
    destruct (@run_task_frugal unit p false false
                (on_machine (emit EvDeadline) (drop_deadline L)) flags)
      as (flags' & HF2 & Hn2 & _ & Hd2).
    + apply Hdl. reflexivity.
    + discriminate.
    + exact HF.
    + split.
      * exists flags'. split; [exact HF2|].
        unfold replyCount in *.
        cbn [on_machine drop_deadline l_machine emit m_trace] in Hn2.
        rewrite replies_app in Hn2. cbn in Hn2. rewrite app_nil_r in Hn2. lia.
      * intros d Hd'. rewrite Hd2 in Hd'. discriminate.
Qed.

Lemma run_schedule_frugal (schedule : list occurrence) :
  forall L : loop, frugal L -> frugal (run_schedule E schedule L).
Proof.
  induction schedule as [|c rest IH]; intros L HL; [exact HL|].
  cbn [run_schedule fold_left]. apply IH. apply step_frugal. exact HL.
Qed.

End Frugal.


Section FrugalServer.

Variable P : platform.

Lemma guarded_sendResponse (responseData : json) (l f : bool)
    (Q : result unit -> bool -> bool -> Prop) :
  l = true \/ f = true ->
  Q (inr tt) true f -> Q (inr tt) true false ->
  guarded (sendResponse responseData) l f Q.
Proof.
  intros Hor H1 H2. cbn. split; [exact H1|]. intros ->.
  destruct Hor as [Hbad| ->]; [discriminate|]. auto.
Qed.

Lemma guarded_sendResponse_mayCatch (responseData : json) (l : bool) :
  guarded (sendResponse responseData) l true mayCatch.
Proof. apply guarded_sendResponse; cbn; auto. Qed.

(** A discreet step, then the rest. *)
Ltac guarded_step :=
  apply guarded_bind;
  eapply guarded_discreet;
    [first [ apply discreet_fetchData; reflexivity
           | apply discreet_findChoices
           | apply discreet_fetchFormChoices ]|];
  let r := fresh "r" in
  let l' := fresh "l'" in
  let Hl := fresh "Hl" in
  intros r l' Hl; destruct r; cbn beta iota.

Lemma on_default_guarded : guarded on_default false true mayCatch.
Proof. cbn. auto. Qed.

Lemma on_select_ticket_guarded (componentId : string) :
  guarded (on_select_ticket componentId) false true mayCatch.
Proof. cbn. auto. Qed.

Lemma on_load_more_tickets_guarded : guarded on_load_more_tickets false true mayCatch.
Proof.
  unfold on_load_more_tickets. cbn [get bind guarded]. intro s.
  destruct (mergePageState s); cbn; auto.
Qed.

Lemma on_load_more_home_tickets_guarded :
  guarded (on_load_more_home_tickets P) false true mayCatch.
Proof.
  unfold on_load_more_home_tickets. cbn [get bind guarded]. intro s.
  destruct (homePageState s) as [hp|]; [|cbn; auto].
  cbn [try_catch bind modify guarded].
  destruct (buildRecentTicketsComponent P _ _) as [e|cs]; cbn; auto.
Qed.

Lemma on_create_ticket_guarded (customerEmail defaultTitle : string) :
  guarded (on_create_ticket customerEmail defaultTitle) false true mayCatch.
Proof.
  unfold on_create_ticket. apply guarded_bind. apply guarded_try_catch.
  guarded_step; [cbn; auto|].
  guarded_step; [cbn; auto|].
  guarded_step; [cbn; auto|].
  guarded_step; [cbn; auto|].
  cbn [guarded]. apply guarded_sendResponse_mayCatch.
Qed.

Lemma recent_then_sendResponse_guarded (email : option string)
    (fetch : string -> prog (list json)) (buttons : list json) (l : bool) :
  discreet readRequest true (fetch (default "" email)) ->
  guarded
    (recent <- (if Js.truthy email then fetch (default "" email) else Ret []) ;;
     sendResponse (canvas (buttons ++ recent)%list)) l true mayCatch.
Proof.
  intro D. apply guarded_bind. destruct (Js.truthy email).
  - eapply guarded_discreet; [exact D|].
    intros [e|recent] l' Hl; cbn beta iota; [cbn; auto|].
    apply guarded_sendResponse_mayCatch.
  - cbn [guarded]. apply guarded_sendResponse_mayCatch.
Qed.

Lemma on_back_to_home_guarded (b : body) :
  guarded (on_back_to_home P b) false true mayCatch.
Proof.
  unfold on_back_to_home. cbn [get bind guarded]. intro s.
  apply recent_then_sendResponse_guarded.
  apply (@discreet_weaken _ readRequest readRequest false true); auto.
  apply discreet_recentOrFetched.
Qed.

Lemma on_cancel_guarded (b : body) : guarded (on_cancel P b) false true mayCatch.
Proof.
  unfold on_cancel. apply guarded_try_catch. cbn [get bind guarded]. intro s.
  eapply guarded_mono;
    [| |apply (@recent_then_sendResponse_guarded _ _ _ false), discreet_recentOrCreated].
  - auto.
  - cbn beta. intros [e|u] a c g Hac H; [|exact I].
    apply guarded_sendResponse; cbn; auto.
    destruct H as [-> | ->]; auto.
Qed.

Lemma guarded_updateMerge {B : Type} (f : pageState -> pageState) (k : prog B)
    (l g : bool) (Q : result B -> bool -> bool -> Prop) :
  guarded k l g Q ->
  (forall e, Q (inl e) l g) ->
  guarded (updateMerge f ;; k) l g Q.
Proof.
  intros Hk He. unfold updateMerge. cbn [get bind guarded]. intro s.
  destruct (mergePageState s); cbn [modify bind guarded]; auto.
Qed.

Lemma on_add_to_existing_ticket_guarded (b : body) :
  guarded (on_add_to_existing_ticket b) false true mayCatch.
Proof.
  unfold on_add_to_existing_ticket. apply guarded_try_catch.
  cbn [get bind guarded]. intro s.
  eapply guarded_mono with (Q := mayCatch) (l := false); [auto| |].
  { cbn beta. intros [e|u] a c g Hac H; [|exact I].
    apply guarded_sendResponse; cbn; auto.
    destruct H as [-> | ->]; auto. }
  destruct (negb (Js.truthy _)); [apply guarded_sendResponse_mayCatch|].
  cbn [modify bind guarded axios]. intros [e|allTickets]; cbn [bind guarded].
  - right. reflexivity.
  - destruct allTickets as [|ticket rest].
    + apply guarded_sendResponse_mayCatch.
    + apply guarded_bind.
      do 3 (apply guarded_updateMerge; [|intro; right; reflexivity]).
      cbn [get bind guarded]. intro s4.
      destruct (mergePageState s4); cbn [bind guarded].
      * apply guarded_sendResponse_mayCatch.
      * right. reflexivity.
Qed.

Lemma mergeUiResponse_guarded (b : body) :
  guarded (mergeUiResponse P b) false true (fun _ _ _ => True).
Proof.
  unfold mergeUiResponse. apply guarded_try_catch. cbn [get bind guarded]. intro s.
  eapply guarded_mono;
    [| |apply (@recent_then_sendResponse_guarded _ (recentOrFetched P) _ false)].
  - auto.
  - cbn beta. intros [e|u] a c g Hac H; [|exact I].
    apply guarded_sendResponse; auto.
    destruct H as [-> | ->]; auto.
  - apply (@discreet_weaken _ readRequest readRequest false true); auto.
    apply discreet_recentOrFetched.
Qed.

Lemma on_merge_ticket_guarded (b : body) :
  guarded (on_merge_ticket P b) false true mayCatch.
Proof.
  unfold on_merge_ticket. cbn [get bind guarded]. intro s.
  destruct (conversation b) as [c|]; [|cbn; auto].
  destruct (negb (Js.truthy (selectedTicketId s)) || negb (Js.truthy (cv_id c)));
    [apply guarded_sendResponse_mayCatch|].
  cbn [spawn bind guarded]. exists true. split; [auto|]. split.
  - apply mergeUiResponse_guarded.
  - exists false. split; [discriminate|]. split; [|exact I].
    eapply guarded_discreet; [apply discreet_mergeBackground|]. auto.
Qed.

Lemma submit_tail_guarded (email : string) (customerEmail : option string)
    (background : prog unit) (l : bool) :
  discreet anyRequest true background ->
  guarded
    (recent <- (if Js.truthy customerEmail
                then recentOrCreated P (default "" customerEmail)
                else Ret []) ;;
     (if negb (String.eqb email "")
      then now <- dateNow ;; trackerSet email (inProgressMarker now)
      else Ret tt) ;;
     sendResponse (canvas (deferredHomeButtons ++ recent)%list) ;;
     setTimeout 0 background)
    l true mayCatch.
Proof.
  intro D.
  assert (Kont : forall (recent : list json) (l' : bool),
             guarded
               ((if negb (String.eqb email "")
                 then now <- dateNow ;; trackerSet email (inProgressMarker now)
                 else Ret tt) ;;
                sendResponse (canvas (deferredHomeButtons ++ recent)%list) ;;
                setTimeout 0 background)
               l' true mayCatch).
  { intros recent l'.
    assert (Send : forall l2 : bool,
               guarded
                 (sendResponse (canvas (deferredHomeButtons ++ recent)%list) ;;
                  setTimeout 0 background) l2 true mayCatch).
    { intro l2. apply guarded_bind. apply guarded_sendResponse; [auto| |].
      - cbn [setTimeout guarded]. exists false. split; [discriminate|].
        split; [|exact I]. eapply guarded_discreet; [exact D|]. auto.
      - cbn [setTimeout guarded]. exists false. split; [discriminate|].
        split; [|exact I]. eapply guarded_discreet; [exact D|]. auto. }
    destruct (negb _); cbn [dateNow trackerSet modify bind guarded]; intros; apply Send. }
  apply guarded_bind. destruct (Js.truthy customerEmail).
  - eapply guarded_discreet; [apply discreet_recentOrCreated|].
    intros [e|recent] l' Hl; cbn beta iota; [cbn; auto|]. apply Kont.
  - cbn [guarded]. apply Kont.
Qed.

Lemma on_submit_ticket_button_guarded (b : body)
    (defaultTitle defaultDescription : string) :
  guarded (on_submit_ticket_button P b defaultTitle defaultDescription) false true
    mayCatch.
Proof.
  unfold on_submit_ticket_button. cbv zeta.
  match goal with |- guarded (if ?c then _ else _) _ _ _ => destruct c end.
  { guarded_step; [cbn; auto|]. apply guarded_sendResponse_mayCatch. }
  match goal with |- guarded (if ?c then _ else _) _ _ _ => destruct c end;
    [apply guarded_sendResponse_mayCatch|].
  match goal with |- guarded (if ?c then _ else _) _ _ _ => destruct c end;
    [apply guarded_sendResponse_mayCatch|].
  apply guarded_bind. apply guarded_try_catch.
  cbn [axios bind guarded]. intros [e|tickets]; cbn [bind guarded]; intro s;
    apply submit_tail_guarded; apply discreet_createTicketBackground.
Qed.

Lemma deadline_guarded (b : body) :
  guarded (deadline P b) false false (fun _ _ _ => True).
Proof.
  unfold deadline. cbn [guarded negb]. split; [exact I|]. intros _.
  split; [reflexivity|]. cbn [get bind guarded]. intro s.
  apply guarded_bind.
  eapply guarded_discreet with (ok := anyRequest) (writes := true).
  { destruct (_ && _); [|exact I]. cbn. auto. }
  intros [e|u] l' Hl; cbn beta iota; [exact I|].
  rewrite (Hl eq_refl).
  apply guarded_bind.
  eapply guarded_discreet with (ok := anyRequest) (writes := false).
  { apply discreet_try_catch; [|intro; exact I].
    destruct (Js.truthy _); [|exact I].
    apply discreet_bind; [cbn; split; [reflexivity|intros [e|v]; exact I]|].
    intros [|t data]; exact I. }
  intros [e|components] l2 Hl2; cbn beta iota; [exact I|].
  rewrite (Hl2 eq_refl). cbn. split; [exact I|discriminate].
Qed.

Lemma submitHandler_guarded (b : body) :
  guarded (submitHandler P b) false true (fun _ _ _ => True).
Proof.
  unfold submitHandler. apply guarded_try_catch. cbv zeta.
  cbn [modify bind guarded].
  assert (Caught : forall (r : result unit) (a c g : bool),
             (a = true -> c = true) -> mayCatch r a g ->
             match r with
             | inl e =>
                 guarded
                   (sendResponse (canvas
                      [ JObj [ "type" =: "text";
                               "text" =: "An error occurred: " ++ error_message e;
                               "style" =: "error" ];
                        tryAgainButton;
                        JObj [ "type" =: "divider" ];
                        JObj [ "type" =: "text"; "id" =: "recent_tickets_header";
                               "text" =: "Recent Tickets"; "style" =: "header" ];
                        noTickets ])) c g (fun _ _ _ => True)
             | inr _ => True
             end).
  { intros [e|u] a c g Hac H; [|exact I].
    apply guarded_sendResponse; auto.
    destruct H as [-> | ->]; auto. }
  repeat match goal with
         | |- guarded (if ?c then _ else _) _ _ _ => destruct c
         end;
    (eapply guarded_mono with (Q := mayCatch) (l := false); [auto|exact Caught|]);
    first [ exact on_default_guarded
          | exact (on_select_ticket_guarded _)
          | exact on_load_more_tickets_guarded
          | exact on_load_more_home_tickets_guarded
          | exact (on_create_ticket_guarded _ _)
          | exact (on_add_to_existing_ticket_guarded _)
          | exact (on_merge_ticket_guarded _)
          | exact (on_back_to_home_guarded _)
          | exact (on_submit_ticket_button_guarded _ _ _)
          | exact (on_cancel_guarded _) ].
Qed.

(** X22.  No [/api/submit] event is ever answered twice: whatever the event, the
    server state and the answers of the upstream systems, and in whatever
    order the pending calls complete and the 9-second timer fires, at most one
    reply is sent. *)
Theorem submit_never_replies_twice (E : env) (b : body) (s : state)
    (schedule : list occurrence) :
  (length (replies (submitTrace P E b s schedule)) <= 1)%nat.
Proof.
  assert (H0 : frugal (startSubmit P E b s)).
  { unfold startSubmit.
    destruct (@run_task_frugal E unit (submitHandler P b) false true
                {| l_machine := machine_of s; l_pending := [];
                   l_deadline := Some (deadline P b) |} []
                (submitHandler_guarded b)) as (flags & HF & Hn & _ & Hd).
    - discriminate.
    - constructor.
    - split.
      + exists flags. split; [exact HF|]. cbn in Hn. exact Hn.
      + intros d Hd'. rewrite Hd in Hd'. cbn in Hd'. inversion Hd'. apply deadline_guarded. }
  destruct (run_schedule_frugal E schedule H0) as [(flags & _ & Hn) _].
  unfold submitTrace. unfold replyCount in Hn. lia.
Qed.

End FrugalServer.


(** ** From [/api/initialize] to the [cancel] button *)

Lemma initialize_stores_the_list (P : platform) (E : env) (b0 : body) (s0 : state)
    (tickets : list ticket) (comps : list json) :
  upstream E 0 (GetTickets (initializeEmail b0) 20) = inr tickets ->
  buildRecentTicketsComponent P (Js.slice 0 5 tickets) (5 <? length tickets)%nat
  = inr comps ->
  let run := exec E (initialize P b0) (machine_of s0) in
  m_trace (snd run)
  = [EvHttp None (GetTickets (initializeEmail b0) 20);
     EvReply 200 (canvas (homeButtons ++ comps)%list)]
  /\ homePageState (m_state (snd run))
     = Some {| customerEmail := initializeEmail b0; currentOffset := 5;
               allTickets := tickets; hasMore := (5 <? length tickets)%nat |}.
Proof.
  intros Hup Hbuild. cbv zeta. unfold initialize. cbv zeta.
  set (email := initializeEmail b0) in *.
  rewrite exec_try_catch, exec_bind. cbn [get exec machine_of m_state].
  rewrite exec_bind.
  match goal with
  | |- context [exec E ?pre (machine_of s0)] =>
      assert (Hpre : exists s', exec E pre (machine_of s0) = (inr tt, machine_of s'))
  end.
  { destruct (ticketTracker s0 !! email) as [info|];
      [destruct (negb (email =? "")%string && inProgress info)|]; cbn; eauto. }
  destruct Hpre as [s' ->].
  cbn -[Js.slice buildRecentTicketsComponent canvas homeButtons Nat.ltb].
  rewrite Hup.
  cbn -[Js.slice buildRecentTicketsComponent canvas homeButtons Nat.ltb].
  rewrite Hbuild.
  cbn -[Js.slice buildRecentTicketsComponent canvas homeButtons Nat.ltb].
  split; reflexivity.
Qed.

(** X23.  A click on [cancel] right after [/api/initialize] brings the same home
    panel back without asking Freshdesk again: when the initialisation got the
    customer's tickets and could render them, and the click names the same,
    non-empty email, the handler answers from the stored list with exactly the
    panel that [/api/initialize] sent, and makes no upstream call. *)
Theorem cancel_after_initialize_repeats_home (P : platform) (E E' : env)
    (b0 b : body) (s0 : state) (tickets : list ticket) (comps : list json) :
  upstream E 0 (GetTickets (initializeEmail b0) 20) = inr tickets ->
  buildRecentTicketsComponent P (Js.slice 0 5 tickets) (5 <? length tickets)%nat
  = inr comps ->
  component_id b = Some "cancel" ->
  Js.or (contact_email b) (customer_email b) = Some (initializeEmail b0) ->
  initializeEmail b0 <> "" ->
  let first := exec E (initialize P b0) (machine_of s0) in
  let second := exec E' (submitHandler P b) (machine_of (m_state (snd first))) in
  let home := canvas (homeButtons ++ comps)%list in
  m_trace (snd first)
  = [EvHttp None (GetTickets (initializeEmail b0) 20); EvReply 200 home]
  /\ fst second = inr tt
  /\ m_trace (snd second) = [EvReply 200 home].
Proof.
  intros Hup Hbuild Hid Hmail Hne. cbv zeta.
  destruct (initialize_stores_the_list P E b0 s0 Hup Hbuild) as [Htrace Hhome].
  cbv zeta in Htrace, Hhome. split; [exact Htrace|].
  set (s1 := m_state (snd (exec E (initialize P b0) (machine_of s0)))) in *.
  set (email := initializeEmail b0) in *.
  assert (Htruthy : Js.truthy (Some email) = true).
  { cbn. destruct (String.eqb_spec email ""); [contradiction|reflexivity]. }
  unfold submitHandler. cbv zeta. unfold clicked. rewrite Hid.
  cbn [String.eqb Ascii.eqb Bool.eqb default Js.truthy negb andb Js.startsWith
       String.prefix].
  change (String.prefix "select_ticket_" (id "cancel")) with false. cbv iota.
  rewrite exec_try_catch. unfold on_cancel.
  cbn [modify bind exec machine_of m_state with_state]. rewrite exec_try_catch.
  cbn [get bind exec m_state with_state].
  assert (Hor : forall c : option string, Js.or (Some email) c = Some email).
  { intro c. unfold Js.or. rewrite Htruthy. reflexivity. }
  rewrite Hmail, !Hor, Htruthy.
  change (default "" (Some email)) with email.
  rewrite exec_bind. unfold recentOrCreated, cachedFor.
  cbn [get bind exec m_state with_state homePageState set_intercomContext].
  rewrite Hhome. cbn [customerEmail currentOffset allTickets hasMore].
  rewrite String.eqb_refl.
  cbn [customerEmail currentOffset allTickets hasMore].
  rewrite Hbuild.
  cbn -[canvas homeButtons].
  split; reflexivity.
Qed.

Lemma cancel_after_initialize_repeats_home_witness :
  exists home : json,
    let first := exec (envTickets 12) (initialize demo (customerBody None))
                   (machine_of initial_state) in
    let second := exec envOk (submitHandler demo (customerBody (Some "cancel")))
                    (machine_of (m_state (snd first))) in
    m_trace (snd first)
    = [EvHttp None (GetTickets "ada@example.com" 20); EvReply 200 home]
    /\ fst second = inr tt
    /\ m_trace (snd second) = [EvReply 200 home].
Proof.
  eexists.
  eapply (@cancel_after_initialize_repeats_home demo (envTickets 12) envOk
            (customerBody None) (customerBody (Some "cancel")) initial_state
            (sampleTickets 12)).
  - reflexivity.
  - vm_compute. reflexivity.
  - reflexivity.
  - reflexivity.
  - discriminate.
Defined.

(** ** The preselected status and priority of the ticket form *)



